(** * fairseq-signals: binary cross-entropy criterion and ECG-ID preprocessing

    A shallow embedding of

    - [BinaryCrossEntropyCriterion.forward], [reduce_metrics] and
      [logging_outputs_can_be_summed]
      (fairseq_signals/criterions/binary_cross_entropy.py), and
    - the per-file body of [main]
      (fairseq_signals/data/ecg/preprocess/preprocess_pad_ecgiddb.py).

    Conventions.  Python [int]s are [Z].  Python and torch floats are exact
    rationals [Q]: comparisons against constants, [.long()] and sums of
    counts are exact on floats, while the rounding error of float addition
    and division is not modelled: a float that is logged is pinned as the
    expression the code evaluates, and the numbered properties are chosen
    so as not to depend on sums and quotients of floats being exact.  The
    one conversion that the code asks for, [astype('float32')], is
    modelled: it rounds to the nearest single-precision number.  Tensors
    are flattened to lists (only [numel], element-wise comparison, index
    selection and [sum] are used).
    A Python exception is a value of [exn]; code that can raise returns a
    [result]. *)

From Stdlib Require Import String ZArith QArith Qround Qabs List Bool Lia Permutation.
From Stdlib Require Import Morphisms Setoid.
Import ListNotations.
Local Open Scope Z_scope.

Set Implicit Arguments.

(** ** Exceptions and results *)

(** The [ValueError]s of torch and numpy that the code can meet. *)
Inductive value_error : Type :=
| TargetSize      (* torch: target size differs from input size *)
| ZeroDimensional (* numpy: zero-dimensional arrays cannot be concatenated *)
| NoArrays        (* numpy: need at least one array to concatenate *)
| DimsMismatch    (* numpy: array dimensions off the concatenation axis differ *)
| HighNotPositive (* numpy randint: high <= 0 *)
| SeedOutOfRange. (* numpy seed: not between 0 and 2**32 - 1 *)

Inductive exn : Type :=
| IndexError          (* list index out of range *)
| AttributeError      (* 'int' object has no attribute 'item' *)
| ZeroDivisionError
| KeyError
| ValueError (why : value_error).

Inductive result (A : Type) : Type :=
| Ok (a : A)
| Raise (e : exn).
Arguments Ok {A} a.
Arguments Raise {A} e.

Definition is_ok {A} (r : result A) : bool :=
  match r with Ok _ => true | Raise _ => false end.

(** ** Python and torch primitives *)

Module Py.

(** The builtin [sum] over a generator: starts from 0, adds left to right. *)
Definition sum (l : list Z) : Z := fold_left Z.add l 0.
Definition sumQ (l : list Q) : Q := fold_left Qplus l (0 # 1).

(** [d.get(key, 0)] on a key that may be absent. *)
Definition get0 (o : option Z) : Z := match o with Some v => v | None => 0 end.
Definition get0Q (o : option Q) : Q := match o with Some v => v | None => 0 # 1 end.

(** [x or 1] on a number: [x] unless it is falsy, that is zero. *)
Definition or1 (x : Z) : Z := if x =? 0 then 1 else x.

(** [a / b] on floats. *)
Definition div (a b : Q) : result Q :=
  if Qeq_bool b (0 # 1) then Raise ZeroDivisionError else Ok (a / b)%Q.

(** [t.long()] on one element: truncation towards zero. *)
Definition long (t : Q) : Z := Z.quot (Qnum t) (Zpos (Qden t)).

(** A boolean seen as a number ([True == 1.0], summing a bool tensor). *)
Definition b2z (b : bool) : Z := if b then 1 else 0.
Definition b2q (b : bool) : Q := inject_Z (b2z b).

(** [torch.where(t == v)] : the indices of the elements equal to [v]. *)
Fixpoint where_from (i : nat) (v : Q) (t : list Q) : list nat :=
  match t with
  | [] => []
  | x :: r => if Qeq_bool x v then i :: where_from (S i) v r
              else where_from (S i) v r
  end.
Definition where_eq (v : Q) (t : list Q) : list nat := where_from 0 v t.

(** [outputs[idx]] for an index tensor [idx] (indices are in range
    whenever [idx] comes from [where_eq] on a tensor of the same shape). *)
Definition index (outputs : list bool) (idx : list nat) : list bool :=
  map (fun i => nth i outputs false) idx.

(** [x.sum()] on a bool tensor and [x.numel()]. *)
Definition bsum (l : list bool) : Z := sum (map b2z l).
Definition numel {A} (l : list A) : Z := Z.of_nat (length l).

(** [l[a:b]] with Python's treatment of negative and out-of-range bounds. *)
Definition clamp_index (len i : Z) : Z :=
  if i <? 0 then Z.max (i + len) 0 else Z.min i len.
Definition slice {A} (l : list A) (a b : Z) : list A :=
  let len := Z.of_nat (length l) in
  let s := clamp_index len a in
  let e := clamp_index len b in
  firstn (Z.to_nat (e - s)) (skipn (Z.to_nat s) l).

End Py.

(** ** The error monad of plain computations *)

Definition bind_result {A B} (r : result A) (k : A -> result B) : result B :=
  match r with
  | Ok a => k a
  | Raise e => Raise e
  end.

Declare Scope result_scope.
Delimit Scope result_scope with result.
Notation "x <- c ;; k" := (bind_result c (fun x => k))
  (at level 61, c at next level, right associativity) : result_scope.

(** ** The criterion: the producer of per-batch statistics *)

(** A count is either a Python [int] or a zero-dimensional torch tensor;
    only the tensor has [.item()]. *)
Inductive pyval : Type :=
| PyInt (z : Z)
| Tensor (z : Z).

Definition item (v : pyval) : result Z :=
  match v with
  | Tensor z => Ok z
  | PyInt _ => Raise AttributeError
  end.

(** [n - v] for a Python int [n]: a tensor operand makes the result a tensor. *)
Definition rsub (n : Z) (v : pyval) : pyval :=
  match v with
  | Tensor z => Tensor (n - z)
  | PyInt z => PyInt (n - z)
  end.

(** The dict [logging_output]; a key that is absent is [None]. *)
Record logging_output : Type := {
  loss : option Q;
  nsignals : option Z;
  sample_size : option Z;
  correct : option Z;
  count : option Z;
  tp : option Z;
  fp : option Z;
  tn : option Z;
  fn : option Z;
  y_true : option (list Q);      (* "_y_true" *)
  y_score : option (list Q)      (* "_y_score" *)
}.

(** The parts of [sample] that [forward] reads. *)
Record sample : Type := {
  sample_id : list Z;                       (* sample["id"] *)
  sample_sample_size : option Z;            (* sample['sample_size'], if present *)
  sample_mask_indices : option (list bool)  (* sample['net_input']['mask_indices'] *)
}.

(** The criterion object: [self.report_auc] and [self.training].
    [cfg.weight] is left at its default, [None]. *)
Record criterion : Type := {
  report_auc : bool;
  training : bool
}.

(** [probs > 0.5] *)
Definition binarize (probs : list Q) : list bool :=
  map (fun p => negb (Qle_bool p (1 # 2))) probs.

(** [(outputs == target)], element by element. *)
Definition eq_elementwise (outputs : list bool) (target : list Q) : list bool :=
  map (fun ot => Qeq_bool (Py.b2q (fst ot)) (snd ot)) (combine outputs target).

(** Lines 64-69. *)
Definition forward_sample_size (smp : sample) (target : list Q) : Z :=
  match sample_sample_size smp with
  | Some v => v
  | None =>
      match sample_mask_indices smp with
      | Some m => Py.bsum m
      | None => Py.sum (map Py.long target)
      end
  end.

(** [forward(model, sample, reduce = True)].  [probs] stands for
    [torch.sigmoid(model.get_logits(net_output).float())], [target] for
    [model.get_targets(sample, net_output)] and [loss_item] for the value
    of [loss.item()]; [F.binary_cross_entropy] raises when the target's
    size differs from the input's (sizes of flattened tensors: numbers of
    elements). *)
Definition forward (self : criterion) (probs target : list Q) (loss_item : Q)
    (smp : sample) : result (Q * Z * logging_output) :=
  if negb (Nat.eqb (length probs) (length target)) then Raise (ValueError TargetSize) else
  let sample_size := forward_sample_size smp target in
  let outputs := binarize probs in
  let '(corr, count, tp, tn, fp, fn) :=
    if Py.numel probs =? 0 then
      (0, 0, PyInt 0, PyInt 0, PyInt 0, PyInt 0)
    else
      let count := Py.numel probs in
      let corr := Py.bsum (eq_elementwise outputs target) in
      let true := Py.where_eq (1 # 1) target in
      let false := Py.where_eq (0 # 1) target in
      let tp := Py.bsum (Py.index outputs true) in
      let fn := rsub (Py.numel (Py.index outputs true)) (Tensor tp) in
      let fp := Py.bsum (Py.index outputs false) in
      let tn := rsub (Py.numel (Py.index outputs false)) (Tensor fp) in
      (corr, count, Tensor tp, tn, Tensor fp, fn) in
  (tp_item <- item tp ;;
   fp_item <- item fp ;;
   tn_item <- item tn ;;
   fn_item <- item fn ;;
   let auc := negb (training self) && report_auc self in
   Ok (loss_item, sample_size,
       {| loss := Some loss_item;
          nsignals := Some (Py.numel (sample_id smp));
          sample_size := Some sample_size;
          correct := Some corr;
          count := Some count;
          tp := Some tp_item;
          fp := Some fp_item;
          tn := Some tn_item;
          fn := Some fn_item;
          y_true := if auc then Some target else None;
          y_score := if auc then Some probs else None |}))%result.

(** [logging_outputs_can_be_summed()] *)
Definition logging_outputs_can_be_summed (_ : unit) : bool := false.

(** ** The metrics sink

    [fairseq_signals.logging.metrics] is not part of the sources at hand.
    The reducer's calls to it are recorded, in order, as events; what the
    sink makes of them is modelled separately below. *)

Inductive pyfloat : Type :=
| Num (x : Q)
| NaN.

(** What a derived metric's lambda can read: [meters[key].sum] of a scalar
    meter and [meters[key].auroc], [meters[key].auprc] of an AUC meter; a
    key that was never logged raises [KeyError]. *)
Record meters : Type := {
  meter_sum : string -> result Q;
  meter_auroc : string -> result pyfloat;
  meter_auprc : string -> result pyfloat
}.

Inductive event : Type :=
| LogScalar (key : string) (value : Q) (weight : Z) (round : option nat)
| LogCustom (key : string) (y_score y_true : list Q)    (* meters.AUCMeter *)
| LogDerived (key : string) (fn : meters -> result pyfloat).

(** The reducer's monad: the events logged so far, and a result or an
    exception.  Events logged before an exception stay logged. *)
Definition M (A : Type) : Type := list event -> list event * result A.

Definition ret {A} (a : A) : M A := fun s => (s, Ok a).

Definition bind {A B} (m : M A) (k : A -> M B) : M B :=
  fun s =>
    match m s with
    | (s', Ok a) => k a s'
    | (s', Raise e) => (s', Raise e)
    end.

Definition lift {A} (r : result A) : M A := fun s => (s, r).

Definition emit (e : event) : M unit := fun s => (s ++ [e], Ok tt).

Declare Scope sink_scope.
Delimit Scope sink_scope with sink.
Notation "x <- c ;; k" := (bind c (fun x => k))
  (at level 61, c at next level, right associativity) : sink_scope.
Notation "c ;; k" := (bind c (fun _ => k))
  (at level 61, right associativity) : sink_scope.

(** [metrics.log_scalar(key, value, weight = 1, round = None)],
    [metrics.log_custom(meters.AUCMeter, key, y_score, y_true)] and
    [metrics.log_derived(key, fn)]. *)
Definition log_scalar (key : string) (value : Q) (weight : Z)
    (round : option nat) : M unit :=
  emit (LogScalar key value weight round).
Definition log_custom (key : string) (y_score y_true : list Q) : M unit :=
  emit (LogCustom key y_score y_true).
Definition log_derived (key : string) (fn : meters -> result pyfloat) : M unit :=
  emit (LogDerived key fn).

(** Modelled from the spec: [safe_round] is imported from
    [fairseq_signals.logging.meters], which is not among the sources; the
    spec has the metrics "rounded to 3 decimals" and "rounded to 5
    decimals".  Rounding is to the nearest multiple of [10^-ndigits], ties
    to the even one, as Python's [round] does.  It is applied here to the
    exact quotient, where Python rounds the double nearest to it: the last
    digit can differ when the exact quotient is a tie (1/320), so no
    numbered property pins the digits of a ratio. *)
Fixpoint pow10 (n : nat) : positive :=
  match n with
  | O => 1%positive
  | S k => (10 * pow10 k)%positive
  end.

Definition round_half_even (x : Q) : Z :=
  let f := Qfloor x in
  match Qcompare (x - inject_Z f) (1 # 2) with
  | Lt => f
  | Gt => f + 1
  | Eq => if Z.even f then f else f + 1
  end.

Definition safe_round (x : Q) (ndigits : nat) : Q :=
  round_half_even (x * inject_Z (Zpos (pow10 ndigits))) # pow10 ndigits.

Definition safe_round_float (x : pyfloat) (ndigits : nat) : pyfloat :=
  match x with
  | Num v => Num (safe_round v ndigits)
  | NaN => NaN
  end.

(** ** The reducer *)

Local Open Scope string_scope.
Local Open Scope list_scope.
Local Open Scope Z_scope.

(** [math.log(2)]: the double nearest to ln 2, as an exact rational. *)
Definition math_log_2 : Q := 6243314768165359 # 9007199254740992.

(** [log.get("_y_true", 0)]: the array, or the default [0]. *)
Inductive np_arg : Type :=
| NdArray (a : list Q)
| PyZero.

Definition get_array (o : option (list Q)) : np_arg :=
  match o with
  | Some a => NdArray a
  | None => PyZero
  end.

(** [np.concatenate]: a zero-dimensional operand is rejected, and so is an
    empty list of operands. *)
Fixpoint concat_arrays (xs : list np_arg) : result (list Q) :=
  match xs with
  | [] => Ok []
  | NdArray a :: r => (rest <- concat_arrays r ;; Ok (a ++ rest))%result
  | PyZero :: _ => Raise (ValueError ZeroDimensional)
  end.

Definition np_concatenate (xs : list np_arg) : result (list Q) :=
  match xs with
  | [] => Raise (ValueError NoArrays)
  | _ => concat_arrays xs
  end.

(** [key in log] *)
Definition has {A} (o : option A) : bool :=
  match o with Some _ => true | None => false end.

(** [logging_outputs[0]] *)
Definition getitem0 {A} (l : list A) : result A :=
  match l with
  | x :: _ => Ok x
  | [] => Raise IndexError
  end.

(** The sums of lines 116-123 and 151-163. *)
Definition loss_sum (logging_outputs : list logging_output) : Q :=
  Py.sumQ (map (fun log => Py.get0Q (loss log)) logging_outputs).
Definition sum_of (field : logging_output -> option Z)
    (logging_outputs : list logging_output) : Z :=
  Py.sum (map (fun log => Py.get0 (field log)) logging_outputs).

(** [loss_sum / (sample_size or 1) / math.log(2)] *)
Definition loss_value (loss_sum : Q) (sample_size : Z) : result Q :=
  (per_sample <- Py.div loss_sum (inject_Z (Py.or1 sample_size)) ;;
   Py.div per_sample math_log_2)%result.

(** The lambdas handed to [metrics.log_derived]. *)
Definition auroc_fn (m : meters) : result pyfloat :=
  (a <- meter_auroc m "_auc" ;; Ok (safe_round_float a 3))%result.

Definition auprc_fn (m : meters) : result pyfloat :=
  (a <- meter_auprc m "_auc" ;; Ok (safe_round_float a 3))%result.

Definition accuracy_fn (m : meters) : result pyfloat :=
  (total <- meter_sum m "_total" ;;
   if negb (Qle_bool total (0 # 1)) then
     correct <- meter_sum m "_correct" ;;
     total <- meter_sum m "_total" ;;
     r <- Py.div correct total ;;
     Ok (Num (safe_round r 5))
   else Ok NaN)%result.

Definition precision_fn (m : meters) : result pyfloat :=
  (tp <- meter_sum m "_tp" ;;
   fp <- meter_sum m "_fp" ;;
   if negb (Qle_bool (tp + fp) (0 # 1)) then
     tp <- meter_sum m "_tp" ;;
     tp' <- meter_sum m "_tp" ;;
     fp <- meter_sum m "_fp" ;;
     r <- Py.div tp (tp' + fp) ;;
     Ok (Num (safe_round r 5))
   else Ok NaN)%result.

Definition recall_fn (m : meters) : result pyfloat :=
  (tp <- meter_sum m "_tp" ;;
   fn <- meter_sum m "_fn" ;;
   if negb (Qle_bool (tp + fn) (0 # 1)) then
     tp <- meter_sum m "_tp" ;;
     tp' <- meter_sum m "_tp" ;;
     fn <- meter_sum m "_fn" ;;
     r <- Py.div tp (tp' + fn) ;;
     Ok (Num (safe_round r 5))
   else Ok NaN)%result.

(** Lines 129-147: the AUC meters. *)
Definition reduce_auc (logging_outputs : list logging_output) : M unit :=
  (first <- lift (getitem0 logging_outputs) ;;
   if has (y_true first) && has (y_score first) then
     y_true <- lift (np_concatenate
                 (map (fun log => get_array (y_true log)) logging_outputs)) ;;
     y_score <- lift (np_concatenate
                 (map (fun log => get_array (y_score log)) logging_outputs)) ;;
     log_custom "_auc" y_score y_true ;;
     if (0 <? Z.of_nat (length y_true))%Z then
       log_derived "auroc" auroc_fn ;;
       log_derived "auprc" auprc_fn
     else ret tt
   else ret tt)%sink.

(** [reduce_metrics(logging_outputs)]; [utils.item] is the identity on the
    Python numbers summed here. *)
Definition reduce_metrics (logging_outputs : list logging_output) : M unit :=
  (let loss_sum := loss_sum logging_outputs in
   let nsignals := sum_of nsignals logging_outputs in
   let sample_size := sum_of sample_size logging_outputs in
   v <- lift (loss_value loss_sum sample_size) ;;
   log_scalar "loss" v sample_size (Some 3%nat) ;;
   reduce_auc logging_outputs ;;
   log_scalar "nsignals" (inject_Z nsignals) 1 None ;;
   let correct := sum_of correct logging_outputs in
   log_scalar "_correct" (inject_Z correct) 1 None ;;
   let total := sum_of count logging_outputs in
   log_scalar "_total" (inject_Z total) 1 None ;;
   let tp := sum_of tp logging_outputs in
   log_scalar "_tp" (inject_Z tp) 1 None ;;
   let fp := sum_of fp logging_outputs in
   log_scalar "_fp" (inject_Z fp) 1 None ;;
   let tn := sum_of tn logging_outputs in
   log_scalar "_tn" (inject_Z tn) 1 None ;;
   let fn := sum_of fn logging_outputs in
   log_scalar "_fn" (inject_Z fn) 1 None ;;
   if (0 <? total)%Z then
     log_derived "accuracy" accuracy_fn ;;
     log_derived "precision" precision_fn ;;
     log_derived "recall" recall_fn
   else ret tt)%sink.

(** One reporting interval: the reducer run on a fresh sink. *)
Definition run (logging_outputs : list logging_output) : list event * result unit :=
  reduce_metrics logging_outputs [].

(** ** Reading the sink *)

(** Modelled from the spec: the sink is an external collaborator that
    supports "scalar registration per metric name within a reporting
    interval and derived (lazily computed) metrics that read back
    previously registered scalar sums".  A scalar meter's [sum] adds up
    [value * weight] over the scalars logged under its key; an AUC meter
    accumulates the score and target arrays fed to it. *)
Fixpoint scalars_of (key : string) (ev : list event) : list Q :=
  match ev with
  | [] => []
  | LogScalar k v w _ :: r =>
      if String.eqb k key then (v * inject_Z w)%Q :: scalars_of key r
      else scalars_of key r
  | _ :: r => scalars_of key r
  end.

Definition scalar_sum (ev : list event) (key : string) : result Q :=
  match scalars_of key ev with
  | [] => Raise KeyError
  | l => Ok (Py.sumQ l)
  end.

Fixpoint customs_of (key : string) (ev : list event) : option (list Q * list Q) :=
  match ev with
  | [] => None
  | LogCustom k ys yt :: r =>
      if String.eqb k key then
        match customs_of key r with
        | Some (ys', yt') => Some (ys ++ ys', yt ++ yt')
        | None => Some (ys, yt)
        end
      else customs_of key r
  | _ :: r => customs_of key r
  end.

(** The derived metric registered under [key], if any (the last one wins). *)
Fixpoint derived_of (key : string) (ev : list event)
  : option (meters -> result pyfloat) :=
  match ev with
  | [] => None
  | LogDerived k fn :: r =>
      match derived_of key r with
      | Some fn' => Some fn'
      | None => if String.eqb k key then Some fn else None
      end
  | _ :: r => derived_of key r
  end.

Section Sink.

(** The two areas an AUC meter computes from scores and targets. *)
Variables auroc auprc : list Q -> list Q -> pyfloat.

Definition meters_of (ev : list event) : meters :=
  {| meter_sum := scalar_sum ev;
     meter_auroc := fun key =>
       match customs_of key ev with
       | Some (ys, yt) => Ok (auroc ys yt)
       | None => Raise KeyError
       end;
     meter_auprc := fun key =>
       match customs_of key ev with
       | Some (ys, yt) => Ok (auprc ys yt)
       | None => Raise KeyError
       end |}.

(** The value the sink reports for the derived metric [key]: [None] when
    no such metric was registered. *)
Definition read_derived (ev : list event) (key : string)
  : option (result pyfloat) :=
  match derived_of key ev with
  | Some fn => Some (fn (meters_of ev))
  | None => None
  end.

End Sink.

(** ** The ECG-ID preprocessing script: one file of [main]'s loop *)

Module Preprocess.

(** An element of a numpy float array: a finite number or an infinity. *)
Inductive np_float : Type :=
| Finite (x : Q)
| Inf (negative : bool).

(** [2 ** e] as a rational, and [floor(log2(x))] of a positive rational:
    the quotient of a numerator of [a + 1] bits by a denominator of
    [b + 1] bits lies between [2 ** (a - b - 1)] and [2 ** (a - b + 1)]. *)
Definition pow2 (e : Z) : Q :=
  if 0 <=? e then inject_Z (2 ^ e) else 1 # Z.to_pos (2 ^ (- e)).

Definition ilog2 (x : Q) : Z :=
  let e := Z.log2 (Qnum x) - Z.log2 (Zpos (Qden x)) in
  if Qle_bool (pow2 e) x then e else e - 1.

(** Rounding to the nearest binary floating-point number of [prec]
    significant bits and exponents from [emin] to [emax], ties to the even
    significand; numbers below [2 ** emin] are rounded on the subnormal
    grid, and what rounds past the largest finite number is an infinity. *)
Definition round_binary (prec emin emax : Z) (x : Q) : np_float :=
  let a := Qabs x in
  if Qeq_bool a (0 # 1) then Finite (0 # 1) else
  let e := Z.max (ilog2 a) emin in
  let ulp := pow2 (e - (prec - 1)) in
  let y := (inject_Z (round_half_even (a / ulp)) * ulp)%Q in
  if Qle_bool (pow2 (emax + 1)) y then Inf (Qnum x <? 0)
  else Finite (Qred (if Qnum x <? 0 then - y else y)%Q).

(** [x.astype('float32')] on one element of a float64 array. *)
Definition astype_float32 (x : Q) : np_float := round_binary 24 (-126) 127 x.

(** [np.zeros((rows, cols))] *)
Definition np_zeros (rows cols : nat) : list (list np_float) :=
  repeat (repeat (Finite (0 # 1)) cols) rows.

(** The second dimension of a two-dimensional array with a first row. *)
Definition ncols (a : list (list np_float)) : nat :=
  match a with
  | r :: _ => length r
  | [] => O
  end.

(** [np.concatenate((a, b))] on two-dimensional arrays: along axis 0,
    the other dimension must agree. *)
Definition np_concatenate2 (a b : list (list np_float))
  : result (list (list np_float)) :=
  if Nat.eqb (ncols a) (ncols b) then Ok (a ++ b)
  else Raise (ValueError DimsMismatch).

(** [np.random.randint(high)]: some integer of [0, high), here the
    generator's raw [draw] reduced modulo [high]; [high <= 0] raises
    ([high] is taken within the range of numpy's int64). *)
Definition randint (high draw : Z) : result Z :=
  if high <=? 0 then Raise (ValueError HighNotPositive)
  else Ok (draw mod high).

(** The dict handed to [scipy.io.savemat], and the name of the file. *)
Record mat : Type := {
  file_name : string;
  patient_id : string;
  curr_sample_rate : Z;
  feats : list (list np_float)
}.

(** Lines 59-90 of [main], for one file of the loop: [record] is the raw
    signal read by wfdb (finite samples), [sample_rate] the annotation's
    [fs], [pid] and [basename] the patient id and the base name cut from
    the path.
    [Ok None] is the [continue] of line 68, [Ok (Some data)] a call of
    [savemat] on [data]. *)
Definition main_file (args_sec : Z) (sample_rate : Z) (pid basename : string)
    (record : list Q) (draw : Z) : result (option mat) :=
  if negb (sample_rate =? 500) then Ok None else
  let length := Z.of_nat (length record) in
  let zeros := np_zeros 11 2500 in
  let record := map astype_float32 record in
  (start <- randint (length - args_sec * sample_rate) draw ;;
   let record := [Py.slice record start (start + args_sec * sample_rate)] in
   record <- np_concatenate2 record zeros ;;
   Ok (Some {| file_name := pid ++ "_" ++ basename ++ ".mat";
               patient_id := pid;
               curr_sample_rate := sample_rate;
               feats := record |}))%result.

(** Whether a file was written. *)
Definition saved (r : result (option mat)) : bool :=
  match r with
  | Ok (Some _) => true
  | _ => false
  end.

End Preprocess.

(** * Vocabulary of the statements

    Auxiliary notions in which the properties below are stated: the cells
    of a batch counted position by position, the events an interval logs,
    and the example bundles. *)

(** The number of positions of a batch at which [P output target] holds. *)
Definition cnt (P : bool -> Q -> bool) (ots : list (bool * Q)) : Z :=
  Py.sum (map (fun ot => Py.b2z (P (fst ot) (snd ot))) ots).

(** Selecting the outputs whose target equals [v], position by position. *)
Fixpoint select (v : Q) (os : list bool) (ts : list Q) : list bool :=
  match os, ts with
  | o :: os', t :: ts' =>
      if Qeq_bool t v then o :: select v os' ts' else select v os' ts'
  | _, _ => []
  end.

(** A target that is exactly 0 or exactly 1. *)
Definition is01 (t : Q) : Prop := (t == 0 \/ t == 1)%Q.

(** The batch as positions: binarized output and target. *)
Definition positions (probs target : list Q) : list (bool * Q) :=
  combine (binarize probs) target.

(** The four cells, counted position by position: positive outputs among
    the targets equal to 1 and to 0, and what is left of each partition. *)
Definition tp_cell (probs target : list Q) : Z :=
  cnt (fun o t => o && Qeq_bool t (1 # 1)) (positions probs target).

Definition fp_cell (probs target : list Q) : Z :=
  cnt (fun o t => o && Qeq_bool t (0 # 1)) (positions probs target).

Definition fn_cell (probs target : list Q) : Z :=
  cnt (fun _ t => Qeq_bool t (1 # 1)) (positions probs target)
  - tp_cell probs target.

Definition tn_cell (probs target : list Q) : Z :=
  cnt (fun _ t => Qeq_bool t (0 # 1)) (positions probs target)
  - fp_cell probs target.

(** A criterion in training mode and a batch of four signals with
    neither an explicit sample size nor a mask. *)
Definition ex_crit : criterion := {| report_auc := false; training := true |}.

Definition ex_smp : sample :=
  {| sample_id := [1; 2; 3; 4];
     sample_sample_size := None;
     sample_mask_indices := None |}.

(** An entry that carries both raw arrays. *)
Definition carries (log : logging_output) : bool :=
  has (y_true log) && has (y_score log).

(** The concatenation of a raw-array field over the entries that have it. *)
Definition concat_field (field : logging_output -> option (list Q))
    (logs : list logging_output) : list Q :=
  concat (map (fun log => match field log with Some a => a | None => [] end) logs).

(** What the AUC step logs when it runs to its end. *)
Definition auc_events (logs : list logging_output) : list event :=
  LogCustom "_auc" (concat_field y_score logs) (concat_field y_true logs)
  :: (if 0 <? Z.of_nat (length (concat_field y_true logs))
      then [LogDerived "auroc" auroc_fn; LogDerived "auprc" auprc_fn]
      else []).

(** The loss scalar, logged first; then, after the AUC step, the counts
    and, under [total > 0], the ratios. *)
Definition loss_event (logs : list logging_output) : event :=
  LogScalar "loss"
    (loss_sum logs / inject_Z (Py.or1 (sum_of sample_size logs)) / math_log_2)%Q
    (sum_of sample_size logs) (Some 3%nat).

Definition count_events (logs : list logging_output) : list event :=
  [ LogScalar "nsignals" (inject_Z (sum_of nsignals logs)) 1 None;
    LogScalar "_correct" (inject_Z (sum_of correct logs)) 1 None;
    LogScalar "_total" (inject_Z (sum_of count logs)) 1 None;
    LogScalar "_tp" (inject_Z (sum_of tp logs)) 1 None;
    LogScalar "_fp" (inject_Z (sum_of fp logs)) 1 None;
    LogScalar "_tn" (inject_Z (sum_of tn logs)) 1 None;
    LogScalar "_fn" (inject_Z (sum_of fn logs)) 1 None ].

Definition ratio_events (logs : list logging_output) : list event :=
  if 0 <? sum_of count logs
  then [ LogDerived "accuracy" accuracy_fn;
         LogDerived "precision" precision_fn;
         LogDerived "recall" recall_fn ]
  else [].

(** The events of an interval on which the reducer ran to its end. *)
Definition complete (logs : list logging_output) (auc : list event) : list event :=
  loss_event logs :: auc ++ count_events logs ++ ratio_events logs.

(** The summed field behind each count meter. *)
Definition sum_of_key (key : string) (logs : list logging_output) : option Z :=
  if String.eqb key "_correct" then Some (sum_of correct logs)
  else if String.eqb key "_total" then Some (sum_of count logs)
  else if String.eqb key "_tp" then Some (sum_of tp logs)
  else if String.eqb key "_fp" then Some (sum_of fp logs)
  else if String.eqb key "_tn" then Some (sum_of tn logs)
  else if String.eqb key "_fn" then Some (sum_of fn logs)
  else if String.eqb key "nsignals" then Some (sum_of nsignals logs)
  else None.

(** A ratio of two summed counts as the lambdas report it: rounded to 5
    decimals when the denominator is positive, NaN otherwise. *)
Definition ratio (num den : Z) : pyfloat :=
  if 0 <? den then Num (safe_round (inject_Z num / inject_Z den) 5) else NaN.

(** A bundle as [forward] fills it in, without raw arrays. *)
Definition bundle (l : Q) (ns ss c n a b d e : Z) : logging_output :=
  {| loss := Some l; nsignals := Some ns; sample_size := Some ss;
     correct := Some c; count := Some n;
     tp := Some a; fp := Some b; tn := Some d; fn := Some e;
     y_true := None; y_score := None |}.

(** The same bundle carrying raw targets and scores. *)
Definition with_raw (log : logging_output) (targets scores : list Q)
  : logging_output :=
  {| loss := loss log; nsignals := nsignals log; sample_size := sample_size log;
     correct := correct log; count := count log;
     tp := tp log; fp := fp log; tn := tn log; fn := fn log;
     y_true := Some targets; y_score := Some scores |}.

(** How an interval goes, by who carries the raw arrays. *)
Inductive interval_case (logs : list logging_output) : Prop :=
| case_skip log rest :
    logs = log :: rest -> carries log = false ->
    run logs = (complete logs [], Ok tt) -> interval_case logs
| case_all :
    Forall (fun log => carries log = true) logs ->
    run logs = (complete logs (auc_events logs), Ok tt) -> interval_case logs
| case_mixed log rest :
    logs = log :: rest -> carries log = true ->
    ~ Forall (fun log => carries log = true) logs ->
    run logs = ([loss_event logs], Raise (ValueError ZeroDimensional)) ->
    interval_case logs.

(** Two bundles with raw arrays and two without. *)
Definition raw_a : logging_output :=
  with_raw (bundle (1 # 2) 2 2 2 2 1 0 1 0) [1 # 1; 0 # 1] [9 # 10; 2 # 10].

Definition raw_b : logging_output :=
  with_raw (bundle (1 # 4) 1 1 1 1 1 0 0 0) [1 # 1] [6 # 10].

(** The [log_scalar] calls of an interval, in order. *)
Definition is_scalar (e : event) : bool :=
  match e with LogScalar _ _ _ _ => true | _ => false end.

Definition scalar_calls (ev : list event) : list event := filter is_scalar ev.

(** Two calls that agree up to the float value's representation. *)
Inductive same_call : event -> event -> Prop :=
| same_scalar key v v' w r :
    (v == v')%Q -> same_call (LogScalar key v w r) (LogScalar key v' w r).

Definition same_scalars (ev ev' : list event) : Prop :=
  Forall2 same_call (scalar_calls ev) (scalar_calls ev').

(** Every entry carries both raw arrays, or every entry lacks one. *)
Definition uniform (logs : list logging_output) : Prop :=
  Forall (fun log => carries log = true) logs \/
  Forall (fun log => carries log = false) logs.

(** One bundle holding the pooled sums, without raw arrays. *)
Definition pool (logs : list logging_output) : logging_output :=
  bundle (loss_sum logs) (sum_of nsignals logs) (sum_of sample_size logs)
         (sum_of correct logs) (sum_of count logs)
         (sum_of tp logs) (sum_of fp logs) (sum_of tn logs) (sum_of fn logs).

Definition plain_b : logging_output := bundle (1 # 4) 1 1 1 1 1 0 0 0.

Definition plain_c : logging_output := bundle (1 # 2) 2 2 1 2 1 1 0 0.

(** The crop the script takes from a 500 Hz [record]. *)
Definition crop {A} (args_sec : Z) (record : list A) (draw : Z) : list A :=
  let start := draw mod (Z.of_nat (length record) - args_sec * 500) in
  Py.slice record start (start + args_sec * 500).

(** * Batches, intervals and the script's loop

    What the remaining properties speak of: a batch as [forward] receives
    it, the pairs fed to the AUC meter, two intervals logged into one sink,
    and the loop of [main] over the files it found. *)

(** One batch: the probabilities, the targets, the value of the loss and
    the sample. *)
Record batch : Type := {
  batch_probs : list Q;
  batch_target : list Q;
  batch_loss : Q;
  batch_sample : sample
}.

Definition forward_batch (self : criterion) (b : batch)
  : result (Q * Z * logging_output) :=
  forward self (batch_probs b) (batch_target b) (batch_loss b) (batch_sample b).

(** [log] is the bundle [forward] returns on [b]. *)
Definition produces (self : criterion) (b : batch) (log : logging_output) : Prop :=
  exists l ss, forward_batch self b = Ok (l, ss, log).

(** The number of targets equal to [v]. *)
Definition targets_equal (v : Q) (target : list Q) : Z :=
  Z.of_nat (length (filter (fun t => Qeq_bool t v) target)).

(** The raw arrays of an entry, empty when the key is absent. *)
Definition raw_scores (log : logging_output) : list Q :=
  match y_score log with Some a => a | None => [] end.

Definition raw_targets (log : logging_output) : list Q :=
  match y_true log with Some a => a | None => [] end.

(** The (score, target) pairs an entry carries, position by position, and
    the pairs the AUC meter of a sink has been fed. *)
Definition entry_pairs (log : logging_output) : list (Q * Q) :=
  combine (raw_scores log) (raw_targets log).

Definition fed_pairs (ev : list event) : list (Q * Q) :=
  match customs_of "_auc" ev with
  | Some (ys, yt) => combine ys yt
  | None => []
  end.

(** The dict without any key. *)
Definition empty_log : logging_output :=
  {| loss := None; nsignals := None; sample_size := None;
     correct := None; count := None;
     tp := None; fp := None; tn := None; fn := None;
     y_true := None; y_score := None |}.

(** A reported ratio that is NaN or lies in the unit interval. *)
Definition unit_ratio (v : pyfloat) : Prop :=
  match v with
  | Num x => (0 <= x /\ x <= 1)%Q
  | NaN => True
  end.

(** A criterion in evaluation mode that reports AUC, and a batch. *)
Definition eval_crit : criterion := {| report_auc := true; training := false |}.

Definition ex_batch : batch :=
  {| batch_probs := [9 # 10; 2 # 10; 6 # 10; 1 # 10];
     batch_target := [1 # 1; 0 # 1; 1 # 1; 0 # 1];
     batch_loss := 1 # 2;
     batch_sample := ex_smp |}.

Definition ex_batch2 : batch :=
  {| batch_probs := [7 # 10; 3 # 10];
     batch_target := [0 # 1; 1 # 1];
     batch_loss := 1 # 4;
     batch_sample := ex_smp |}.

(** The bundles [forward] returns on the two batches, in evaluation mode. *)
Definition ex_log : logging_output :=
  with_raw (bundle (1 # 2) 4 2 4 4 2 0 2 0) (batch_target ex_batch) (batch_probs ex_batch).

Definition ex_log2 : logging_output :=
  with_raw (bundle (1 # 4) 4 1 0 2 0 1 0 1) (batch_target ex_batch2) (batch_probs ex_batch2).

(** ** Paths: the string operations of lines 56 and 72-73 *)

Module Path.

(** The characters ['/'] and ['.']. *)
Definition slash : Ascii.ascii := Ascii.ascii_of_nat 47.
Definition dot : Ascii.ascii := Ascii.ascii_of_nat 46.

(** [c in s] *)
Fixpoint has_char (c : Ascii.ascii) (s : string) : bool :=
  match s with
  | EmptyString => false
  | String x r => Ascii.eqb x c || has_char c r
  end.

(** [s.split(sep)] for a one-character separator: the pieces between the
    separators, empty pieces included. *)
Fixpoint split (sep : Ascii.ascii) (s : string) : list string :=
  match s with
  | EmptyString => [EmptyString]
  | String c r =>
      if Ascii.eqb c sep then EmptyString :: split sep r
      else match split sep r with
           | h :: t => String c h :: t
           | [] => [String c EmptyString]
           end
  end.

(** [l[i]] on a list, negative indices counting from the end. *)
Definition getitem {A} (l : list A) (i : Z) : result A :=
  let len := Z.of_nat (length l) in
  let j := if i <? 0 then i + len else i in
  if (j <? 0) || (len <=? j) then Raise IndexError
  else match nth_error l (Z.to_nat j) with
       | Some x => Ok x
       | None => Raise IndexError
       end.

(** [s[-2:]] *)
Definition last_two (s : string) : string :=
  let l := list_ascii_of_string s in
  string_of_list_ascii (Py.slice l (-2) (Z.of_nat (length l))).

(** [os.path.basename(p)]: what follows the last slash. *)
Definition basename (p : string) : string :=
  last (split slash p) EmptyString.

(** The path up to and including its last slash, and the rest. *)
Fixpoint rpartition (p : string) : string * string :=
  match p with
  | EmptyString => (EmptyString, EmptyString)
  | String c r =>
      let (d, n) := rpartition r in
      if Ascii.eqb c slash then (String c d, n)
      else match d with
           | EmptyString => (EmptyString, String c n)
           | _ => (String c d, n)
           end
  end.

(** The leading dots of a name, and the rest. *)
Fixpoint span_dots (s : string) : string * string :=
  match s with
  | String c r =>
      if Ascii.eqb c dot then let (d, t) := span_dots r in (String c d, t)
      else (EmptyString, s)
  | EmptyString => (EmptyString, EmptyString)
  end.

(** What precedes the last dot, if there is a dot. *)
Fixpoint cut_last_dot (s : string) : option string :=
  match s with
  | EmptyString => None
  | String c r =>
      match cut_last_dot r with
      | Some r' => Some (String c r')
      | None => if Ascii.eqb c dot then Some EmptyString else None
      end
  end.

(** [os.path.splitext(p)[0]]: the extension starts at the last dot of the
    last component; leading dots of that component belong to the root. *)
Definition splitext_root (p : string) : string :=
  let (dir, name) := rpartition p in
  let (dots, rest) := span_dots name in
  match cut_last_dot rest with
  | Some r => dir ++ dots ++ r
  | None => p
  end.

(** [fname.split('/')[-2][-2:]] *)
Definition pid_of (fname : string) : result string :=
  (parent <- getitem (split slash fname) (-2) ;; Ok (last_two parent))%result.

End Path.

(** ** [get_parser] and [main] *)

(** The namespace [parse_args] returns; [root] is the positional argument,
    and an option that was not given has its default. *)
Record args : Type := {
  root : string;
  dest : option string;
  ext : string;
  sec : Z;
  seed : Z;
  workers : Z
}.

(** The defaults [get_parser] declares: [--dest] has none. *)
Definition default_args (root : string) : args :=
  {| root := root; dest := None; ext := "dat"; sec := 5; seed := 42; workers := 1 |}.

(** One file found by [glob]: its path, the first channel of [p_signal]
    that [wfdb.rdrecord] reads from it and the [fs] of its annotation. *)
Record ecg_file : Type := {
  fname : string;
  p_signal : list Q;
  fs : Z
}.

(** [np.random.seed] takes an integer between 0 and [2**32 - 1] and
    raises [ValueError] on any other. *)
Definition seed_in_range (s : Z) : bool := (0 <=? s) && (s <=? 2 ^ 32 - 1).

(** How [main] ends: normally, with an exception of [np.random.seed] or
    of the loop, or with the [TypeError] of [os.path.realpath(None)]. *)
Inductive main_result : Type :=
| MainOk
| MainRaise (e : exn)
| MainTypeError.

Section Main.

(** numpy's global generator: its states, [np.random.seed] and one call of
    [np.random.randint(high)], which returns a value and the next state. *)
Variable rng : Type.
Variable np_random_seed : Z -> rng.
Variable np_random_randint : rng -> Z -> Z * rng.

(** The loop of lines 55-90 from generator state [g]: the files written,
    in order, and how the loop ended.  An exception ends the loop; the
    files written before it stay written. *)
Fixpoint main_loop (args_sec : Z) (g : rng) (fnames : list ecg_file)
  : list Preprocess.mat * result unit :=
  match fnames with
  | [] => ([], Ok tt)
  | f :: rest =>
      let fname := Path.splitext_root (fname f) in
      let sample_rate := fs f in
      if negb (sample_rate =? 500) then main_loop args_sec g rest else
      match Path.pid_of fname with
      | Raise e => ([], Raise e)
      | Ok pid =>
          let basename := Path.basename fname in
          let high := Z.of_nat (length (p_signal f)) - args_sec * sample_rate in
          let (draw, g') := np_random_randint g high in
          match Preprocess.main_file args_sec sample_rate pid basename
                  (p_signal f) draw with
          | Ok (Some data) =>
              let (written, r) := main_loop args_sec g' rest in
              (data :: written, r)
          | Ok None => main_loop args_sec g rest
          | Raise e => ([], Raise e)
          end
      end
  end.

(** [main(args)] on the files found under [args.root]. *)
Definition main (a : args) (fnames : list ecg_file)
  : list Preprocess.mat * main_result :=
  match dest a with
  | None => ([], MainTypeError)
  | Some _ =>
      if negb (seed_in_range (seed a))
      then ([], MainRaise (ValueError SeedOutOfRange)) else
      match main_loop (sec a) (np_random_seed (seed a)) fnames with
      | (written, Ok _) => (written, MainOk)
      | (written, Raise e) => (written, MainRaise e)
      end
  end.

End Main.

(** Whether a file passes the check of line 67. *)
Definition is_500hz (f : ecg_file) : bool := fs f =? 500.

(** The name of the file written for a record under [parent/stem]. *)
Definition out_name (parent stem : string) : string :=
  Path.last_two parent ++ "_" ++ stem ++ ".mat".

(** A generator for the examples: it always answers 7. *)
Definition const_rng (g : unit) (high : Z) : Z * unit := (7, tt).

Definition ex_file (seconds : nat) (rate : Z) : ecg_file :=
  {| fname := "/data/ecgiddb/Person_01/rec_1.dat";
     p_signal := repeat (0 # 1) (seconds * 500);
     fs := rate |}.

(** The name [main] writes a 500 Hz file under (empty when the path has no
    parent directory and [split('/')[-2]] raises). *)
Definition written_name (f : ecg_file) : string :=
  let fname := Path.splitext_root (fname f) in
  match Path.pid_of fname with
  | Ok pid => (pid ++ "_" ++ Path.basename fname ++ ".mat")%string
  | Raise _ => EmptyString
  end.

(** The path of a file has a parent directory component. *)
Definition has_parent (f : ecg_file) : Prop :=
  exists pid, Path.pid_of (Path.splitext_root (fname f)) = Ok pid.

(** A 500 Hz record long enough for a 2500-sample crop. *)
Definition long_enough (f : ecg_file) : Prop :=
  2500 < Z.of_nat (length (p_signal f)).

(** What is written for one file: its name and a window of its signal,
    in single precision, above 11 rows of zeros. *)
Definition written_for (f : ecg_file) (data : Preprocess.mat) : Prop :=
  Preprocess.file_name data = written_name f /\
  Preprocess.curr_sample_rate data = 500 /\
  exists pre w post,
    p_signal f = pre ++ w ++ post /\
    length w = 2500%nat /\
    Preprocess.feats data
    = map Preprocess.astype_float32 w
      :: repeat (repeat (Preprocess.Finite (0 # 1)) 2500%nat) 11.

(** * Properties *)

(** ** Python's [sum] *)

Section SumFacts.

Lemma sum_acc (l : list Z) (a : Z) : fold_left Z.add l a = a + Py.sum l.
Proof.
  unfold Py.sum. revert a.
  induction l as [|x l IH]; intros a; simpl.
  - lia.
  - rewrite (IH (a + x)), (IH x). lia.
Qed.

Lemma sum_cons (x : Z) (l : list Z) : Py.sum (x :: l) = x + Py.sum l.
Proof. unfold Py.sum at 1. simpl. apply sum_acc. Qed.

Lemma sum_nil : Py.sum [] = 0.
Proof. reflexivity. Qed.

Lemma sum_perm (l l' : list Z) : Permutation l l' -> Py.sum l = Py.sum l'.
Proof.
  induction 1 as [| x l l' _ IH | x y l | l l' l'' _ IH1 _ IH2].
  - reflexivity.
  - rewrite !sum_cons, IH. reflexivity.
  - rewrite !sum_cons. lia.
  - congruence.
Qed.

Lemma sumQ_acc (l : list Q) (a : Q) : (fold_left Qplus l a == a + Py.sumQ l)%Q.
Proof.
  unfold Py.sumQ. revert a.
  induction l as [|x l IH]; intros a; simpl.
  - ring.
  - rewrite (IH (a + x)%Q), (IH (0 + x)%Q). ring.
Qed.

Lemma sumQ_cons (x : Q) (l : list Q) : (Py.sumQ (x :: l) == x + Py.sumQ l)%Q.
Proof. unfold Py.sumQ at 1. simpl. rewrite sumQ_acc. ring. Qed.

Lemma sumQ_perm (l l' : list Q) : Permutation l l' -> (Py.sumQ l == Py.sumQ l')%Q.
Proof.
  induction 1 as [| x l l' _ IH | x y l | l l' l'' _ IH1 _ IH2].
  - reflexivity.
  - rewrite !sumQ_cons, IH. reflexivity.
  - rewrite !sumQ_cons. ring.
  - rewrite IH1. exact IH2.
Qed.

(** A sum of integers seen as floats is the integer sum. *)
Lemma sumQ_inject (l : list Z) :
  (Py.sumQ (map inject_Z l) == inject_Z (Py.sum l))%Q.
Proof.
  induction l as [|x l IH].
  - reflexivity.
  - simpl map. rewrite sumQ_cons, sum_cons, IH, inject_Z_plus. reflexivity.
Qed.

End SumFacts.

(** ** The producer's counts *)

Section Counts.

Lemma cnt_cons P o t ots :
  cnt P ((o, t) :: ots) = Py.b2z (P o t) + cnt P ots.
Proof. unfold cnt. simpl map. apply sum_cons. Qed.

Lemma cnt_bounds P ots : 0 <= cnt P ots <= Z.of_nat (length ots).
Proof.
  induction ots as [|[o t] ots IH].
  - cbn. lia.
  - rewrite cnt_cons. cbn [length]. destruct (P o t); cbn [Py.b2z]; lia.
Qed.

Lemma where_from_S i v t :
  Py.where_from (S i) v t = map S (Py.where_from i v t).
Proof.
  revert i. induction t as [|x t IH]; intros i; simpl.
  - reflexivity.
  - destruct (Qeq_bool x v); simpl; rewrite IH; reflexivity.
Qed.

Lemma index_cons_S o os idx :
  Py.index (o :: os) (map S idx) = Py.index os idx.
Proof. unfold Py.index. rewrite map_map. reflexivity. Qed.

(** Indexing by [torch.where(target == v)] selects by the mask. *)
Lemma index_where v os ts :
  length os = length ts ->
  Py.index os (Py.where_eq v ts) = select v os ts.
Proof.
  unfold Py.where_eq. revert ts.
  induction os as [|o os IH]; intros [|t ts] Hlen; try discriminate.
  - reflexivity.
  - injection Hlen as Hlen. simpl.
    destruct (Qeq_bool t v).
    + change (Py.index (o :: os) (0%nat :: Py.where_from 1 v ts))
        with (o :: Py.index (o :: os) (Py.where_from 1 v ts)).
      rewrite where_from_S, index_cons_S. f_equal. apply IH, Hlen.
    + rewrite where_from_S, index_cons_S. apply IH, Hlen.
Qed.

Lemma bsum_cons b l : Py.bsum (b :: l) = Py.b2z b + Py.bsum l.
Proof. unfold Py.bsum. simpl map. apply sum_cons. Qed.

Lemma bsum_select v os ts :
  Py.bsum (select v os ts) = cnt (fun o t => o && Qeq_bool t v) (combine os ts).
Proof.
  revert ts. induction os as [|o os IH]; intros [|t ts]; try reflexivity.
  cbn [select combine]. rewrite cnt_cons.
  destruct (Qeq_bool t v).
  - rewrite bsum_cons, IH, andb_true_r. reflexivity.
  - rewrite IH, andb_false_r. reflexivity.
Qed.

Lemma numel_select v os ts :
  Py.numel (select v os ts) = cnt (fun _ t => Qeq_bool t v) (combine os ts).
Proof.
  unfold Py.numel.
  revert ts. induction os as [|o os IH]; intros [|t ts]; try reflexivity.
  cbn [select combine]. rewrite cnt_cons.
  destruct (Qeq_bool t v).
  - cbn [length Py.b2z]. rewrite <- IH. lia.
  - rewrite IH. reflexivity.
Qed.

Lemma bsum_eq_elementwise os ts :
  Py.bsum (eq_elementwise os ts)
  = cnt (fun o t => Qeq_bool (Py.b2q o) t) (combine os ts).
Proof. unfold Py.bsum, eq_elementwise, cnt. rewrite map_map. reflexivity. Qed.

Lemma not_one_and_zero t :
  Qeq_bool t (1 # 1) = true -> Qeq_bool t (0 # 1) = false.
Proof.
  intros H1. destruct (Qeq_bool t (0 # 1)) eqn:E0; [|reflexivity].
  apply Qeq_bool_iff in H1, E0. rewrite H1 in E0. discriminate E0.
Qed.

(** A position is counted correct exactly when it is a true positive or
    a true negative. *)
Lemma correct_pointwise o t :
  Py.b2z (Qeq_bool (Py.b2q o) t)
  = Py.b2z (o && Qeq_bool t (1 # 1))
    + (Py.b2z (Qeq_bool t (0 # 1)) - Py.b2z (o && Qeq_bool t (0 # 1))).
Proof.
  destruct o; cbn [andb].
  - change (Py.b2q true) with (1 # 1). rewrite (Qeq_bool_comm (1 # 1) t). lia.
  - change (Py.b2q false) with (0 # 1). rewrite (Qeq_bool_comm (0 # 1) t).
    cbn [Py.b2z]. lia.
Qed.

Lemma cnt_correct ots :
  cnt (fun o t => Qeq_bool (Py.b2q o) t) ots
  = cnt (fun o t => o && Qeq_bool t (1 # 1)) ots
    + (cnt (fun _ t => Qeq_bool t (0 # 1)) ots
       - cnt (fun o t => o && Qeq_bool t (0 # 1)) ots).
Proof.
  induction ots as [|[o t] ots IH].
  - reflexivity.
  - rewrite !cnt_cons, IH, correct_pointwise. lia.
Qed.

Lemma cnt_partition ots :
  Forall is01 (map snd ots) ->
  cnt (fun _ t => Qeq_bool t (1 # 1)) ots + cnt (fun _ t => Qeq_bool t (0 # 1)) ots
  = Z.of_nat (length ots).
Proof.
  induction ots as [|[o t] ots IH]; intros Hb.
  - reflexivity.
  - simpl map in Hb. inversion Hb as [|? ? Ht Hts]; subst.
    rewrite !cnt_cons. cbn [length]. rewrite Nat2Z.inj_succ. specialize (IH Hts).
    destruct Ht as [Ht | Ht].
    + assert (E0 : Qeq_bool t (0 # 1) = true) by (apply Qeq_bool_iff, Ht).
      assert (E1 : Qeq_bool t (1 # 1) = false).
      { destruct (Qeq_bool t (1 # 1)) eqn:E; [|reflexivity].
        apply not_one_and_zero in E. congruence. }
      rewrite E0, E1. cbn [Py.b2z]. lia.
    + assert (E1 : Qeq_bool t (1 # 1) = true) by (apply Qeq_bool_iff, Ht).
      rewrite E1, (not_one_and_zero _ E1). cbn [Py.b2z]. lia.
Qed.

Lemma combine_snd {A B} (l : list A) (l' : list B) :
  length l = length l' -> map snd (combine l l') = l'.
Proof.
  revert l'. induction l as [|a l IH]; intros [|b l'] H; try discriminate.
  - reflexivity.
  - injection H as H. simpl. f_equal. apply IH, H.
Qed.

Lemma binarize_length probs : length (binarize probs) = length probs.
Proof. apply length_map. Qed.

End Counts.

(** ** The producer *)

Section Producer.

Variable self : criterion.
Variables probs target : list Q.
Variable loss_item : Q.
Variable smp : sample.

(** On a non-empty batch [forward] returns, and its bundle holds the
    cells counted position by position. *)
Lemma forward_nonempty :
  length probs = length target ->
  probs <> [] ->
  forward self probs target loss_item smp
  = Ok (loss_item, forward_sample_size smp target,
        {| loss := Some loss_item;
           nsignals := Some (Py.numel (sample_id smp));
           sample_size := Some (forward_sample_size smp target);
           correct := Some (tp_cell probs target + tn_cell probs target);
           count := Some (Py.numel probs);
           tp := Some (tp_cell probs target);
           fp := Some (fp_cell probs target);
           tn := Some (tn_cell probs target);
           fn := Some (fn_cell probs target);
           y_true := if negb (training self) && report_auc self
                     then Some target else None;
           y_score := if negb (training self) && report_auc self
                      then Some probs else None |}).
Proof.
  intros Hlen Hne. unfold forward.
  rewrite Hlen, Nat.eqb_refl. cbn [negb].
  assert (Hn : (Py.numel probs =? 0) = false).
  { apply Z.eqb_neq. unfold Py.numel. destruct probs; [congruence | cbn; lia]. }
  rewrite Hn.
  assert (Hlen' : length (binarize probs) = length target)
    by (rewrite binarize_length; exact Hlen).
  rewrite !index_where by exact Hlen'.
  rewrite !bsum_select, !numel_select, bsum_eq_elementwise, cnt_correct.
  reflexivity.
Qed.

(** [forward] returns only on a non-empty batch of matching shapes. *)
Lemma forward_ok_inv out :
  forward self probs target loss_item smp = Ok out ->
  length probs = length target /\ probs <> [].
Proof.
  unfold forward.
  destruct (Nat.eqb (length probs) (length target)) eqn:E; cbn [negb].
  - apply Nat.eqb_eq in E. intros H. split; [exact E|].
    intros ->. cbn in H. discriminate H.
  - discriminate.
Qed.

End Producer.

Section SampleSize.

Lemma bsum_count_occ (m : list bool) :
  Py.bsum m = Z.of_nat (count_occ bool_dec m true).
Proof.
  induction m as [|b m IH].
  - reflexivity.
  - rewrite bsum_cons, IH. destruct b; cbn [count_occ Py.b2z].
    + destruct (bool_dec true true); [lia | congruence].
    + destruct (bool_dec false true); [discriminate | lia].
Qed.

(** On a 0/1 target [.long()] is the indicator of the positive label. *)
Lemma long_is01 (t : Q) :
  is01 t -> Py.long t = Py.b2z (Qeq_bool t (1 # 1)).
Proof.
  unfold Py.long. destruct t as [n d]. intros [H | H].
  - assert (E : Qeq_bool (n # d) (1 # 1) = false).
    { destruct (Qeq_bool (n # d) (1 # 1)) eqn:E; [|reflexivity].
      apply not_one_and_zero in E.
      assert (E0 : Qeq_bool (n # d) (0 # 1) = true) by (apply Qeq_bool_iff, H).
      congruence. }
    rewrite E. unfold Qeq in H. cbn in H. cbn [Qnum Qden Py.b2z].
    assert (n = 0) by lia. subst n. reflexivity.
  - assert (E : Qeq_bool (n # d) (1 # 1) = true) by (apply Qeq_bool_iff, H).
    rewrite E. unfold Qeq in H. cbn in H. cbn [Qnum Qden Py.b2z].
    assert (n = Z.pos d) by lia. subst n. apply Z.quot_same. discriminate.
Qed.

Lemma sum_long_is01 (target : list Q) :
  Forall is01 target ->
  Py.sum (map Py.long target)
  = Z.of_nat (length (filter (fun t => Qeq_bool t (1 # 1)) target)).
Proof.
  induction 1 as [|t target Ht _ IH].
  - reflexivity.
  - cbn [map filter]. rewrite sum_cons, IH, (long_is01 Ht).
    destruct (Qeq_bool t (1 # 1)); cbn [Py.b2z length]; lia.
Qed.

End SampleSize.

(** C2: [forward] picks [sample_size] by a fixed precedence: the batch's
    explicit ['sample_size'] if present; else the number of flagged
    positions of [net_input]'s ['mask_indices'] if present; else the sum of
    the targets cast to integers, which for 0/1 targets is the number of
    positive targets.  Whenever [forward] returns, that value is what it
    returns and what it stores in the bundle; it returns on every
    non-empty batch of matching shapes. *)
Theorem forward_sample_size_precedence
    (self : criterion) (probs target : list Q) (loss_item : Q) (smp : sample) :
  let ss := forward_sample_size smp target in
  (forall v, sample_sample_size smp = Some v -> ss = v) /\
  (forall m, sample_sample_size smp = None ->
             sample_mask_indices smp = Some m ->
             ss = Z.of_nat (count_occ bool_dec m true)) /\
  (sample_sample_size smp = None ->
   sample_mask_indices smp = None ->
   ss = Py.sum (map Py.long target) /\
   (Forall is01 target ->
    ss = Z.of_nat (length (filter (fun t => Qeq_bool t (1 # 1)) target)))) /\
  (forall l n log,
     forward self probs target loss_item smp = Ok (l, n, log) ->
     n = ss /\ sample_size log = Some ss) /\
  (length probs = length target -> probs <> [] ->
   exists log, forward self probs target loss_item smp = Ok (loss_item, ss, log)).
Proof.
  intros ss. subst ss.
  split; [|split; [|split; [|split]]].
  - intros v Hv. unfold forward_sample_size. rewrite Hv. reflexivity.
  - intros m Hs Hm. unfold forward_sample_size. rewrite Hs, Hm.
    apply bsum_count_occ.
  - intros Hs Hm. unfold forward_sample_size. rewrite Hs, Hm.
    split; [reflexivity | apply sum_long_is01].
  - intros l n log H.
    destruct (@forward_ok_inv _ _ _ _ _ _ H) as [Hlen Hne].
    rewrite (@forward_nonempty self probs target loss_item smp Hlen Hne) in H.
    injection H as _ <- <-. split; reflexivity.
  - intros Hlen Hne. eexists. apply forward_nonempty; assumption.
Qed.

(** The example of the fallback: targets [1, 1, 0, 0] with neither an
    explicit sample size nor a mask give [sample_size = 2]. *)
Lemma forward_sample_size_precedence_witness :
  exists log,
    forward ex_crit [9 # 10; 2 # 10; 6 # 10; 1 # 10] [1 # 1; 1 # 1; 0 # 1; 0 # 1]
            (1 # 2) ex_smp
    = Ok (1 # 2, 2, log) /\ sample_size log = Some 2.
Proof.
  destruct (@forward_sample_size_precedence ex_crit
              [9 # 10; 2 # 10; 6 # 10; 1 # 10] [1 # 1; 1 # 1; 0 # 1; 0 # 1]
              (1 # 2) ex_smp)
    as (_ & _ & Hsum & Hret & Hrun).
  destruct (Hrun eq_refl ltac:(discriminate)) as [log Hlog].
  destruct (Hret _ _ _ Hlog) as [_ Hstored].
  destruct (Hsum eq_refl eq_refl) as [Hss _].
  exists log. rewrite Hlog, Hstored, Hss. split; reflexivity.
Defined.

(** [correct == tp + tn] holds for every bundle [forward] produces,
    whatever the targets. *)
Lemma forward_correct_cells
    (self : criterion) (probs target : list Q) (loss_item : Q) (smp : sample)
    (out : Q * Z * logging_output) :
  forward self probs target loss_item smp = Ok out ->
  let log := snd out in
  correct log = Some (tp_cell probs target + tn_cell probs target) /\
  count log = Some (Py.numel probs) /\
  tp log = Some (tp_cell probs target) /\
  fp log = Some (fp_cell probs target) /\
  tn log = Some (tn_cell probs target) /\
  fn log = Some (fn_cell probs target).
Proof.
  intros H. destruct (@forward_ok_inv _ _ _ _ _ _ H) as [Hlen Hne].
  rewrite (@forward_nonempty self probs target loss_item smp Hlen Hne) in H.
  injection H as <-. cbn. repeat split.
Qed.

(** C3 (amended): every bundle [forward] produces has
    [correct == tp + tn]; when every target is exactly 0 or 1 it also has
    [count == tp + fp + tn + fn]. *)
Theorem forward_confusion_invariant
    (self : criterion) (probs target : list Q) (loss_item : Q) (smp : sample)
    (out : Q * Z * logging_output) :
  forward self probs target loss_item smp = Ok out ->
  let log := snd out in
  Py.get0 (correct log) = Py.get0 (tp log) + Py.get0 (tn log) /\
  (Forall is01 target ->
   Py.get0 (count log)
   = Py.get0 (tp log) + Py.get0 (fp log) + Py.get0 (tn log) + Py.get0 (fn log)).
Proof.
  intros H log.
  destruct (@forward_ok_inv _ _ _ _ _ _ H) as [Hlen Hne].
  destruct (@forward_correct_cells _ _ _ _ _ _ H) as (Hc & Hn & Htp & Hfp & Htn & Hfn).
  fold log in Hc, Hn, Htp, Hfp, Htn, Hfn.
  rewrite Hc, Hn, Htp, Hfp, Htn, Hfn. cbn [Py.get0].
  split; [reflexivity|].
  intros Hb.
  assert (Hpart := @cnt_partition (positions probs target)).
  unfold positions in Hpart at 1.
  rewrite combine_snd in Hpart by (rewrite binarize_length; exact Hlen).
  specialize (Hpart Hb).
  unfold positions in Hpart at 3.
  rewrite length_combine, binarize_length, <- Hlen, Nat.min_id in Hpart.
  unfold fn_cell, tn_cell, Py.numel. lia.
Qed.

Lemma forward_confusion_invariant_witness :
  Py.get0 (Some 4) = Py.get0 (Some 2) + Py.get0 (Some 2) /\
  (Forall is01 [1 # 1; 0 # 1; 1 # 1; 0 # 1] ->
   Py.get0 (Some 4)
   = Py.get0 (Some 2) + Py.get0 (Some 0) + Py.get0 (Some 2) + Py.get0 (Some 0)).
Proof.
  apply (@forward_confusion_invariant ex_crit
           [9 # 10; 2 # 10; 6 # 10; 1 # 10] [1 # 1; 0 # 1; 1 # 1; 0 # 1]
           (1 # 2) ex_smp
           (1 # 2, 2, bundle (1 # 2) 4 2 4 4 2 0 2 0)).
  reflexivity.
Defined.

(** C3 as stated fails on a soft target: with score 0.9 and target 0.5
    the bundle has [count = 1] while all four cells are 0. *)
Lemma forward_soft_target_breaks_total :
  exists log,
    forward ex_crit [9 # 10] [1 # 2] (1 # 2) ex_smp = Ok (1 # 2, 0, log) /\
    0 < Py.get0 (count log) /\
    Py.get0 (count log)
    <> Py.get0 (tp log) + Py.get0 (fp log) + Py.get0 (tn log) + Py.get0 (fn log).
Proof.
  eexists. split; [reflexivity|]. cbn. split; [reflexivity | discriminate].
Qed.

(** C4, at the empty batch: the zero statistics of the empty branch are
    Python ints, and [tp.item()] on line 102 raises [AttributeError]
    instead of yielding the all-zero bundle; the empty batch is the only
    one on which [forward] fails this way. *)
Theorem forward_empty_batch_raises
    (self : criterion) (probs target : list Q) (loss_item : Q) (smp : sample) :
  forward self probs target loss_item smp = Raise AttributeError
  <-> probs = [] /\ target = [].
Proof.
  split.
  - intros H.
    destruct (Nat.eqb (length probs) (length target)) eqn:E.
    + apply Nat.eqb_eq in E. destruct probs as [|p probs].
      * destruct target; [auto | discriminate E].
      * rewrite (@forward_nonempty self (p :: probs) target loss_item smp E)
          in H by discriminate.
        discriminate H.
    + unfold forward in H. rewrite E in H. discriminate H.
  - intros [-> ->]. reflexivity.
Qed.

(** The spec's example batch: scores [0.9, 0.2, 0.6, 0.1] and targets
    [1, 0, 1, 0] give [tp = 2, fp = 0, tn = 2, fn = 0]. *)
Example forward_spec_example :
  forward ex_crit [9 # 10; 2 # 10; 6 # 10; 1 # 10] [1 # 1; 0 # 1; 1 # 1; 0 # 1]
          (1 # 2) ex_smp
  = Ok (1 # 2, 2,
        {| loss := Some (1 # 2); nsignals := Some 4; sample_size := Some 2;
           correct := Some 4; count := Some 4;
           tp := Some 2; fp := Some 0; tn := Some 2; fn := Some 0;
           y_true := None; y_score := None |}).
Proof. reflexivity. Qed.

(** ** The reducer, event by event *)

Section ReducerEvents.

Lemma or1_nonzero (x : Z) : Py.or1 x <> 0.
Proof. unfold Py.or1. destruct (x =? 0) eqn:E; [lia | apply Z.eqb_neq, E]. Qed.

(** The normalisation of the loss never divides by zero. *)
Lemma loss_value_ok (ls : Q) (ss : Z) :
  loss_value ls ss = Ok (ls / inject_Z (Py.or1 ss) / math_log_2)%Q.
Proof.
  unfold loss_value, Py.div.
  assert (E : Qeq_bool (inject_Z (Py.or1 ss)) (0 # 1) = false).
  { destruct (Qeq_bool (inject_Z (Py.or1 ss)) (0 # 1)) eqn:E; [|reflexivity].
    apply Qeq_bool_iff in E. unfold Qeq, inject_Z in E. cbn in E.
    pose proof (or1_nonzero ss). lia. }
  rewrite E. reflexivity.
Qed.

Lemma concat_arrays_all (field : logging_output -> option (list Q)) logs :
  Forall (fun log => has (field log) = true) logs ->
  concat_arrays (map (fun log => get_array (field log)) logs)
  = Ok (concat_field field logs).
Proof.
  induction 1 as [|log logs Hlog _ IH].
  - reflexivity.
  - cbn [map concat_arrays]. unfold concat_field. cbn [map concat].
    destruct (field log) as [a|]; [|discriminate Hlog].
    cbn [get_array]. rewrite IH. reflexivity.
Qed.

Lemma concat_arrays_missing (field : logging_output -> option (list Q)) logs :
  Exists (fun log => has (field log) = false) logs ->
  concat_arrays (map (fun log => get_array (field log)) logs)
  = Raise (ValueError ZeroDimensional).
Proof.
  induction 1 as [log logs Hlog | log logs _ IH].
  - cbn [map concat_arrays]. destruct (field log); [discriminate Hlog | reflexivity].
  - cbn [map concat_arrays]. destruct (field log); [|reflexivity].
    cbn [get_array]. rewrite IH. reflexivity.
Qed.

Lemma np_concatenate_cons (field : logging_output -> option (list Q)) log logs :
  np_concatenate (map (fun log => get_array (field log)) (log :: logs))
  = concat_arrays (map (fun log => get_array (field log)) (log :: logs)).
Proof. reflexivity. Qed.

Lemma Forall_carries_fields logs :
  Forall (fun log => carries log = true) logs ->
  Forall (fun log => has (y_true log) = true) logs /\
  Forall (fun log => has (y_score log) = true) logs.
Proof.
  intros H. split; eapply Forall_impl; try exact H;
    intros log Hc; apply andb_prop in Hc; tauto.
Qed.

Lemma not_all_carry_missing logs :
  ~ Forall (fun log => carries log = true) logs ->
  Exists (fun log => has (y_true log) = false) logs \/
  Exists (fun log => has (y_score log) = false) logs.
Proof.
  induction logs as [|log logs IH]; intros Hn.
  - exfalso. apply Hn. constructor.
  - destruct (has (y_true log)) eqn:Et.
    + destruct (has (y_score log)) eqn:Es.
      * destruct IH as [IH | IH].
        { intros Hall. apply Hn. constructor; [|exact Hall].
          unfold carries. rewrite Et, Es. reflexivity. }
        { left. apply Exists_cons_tl, IH. }
        { right. apply Exists_cons_tl, IH. }
      * right. apply Exists_cons_hd, Es.
    + left. apply Exists_cons_hd, Et.
Qed.

Lemma reduce_auc_empty s : reduce_auc [] s = (s, Raise IndexError).
Proof. reflexivity. Qed.

Lemma reduce_auc_skip log logs s :
  carries log = false -> reduce_auc (log :: logs) s = (s, Ok tt).
Proof.
  intros Hc. unfold reduce_auc, bind, lift. cbn [getitem0].
  fold (carries log). rewrite Hc. reflexivity.
Qed.

Lemma reduce_auc_all log logs s :
  Forall (fun log => carries log = true) (log :: logs) ->
  reduce_auc (log :: logs) s = (s ++ auc_events (log :: logs), Ok tt).
Proof.
  intros Hall. destruct (Forall_carries_fields Hall) as [Ht Hs].
  assert (Hc : carries log = true) by (inversion Hall; assumption).
  unfold reduce_auc, bind, lift. cbn [getitem0].
  fold (carries log). rewrite Hc.
  rewrite !np_concatenate_cons.
  rewrite (concat_arrays_all y_true Ht), (concat_arrays_all y_score Hs).
  unfold auc_events, log_custom, log_derived, emit, ret.
  destruct (0 <? Z.of_nat (length (concat_field y_true (log :: logs)))).
  - rewrite <- !app_assoc. reflexivity.
  - reflexivity.
Qed.

Lemma reduce_auc_mixed log logs s :
  carries log = true ->
  ~ Forall (fun log => carries log = true) (log :: logs) ->
  reduce_auc (log :: logs) s = (s, Raise (ValueError ZeroDimensional)).
Proof.
  intros Hc Hn. unfold reduce_auc, bind, lift. cbn [getitem0].
  fold (carries log). rewrite Hc.
  rewrite !np_concatenate_cons.
  destruct (Forall_Exists_dec (fun l => has (y_true l) = true)
              (fun l => bool_dec (has (y_true l)) true) (log :: logs)) as [Ht | Ht].
  - rewrite (concat_arrays_all y_true Ht).
    destruct (not_all_carry_missing Hn) as [He | He].
    + exfalso. apply Exists_exists in He. destruct He as (l & Hin & Hl).
      rewrite Forall_forall in Ht. rewrite (Ht l Hin) in Hl. discriminate.
    + rewrite (concat_arrays_missing y_score He). reflexivity.
  - rewrite concat_arrays_missing; [reflexivity|].
    eapply Exists_impl; [|exact Ht]. intros l Hl. cbn in Hl.
    destruct (has (y_true l)); congruence.
Qed.

(** [reduce_metrics] is: the loss, the AUC step, the counts, the ratios;
    an exception in the AUC step ends it. *)
Lemma reduce_metrics_steps logs s :
  reduce_metrics logs s
  = match reduce_auc logs (s ++ [loss_event logs]) with
    | (s', Ok _) => (s' ++ count_events logs ++ ratio_events logs, Ok tt)
    | (s', Raise e) => (s', Raise e)
    end.
Proof.
  unfold reduce_metrics. unfold bind at 1. unfold lift at 1.
  rewrite loss_value_ok.
  unfold bind at 1. unfold log_scalar at 1. unfold emit at 1.
  unfold bind at 1. fold (loss_event logs).
  destruct (reduce_auc logs (s ++ [loss_event logs])) as [s' [[]|e]]; [|reflexivity].
  unfold count_events, ratio_events, bind, log_scalar, log_derived, emit, ret.
  destruct (0 <? sum_of count logs); rewrite <- !app_assoc; reflexivity.
Qed.

(** The four ways a reporting interval can go. *)
Lemma run_empty : run [] = ([loss_event []], Raise IndexError).
Proof. unfold run. rewrite reduce_metrics_steps. reflexivity. Qed.

Lemma run_skip log logs :
  carries log = false ->
  run (log :: logs)
  = (loss_event (log :: logs)
       :: count_events (log :: logs) ++ ratio_events (log :: logs), Ok tt).
Proof.
  intros Hc. unfold run. rewrite reduce_metrics_steps, reduce_auc_skip by exact Hc.
  reflexivity.
Qed.

Lemma run_all log logs :
  Forall (fun log => carries log = true) (log :: logs) ->
  run (log :: logs)
  = (loss_event (log :: logs)
       :: auc_events (log :: logs)
       ++ count_events (log :: logs) ++ ratio_events (log :: logs), Ok tt).
Proof.
  intros Hall. unfold run. rewrite reduce_metrics_steps, reduce_auc_all by exact Hall.
  reflexivity.
Qed.

Lemma run_mixed log logs :
  carries log = true ->
  ~ Forall (fun log => carries log = true) (log :: logs) ->
  run (log :: logs)
  = ([loss_event (log :: logs)], Raise (ValueError ZeroDimensional)).
Proof.
  intros Hc Hn. unfold run.
  rewrite reduce_metrics_steps, reduce_auc_mixed by assumption. reflexivity.
Qed.

End ReducerEvents.

(** ** Reading a reporting interval back from the sink *)

Section Rounding.

Lemma round_half_even_proper (x y : Q) :
  (x == y)%Q -> round_half_even x = round_half_even y.
Proof.
  intros H. unfold round_half_even.
  rewrite (Qfloor_comp _ _ H).
  assert (Hc : (x - inject_Z (Qfloor y) ?= 1 # 2)%Q
               = (y - inject_Z (Qfloor y) ?= 1 # 2)%Q).
  { apply Qcompare_comp; [rewrite H|]; reflexivity. }
  rewrite Hc. reflexivity.
Qed.

Lemma safe_round_proper (x y : Q) (n : nat) :
  (x == y)%Q -> safe_round x n = safe_round y n.
Proof.
  intros H. unfold safe_round. f_equal.
  apply round_half_even_proper. rewrite H. reflexivity.
Qed.

(** 4/5 and 4/6 rounded to 5 decimals. *)
Example safe_round_values :
  safe_round (4 # 5) 5 = 80000 # 100000 /\ safe_round (4 # 6) 5 = 66667 # 100000.
Proof. split; reflexivity. Qed.

End Rounding.

Section SinkFacts.

Lemma scalars_of_app key ev ev' :
  scalars_of key (ev ++ ev') = scalars_of key ev ++ scalars_of key ev'.
Proof.
  induction ev as [|e ev IH]; [reflexivity|].
  destruct e as [k v w r | k ys yt | k f]; cbn [app scalars_of]; try exact IH.
  destruct (String.eqb k key); [cbn [app]; f_equal|]; exact IH.
Qed.

Lemma derived_of_app key ev ev' :
  derived_of key (ev ++ ev')
  = match derived_of key ev' with
    | Some f => Some f
    | None => derived_of key ev
    end.
Proof.
  induction ev as [|e ev IH]; cbn [app derived_of].
  - destruct (derived_of key ev'); reflexivity.
  - destruct e as [k v w r | k ys yt | k f]; try exact IH.
    rewrite IH. destruct (derived_of key ev'); reflexivity.
Qed.

Lemma customs_of_app_none key ev ev' :
  customs_of key ev' = None ->
  customs_of key (ev ++ ev') = customs_of key ev.
Proof.
  intros H. induction ev as [|e ev IH]; cbn [app customs_of]; [exact H|].
  destruct e as [k v w r | k ys yt | k f]; try exact IH.
  rewrite IH. reflexivity.
Qed.

Lemma scalars_of_auc key logs : scalars_of key (auc_events logs) = [].
Proof.
  unfold auc_events.
  destruct (0 <? Z.of_nat (length (concat_field y_true logs))); reflexivity.
Qed.

Lemma scalars_of_ratio key logs : scalars_of key (ratio_events logs) = [].
Proof. unfold ratio_events. destruct (0 <? sum_of count logs); reflexivity. Qed.

Lemma run_ok_inv logs :
  snd (run logs) = Ok tt ->
  logs <> [] /\
  ((exists log rest, logs = log :: rest /\ carries log = false /\
                     fst (run logs) = complete logs []) \/
   (Forall (fun log => carries log = true) logs /\
    fst (run logs) = complete logs (auc_events logs))).
Proof.
  destruct logs as [|log rest].
  - rewrite run_empty. discriminate.
  - intros H. split; [discriminate|].
    destruct (carries log) eqn:Hc.
    + destruct (Forall_dec (fun l => carries l = true)
                  (fun l => bool_dec (carries l) true) (log :: rest)) as [Hall | Hn].
      * right. split; [exact Hall|]. rewrite (run_all Hall). reflexivity.
      * rewrite (@run_mixed log rest Hc Hn) in H. discriminate.
    + left. exists log, rest. rewrite (@run_skip log rest Hc). auto.
Qed.

(** After a complete interval each count meter holds its summed field. *)
Lemma scalars_of_complete key logs auc :
  (auc = [] \/ auc = auc_events logs) ->
  scalars_of key (complete logs auc)
  = scalars_of key [loss_event logs] ++ scalars_of key (count_events logs).
Proof.
  intros Hauc. unfold complete.
  change (loss_event logs :: auc ++ count_events logs ++ ratio_events logs)
    with ([loss_event logs] ++ auc ++ count_events logs ++ ratio_events logs).
  rewrite !scalars_of_app, scalars_of_ratio, app_nil_r.
  destruct Hauc as [-> | ->]; [|rewrite scalars_of_auc]; reflexivity.
Qed.

Lemma sumQ_single (z : Z) : (Py.sumQ [inject_Z z * inject_Z 1] == inject_Z z)%Q.
Proof. unfold Py.sumQ. cbn [fold_left]. ring. Qed.

Lemma scalar_sum_complete key logs auc z :
  (auc = [] \/ auc = auc_events logs) ->
  sum_of_key key logs = Some z ->
  scalar_sum (complete logs auc) key = Ok (Py.sumQ [inject_Z z * inject_Z 1]%Q).
Proof.
  intros Hauc Hk. unfold scalar_sum. rewrite (@scalars_of_complete key logs auc Hauc).
  unfold sum_of_key in Hk. unfold loss_event, count_events. cbn [scalars_of app].
  destruct (String.eqb key "_correct") eqn:E1;
    [apply String.eqb_eq in E1; subst key; injection Hk as <-; reflexivity|].
  destruct (String.eqb key "_total") eqn:E2;
    [apply String.eqb_eq in E2; subst key; injection Hk as <-; reflexivity|].
  destruct (String.eqb key "_tp") eqn:E3;
    [apply String.eqb_eq in E3; subst key; injection Hk as <-; reflexivity|].
  destruct (String.eqb key "_fp") eqn:E4;
    [apply String.eqb_eq in E4; subst key; injection Hk as <-; reflexivity|].
  destruct (String.eqb key "_tn") eqn:E5;
    [apply String.eqb_eq in E5; subst key; injection Hk as <-; reflexivity|].
  destruct (String.eqb key "_fn") eqn:E6;
    [apply String.eqb_eq in E6; subst key; injection Hk as <-; reflexivity|].
  destruct (String.eqb key "nsignals") eqn:E7;
    [apply String.eqb_eq in E7; subst key; injection Hk as <-; reflexivity|].
  discriminate.
Qed.

End SinkFacts.

Section DerivedFacts.

Variables auroc auprc : list Q -> list Q -> pyfloat.

Lemma Qle_bool_inject (z : Z) : Qle_bool (inject_Z z) (0 # 1) = (z <=? 0).
Proof. unfold Qle_bool, inject_Z. cbn [Qnum Qden]. f_equal; lia. Qed.

Lemma Qeq_bool_inject (z : Z) : Qeq_bool (inject_Z z) (0 # 1) = (z =? 0).
Proof.
  destruct (Qeq_bool (inject_Z z) (0 # 1)) eqn:E; destruct (z =? 0) eqn:E';
    try reflexivity.
  - apply Qeq_bool_iff in E. unfold Qeq, inject_Z in E. cbn in E.
    apply Z.eqb_neq in E'. lia.
  - apply Z.eqb_eq in E'. subst z. discriminate E.
Qed.

(** The shape shared by the three lambdas, on meters holding integers. *)
Lemma guarded_ratio (n d : Q) (num den : Z) :
  (n == inject_Z num)%Q ->
  (d == inject_Z den)%Q ->
  (if negb (Qle_bool d (0 # 1))
   then (r <- Py.div n d ;; Ok (Num (safe_round r 5)))%result
   else Ok NaN)
  = Ok (ratio num den).
Proof.
  intros Hn Hd. unfold ratio.
  rewrite (Qleb_comp _ _ Hd _ _ (Qeq_refl _)), Qle_bool_inject.
  destruct (0 <? den) eqn:E.
  - apply Z.ltb_lt in E.
    replace (den <=? 0) with false by (symmetry; apply Z.leb_gt; exact E).
    cbn [negb]. unfold Py.div.
    rewrite (Qeqb_comp _ _ Hd _ _ (Qeq_refl _)), Qeq_bool_inject.
    replace (den =? 0) with false by (symmetry; apply Z.eqb_neq; lia).
    cbn [bind_result]. do 2 f_equal.
    apply safe_round_proper. rewrite Hn, Hd. reflexivity.
  - apply Z.ltb_ge in E.
    replace (den <=? 0) with true by (symmetry; apply Z.leb_le; exact E).
    reflexivity.
Qed.

Variable logs : list logging_output.
Variable auc : list event.
Hypothesis Hauc : auc = [] \/ auc = auc_events logs.

Lemma meter_sum_complete key z :
  sum_of_key key logs = Some z ->
  meter_sum (meters_of auroc auprc (complete logs auc)) key
  = Ok (Py.sumQ [inject_Z z * inject_Z 1]%Q).
Proof. intros Hk. apply scalar_sum_complete; assumption. Qed.

Lemma accuracy_fn_complete :
  accuracy_fn (meters_of auroc auprc (complete logs auc))
  = Ok (ratio (sum_of correct logs) (sum_of count logs)).
Proof.
  unfold accuracy_fn.
  rewrite (@meter_sum_complete "_total" _ eq_refl),
          (@meter_sum_complete "_correct" _ eq_refl).
  cbn [bind_result]. apply guarded_ratio; apply sumQ_single.
Qed.

Lemma precision_fn_complete :
  precision_fn (meters_of auroc auprc (complete logs auc))
  = Ok (ratio (sum_of tp logs) (sum_of tp logs + sum_of fp logs)).
Proof.
  unfold precision_fn.
  rewrite (@meter_sum_complete "_tp" _ eq_refl),
          (@meter_sum_complete "_fp" _ eq_refl).
  cbn [bind_result]. apply guarded_ratio.
  - apply sumQ_single.
  - rewrite !sumQ_single, inject_Z_plus. reflexivity.
Qed.

Lemma recall_fn_complete :
  recall_fn (meters_of auroc auprc (complete logs auc))
  = Ok (ratio (sum_of tp logs) (sum_of tp logs + sum_of fn logs)).
Proof.
  unfold recall_fn.
  rewrite (@meter_sum_complete "_tp" _ eq_refl),
          (@meter_sum_complete "_fn" _ eq_refl).
  cbn [bind_result]. apply guarded_ratio.
  - apply sumQ_single.
  - rewrite !sumQ_single, inject_Z_plus. reflexivity.
Qed.

(** Which derived metrics a complete interval registers. *)
Lemma derived_of_complete key :
  derived_of key (complete logs auc)
  = match derived_of key (ratio_events logs) with
    | Some f => Some f
    | None => derived_of key auc
    end.
Proof.
  unfold complete.
  change (loss_event logs :: auc ++ count_events logs ++ ratio_events logs)
    with ([loss_event logs] ++ auc ++ count_events logs ++ ratio_events logs).
  rewrite !derived_of_app.
  destruct (derived_of key (ratio_events logs)); [reflexivity|].
  cbn. destruct (derived_of key auc); reflexivity.
Qed.

Lemma derived_of_auc_ratio key :
  key = "accuracy" \/ key = "precision" \/ key = "recall" ->
  derived_of key auc = None.
Proof.
  intros Hk. destruct Hauc as [-> | ->]; [reflexivity|].
  unfold auc_events.
  destruct (0 <? Z.of_nat (length (concat_field y_true logs)));
    destruct Hk as [-> | [-> | ->]]; reflexivity.
Qed.

Lemma read_accuracy_complete :
  read_derived auroc auprc (complete logs auc) "accuracy"
  = if 0 <? sum_of count logs
    then Some (Ok (ratio (sum_of correct logs) (sum_of count logs)))
    else None.
Proof.
  unfold read_derived. rewrite derived_of_complete.
  rewrite derived_of_auc_ratio by auto.
  unfold ratio_events. destruct (0 <? sum_of count logs); [|reflexivity].
  cbn [derived_of String.eqb Ascii.eqb Bool.eqb].
  rewrite accuracy_fn_complete. reflexivity.
Qed.

Lemma read_precision_complete :
  read_derived auroc auprc (complete logs auc) "precision"
  = if 0 <? sum_of count logs
    then Some (Ok (ratio (sum_of tp logs) (sum_of tp logs + sum_of fp logs)))
    else None.
Proof.
  unfold read_derived. rewrite derived_of_complete.
  rewrite derived_of_auc_ratio by auto.
  unfold ratio_events. destruct (0 <? sum_of count logs); [|reflexivity].
  cbn [derived_of String.eqb Ascii.eqb Bool.eqb].
  rewrite precision_fn_complete. reflexivity.
Qed.

Lemma read_recall_complete :
  read_derived auroc auprc (complete logs auc) "recall"
  = if 0 <? sum_of count logs
    then Some (Ok (ratio (sum_of tp logs) (sum_of tp logs + sum_of fn logs)))
    else None.
Proof.
  unfold read_derived. rewrite derived_of_complete.
  rewrite derived_of_auc_ratio by auto.
  unfold ratio_events. destruct (0 <? sum_of count logs); [|reflexivity].
  cbn [derived_of String.eqb Ascii.eqb Bool.eqb].
  rewrite recall_fn_complete. reflexivity.
Qed.

End DerivedFacts.

(** ** The reducer's claims *)

(** C8: [logging_outputs_can_be_summed()] answers [False] on every call:
    the bundles are declared not summable ahead of [reduce_metrics]. *)
Theorem logging_outputs_never_summable (u : unit) :
  logging_outputs_can_be_summed u = false.
Proof. reflexivity. Qed.

(** C9: [reduce_metrics] raises [IndexError] exactly on the empty
    sequence.  There the loss scalar (0, with weight 0) has already been
    logged, and none of the counts or ratios is. *)
Theorem reduce_metrics_index_error (logs : list logging_output) :
  (snd (run logs) = Raise IndexError <-> logs = []) /\
  run [] = ([LogScalar "loss" ((0 # 1) / inject_Z 1 / math_log_2)%Q 0 (Some 3%nat)],
            Raise IndexError).
Proof.
  split; [|reflexivity]. split.
  - destruct logs as [|log rest]; [reflexivity|]. intros H.
    destruct (carries log) eqn:Hc.
    + destruct (Forall_dec (fun l => carries l = true)
                  (fun l => bool_dec (carries l) true) (log :: rest)) as [Hall | Hn].
      * rewrite (run_all Hall) in H. discriminate H.
      * rewrite (@run_mixed log rest Hc Hn) in H. discriminate H.
    + rewrite (@run_skip log rest Hc) in H. discriminate H.
  - intros ->. reflexivity.
Qed.

(** The first thing every interval logs is the loss. *)
Lemma run_loss_first (logs : list logging_output) :
  exists rest, fst (run logs) = loss_event logs :: rest /\ scalars_of "loss" rest = [].
Proof.
  destruct logs as [|log rest].
  - rewrite run_empty. exists []. split; reflexivity.
  - destruct (carries log) eqn:Hc.
    + destruct (Forall_dec (fun l => carries l = true)
                  (fun l => bool_dec (carries l) true) (log :: rest)) as [Hall | Hn].
      * rewrite (run_all Hall). eexists. split; [reflexivity|].
        rewrite !scalars_of_app, scalars_of_auc, scalars_of_ratio. reflexivity.
      * rewrite (@run_mixed log rest Hc Hn). exists []. split; reflexivity.
    + rewrite (@run_skip log rest Hc). eexists. split; [reflexivity|].
      rewrite !scalars_of_app, scalars_of_ratio. reflexivity.
Qed.

(** C6 (amended): on every sequence the reducer logs the loss exactly
    once, as the summed loss divided by the summed sample size -- by 1 when
    that sum is zero -- and then by [math.log(2)], with [round = 3] and the
    summed sample size as weight.  For a non-negative sum the divisor is
    [max(sample_size_sum, 1)]. *)
Theorem reduce_metrics_reports_loss (logs : list logging_output) :
  let ss := sum_of sample_size logs in
  exists rest,
    fst (run logs)
    = LogScalar "loss"
        (loss_sum logs / inject_Z (if ss =? 0 then 1 else ss) / math_log_2)%Q
        ss (Some 3%nat) :: rest /\
    scalars_of "loss" rest = [] /\
    (0 <= ss -> (if ss =? 0 then 1 else ss) = Z.max ss 1).
Proof.
  intros ss. destruct (run_loss_first logs) as (rest & Hrun & Hrest).
  exists rest. split; [exact Hrun|]. split; [exact Hrest|].
  intros Hss. destruct (ss =? 0) eqn:E.
  - apply Z.eqb_eq in E. lia.
  - apply Z.eqb_neq in E. lia.
Qed.

(** C6 as stated fails on a negative sample-size sum: with loss 1 and
    sample size -2 the logged value is [1 / -2 / log 2], not
    [1 / max(-2, 1) / log 2]. *)
Lemma negative_sample_size_divides_loss :
  exists v rest,
    fst (run [bundle (1 # 1) 1 (-2) 0 1 0 0 0 0])
    = LogScalar "loss" v (-2) (Some 3%nat) :: rest /\
    ~ (v == (1 # 1) / inject_Z (Z.max (-2) 1) / math_log_2)%Q.
Proof.
  eexists. eexists. split; [reflexivity|].
  intros H. vm_compute in H. discriminate H.
Qed.

Section AucFacts.

Variables auroc auprc : list Q -> list Q -> pyfloat.
Variable logs : list logging_output.

Lemma customs_of_counts_ratios key :
  customs_of key (count_events logs ++ ratio_events logs) = None.
Proof.
  unfold ratio_events. destruct (0 <? sum_of count logs); reflexivity.
Qed.

Lemma derived_of_ratio_auc key :
  key = "auroc" \/ key = "auprc" ->
  derived_of key (ratio_events logs) = None.
Proof.
  intros Hk. unfold ratio_events.
  destruct (0 <? sum_of count logs); destruct Hk as [-> | ->]; reflexivity.
Qed.

Lemma nonempty_ltb {A} (l : list A) :
  (0 <? Z.of_nat (length l)) = true <-> l <> [].
Proof.
  destruct l as [|a l].
  - split; [discriminate | congruence].
  - split; [discriminate | reflexivity].
Qed.

Lemma customs_of_complete_none :
  customs_of "_auc" (complete logs []) = None.
Proof. unfold complete. cbn [app customs_of loss_event]. apply customs_of_counts_ratios. Qed.

Lemma customs_of_complete_auc :
  customs_of "_auc" (complete logs (auc_events logs))
  = Some (concat_field y_score logs, concat_field y_true logs).
Proof.
  unfold complete. cbn [customs_of loss_event].
  rewrite customs_of_app_none by apply customs_of_counts_ratios.
  unfold auc_events.
  destruct (0 <? Z.of_nat (length (concat_field y_true logs))); reflexivity.
Qed.

Lemma read_auc_complete_none key :
  key = "auroc" \/ key = "auprc" ->
  read_derived auroc auprc (complete logs []) key = None.
Proof.
  intros Hk. unfold read_derived.
  rewrite derived_of_complete, (derived_of_ratio_auc Hk). reflexivity.
Qed.

Lemma read_auroc_complete :
  read_derived auroc auprc (complete logs (auc_events logs)) "auroc"
  = if 0 <? Z.of_nat (length (concat_field y_true logs))
    then Some (Ok (safe_round_float
                     (auroc (concat_field y_score logs) (concat_field y_true logs)) 3))
    else None.
Proof.
  unfold read_derived.
  rewrite derived_of_complete, derived_of_ratio_auc by auto.
  unfold auc_events at 1.
  destruct (0 <? Z.of_nat (length (concat_field y_true logs))); [|reflexivity].
  cbn [derived_of String.eqb Ascii.eqb Bool.eqb].
  unfold auroc_fn. cbn [meter_auroc meters_of].
  rewrite customs_of_complete_auc. reflexivity.
Qed.

Lemma read_auprc_complete :
  read_derived auroc auprc (complete logs (auc_events logs)) "auprc"
  = if 0 <? Z.of_nat (length (concat_field y_true logs))
    then Some (Ok (safe_round_float
                     (auprc (concat_field y_score logs) (concat_field y_true logs)) 3))
    else None.
Proof.
  unfold read_derived.
  rewrite derived_of_complete, derived_of_ratio_auc by auto.
  unfold auc_events at 1.
  destruct (0 <? Z.of_nat (length (concat_field y_true logs))); [|reflexivity].
  cbn [derived_of String.eqb Ascii.eqb Bool.eqb].
  unfold auprc_fn. cbn [meter_auprc meters_of].
  rewrite customs_of_complete_auc. reflexivity.
Qed.

End AucFacts.

Lemma interval_cases (logs : list logging_output) :
  logs <> [] -> interval_case logs.
Proof.
  destruct logs as [|log rest]; [congruence|]. intros _.
  destruct (carries log) eqn:Hc.
  - destruct (Forall_dec (fun l => carries l = true)
                (fun l => bool_dec (carries l) true) (log :: rest)) as [Hall | Hn].
    + apply case_all; [exact Hall | apply run_all, Hall].
    + eapply case_mixed; eauto. apply run_mixed; assumption.
  - eapply case_skip; eauto. apply run_skip; assumption.
Qed.

(** C7 (amended): on a non-empty sequence the AUC meter is fed exactly
    when every entry carries raw targets and raw scores, and then with
    their concatenations in entry order; when no entry carries them the
    reducer completes without any AUC metric; [auroc] and [auprc] are
    registered exactly when moreover the concatenated targets are
    non-empty, each rounding the meter's area to 3 decimals, and are absent
    otherwise. *)
Theorem reduce_metrics_auc
    (auroc auprc : list Q -> list Q -> pyfloat) (logs : list logging_output) :
  logs <> [] ->
  let ev := fst (run logs) in
  let all_carry := Forall (fun log => carries log = true) logs in
  let scores := concat_field y_score logs in
  let targets := concat_field y_true logs in
  (customs_of "_auc" ev <> None <-> all_carry) /\
  (all_carry ->
   snd (run logs) = Ok tt /\ customs_of "_auc" ev = Some (scores, targets)) /\
  (Forall (fun log => carries log = false) logs ->
   snd (run logs) = Ok tt /\ customs_of "_auc" ev = None /\
   read_derived auroc auprc ev "auroc" = None /\
   read_derived auroc auprc ev "auprc" = None) /\
  (read_derived auroc auprc ev "auroc" <> None <-> all_carry /\ targets <> []) /\
  (read_derived auroc auprc ev "auprc" <> None <-> all_carry /\ targets <> []) /\
  (all_carry -> targets <> [] ->
   read_derived auroc auprc ev "auroc"
   = Some (Ok (safe_round_float (auroc scores targets) 3)) /\
   read_derived auroc auprc ev "auprc"
   = Some (Ok (safe_round_float (auprc scores targets) 3))).
Proof.
  intros Hne ev all_carry scores targets. subst ev.
  destruct (interval_cases Hne) as [log rest Hl Hc Hrun | Hall Hrun | log rest Hl Hc Hn Hrun];
    rewrite Hrun; cbn [fst snd].
  - (* the first entry lacks an array: the step is skipped *)
    assert (Hnot : ~ all_carry).
    { unfold all_carry. rewrite Hl. intros Hall. inversion Hall. congruence. }
    rewrite customs_of_complete_none.
    rewrite !read_auc_complete_none by auto.
    repeat split; try tauto; try congruence.
  - (* every entry carries both arrays *)
    rewrite customs_of_complete_auc, read_auroc_complete, read_auprc_complete.
    fold scores targets.
    assert (Hnot : Forall (fun log => carries log = false) logs -> False).
    { destruct logs as [|l r]; [congruence|]. intros Hf.
      inversion Hall; inversion Hf; congruence. }
    destruct (0 <? Z.of_nat (length targets)) eqn:E.
    + apply nonempty_ltb in E.
      repeat split; try tauto; try congruence; intros; try discriminate; try assumption.
    + assert (Hempty : targets = []).
      { destruct targets; [reflexivity | discriminate E]. }
      repeat split; try tauto; try congruence; intros; try discriminate;
        try assumption.
  - (* the first entry carries them and another does not: concatenate raises *)
    assert (Hnone : forall key, read_derived auroc auprc [loss_event logs] key = None)
      by reflexivity.
    rewrite !Hnone. cbn [customs_of loss_event].
    assert (Hnot : Forall (fun log => carries log = false) logs -> False).
    { rewrite Hl. intros Hf. inversion Hf. congruence. }
    fold all_carry in Hn.
    repeat split; try tauto; try congruence.
Qed.

Lemma reduce_metrics_auc_witness :
  customs_of "_auc" (fst (run [raw_a; raw_b]))
  = Some ([9 # 10; 2 # 10; 6 # 10], [1 # 1; 0 # 1; 1 # 1]).
Proof.
  destruct (@reduce_metrics_auc (fun _ _ => NaN) (fun _ _ => NaN) [raw_a; raw_b]
              ltac:(discriminate)) as (_ & Hall & _).
  destruct Hall as [_ Hfed]; [repeat constructor|].
  exact Hfed.
Defined.

(** C7 as stated fails on the empty sequence: no entry carries the raw
    arrays, and every entry does, yet the reducer neither feeds the AUC
    meter nor skips it silently -- [logging_outputs[0]] raises. *)
Lemma reduce_metrics_auc_no_entries :
  Forall (fun log => carries log = false) [] /\
  Forall (fun log => carries log = true) [] /\
  snd (run []) = Raise IndexError /\
  customs_of "_auc" (fst (run [])) = None.
Proof. repeat split; constructor. Qed.

(** C5 (amended): the ratios never raise.  When the summed total is not
    positive the reducer registers none of [accuracy], [precision],
    [recall]: they are absent from the report, not NaN.  When it is
    positive and the reducer completes, all three are registered, accuracy
    is a number, and precision (recall) is NaN exactly when [tp + fp]
    ([tp + fn]) is not positive -- zero, for counts. *)
Theorem reduce_metrics_ratios
    (auroc auprc : list Q -> list Q -> pyfloat) (logs : list logging_output) :
  let ev := fst (run logs) in
  let read := read_derived auroc auprc ev in
  let total := sum_of count logs in
  let tps := sum_of tp logs in
  let fps := sum_of fp logs in
  let fns := sum_of fn logs in
  (forall key e, key = "accuracy" \/ key = "precision" \/ key = "recall" ->
                 read key <> Some (Raise e)) /\
  (total <= 0 ->
   read "accuracy" = None /\ read "precision" = None /\ read "recall" = None) /\
  (snd (run logs) = Ok tt -> 0 < total ->
   (exists x, read "accuracy" = Some (Ok (Num x))) /\
   (exists v, read "precision" = Some (Ok v)) /\
   (exists v, read "recall" = Some (Ok v)) /\
   (read "precision" = Some (Ok NaN) <-> tps + fps <= 0) /\
   (read "recall" = Some (Ok NaN) <-> tps + fns <= 0) /\
   (0 <= tps + fps -> (read "precision" = Some (Ok NaN) <-> tps + fps = 0)) /\
   (0 <= tps + fns -> (read "recall" = Some (Ok NaN) <-> tps + fns = 0))).
Proof.
  intros ev read total tps fps fns.
  assert (Hshape :
    (exists auc, (auc = [] \/ auc = auc_events logs) /\ ev = complete logs auc /\
                 snd (run logs) = Ok tt) \/
    (ev = [loss_event logs] /\ snd (run logs) <> Ok tt)).
  { subst ev. destruct logs as [|log rest].
    - right. rewrite run_empty. split; [reflexivity | discriminate].
    - destruct (@interval_cases (log :: rest) ltac:(discriminate))
        as [l r Hl Hc Hrun | Hall Hrun | l r Hl Hc Hn Hrun]; rewrite Hrun.
      + left. exists []. auto.
      + left. exists (auc_events (log :: rest)). auto.
      + right. split; [reflexivity | discriminate]. }
  destruct Hshape as [(auc & Hauc & Hev & Hok) | [Hev Hfail]].
  - assert (Ha := @read_accuracy_complete auroc auprc logs auc Hauc).
    assert (Hp := @read_precision_complete auroc auprc logs auc Hauc).
    assert (Hr := @read_recall_complete auroc auprc logs auc Hauc).
    rewrite <- Hev in Ha, Hp, Hr. fold read total tps fps fns in Ha, Hp, Hr.
    destruct (0 <? total) eqn:Et.
    + apply Z.ltb_lt in Et. unfold ratio in Ha, Hp, Hr.
      replace (0 <? total) with true in Ha by (symmetry; apply Z.ltb_lt; exact Et).
      split; [|split].
      * intros key e [-> | [-> | ->]]; rewrite ?Ha, ?Hp, ?Hr; discriminate.
      * intros Hle. lia.
      * intros _ _. split; [eexists; exact Ha|].
        split; [eexists; exact Hp|]. split; [eexists; exact Hr|].
        rewrite Hp, Hr.
        destruct (0 <? tps + fps) eqn:E1; destruct (0 <? tps + fns) eqn:E2;
          rewrite ?Z.ltb_lt in *; rewrite ?Z.ltb_ge in *;
          repeat split; intros; try reflexivity; try lia; try discriminate.
    + apply Z.ltb_ge in Et. split; [|split].
      * intros key e [-> | [-> | ->]]; rewrite ?Ha, ?Hp, ?Hr; discriminate.
      * intros _. auto.
      * intros _ Hlt. lia.
  - assert (Hnone : forall key, read key = None).
    { intros key. unfold read. rewrite Hev. reflexivity. }
    split; [|split].
    + intros key e _. rewrite Hnone. discriminate.
    + intros _. rewrite !Hnone. auto.
    + intros Hok. contradiction.
Qed.

(** Two workers that predicted no positive, [tp=0, fp=0, fn=2, tn=8] and
    [tp=0, fp=0, fn=1, tn=3]: precision is NaN, recall is not. *)
Lemma reduce_metrics_ratios_witness :
  read_derived (fun _ _ => NaN) (fun _ _ => NaN)
    (fst (run [bundle (1 # 2) 10 10 8 10 0 0 8 2; bundle (1 # 4) 4 4 3 4 0 0 3 1]))
    "precision"
  = Some (Ok NaN) /\
  read_derived (fun _ _ => NaN) (fun _ _ => NaN)
    (fst (run [bundle (1 # 2) 10 10 8 10 0 0 8 2; bundle (1 # 4) 4 4 3 4 0 0 3 1]))
    "recall"
  <> Some (Ok NaN).
Proof.
  destruct (@reduce_metrics_ratios (fun _ _ => NaN) (fun _ _ => NaN)
              [bundle (1 # 2) 10 10 8 10 0 0 8 2; bundle (1 # 4) 4 4 3 4 0 0 3 1])
    as (_ & _ & H).
  destruct (H eq_refl eq_refl) as (_ & _ & _ & Hp & Hr & _).
  split.
  - apply Hp. vm_compute. discriminate.
  - intros Hnan. apply Hr in Hnan. vm_compute in Hnan. apply Hnan. reflexivity.
Defined.

(** C5 as stated fails on an empty-total sequence: the reducer completes
    and registers no accuracy, precision or recall at all. *)
Lemma reduce_metrics_zero_total_omits :
  sum_of count [bundle (0 # 1) 0 0 0 0 0 0 0 0] = 0 /\
  snd (run [bundle (0 # 1) 0 0 0 0 0 0 0 0]) = Ok tt /\
  read_derived (fun _ _ => NaN) (fun _ _ => NaN)
    (fst (run [bundle (0 # 1) 0 0 0 0 0 0 0 0])) "accuracy" = None /\
  read_derived (fun _ _ => NaN) (fun _ _ => NaN)
    (fst (run [bundle (0 # 1) 0 0 0 0 0 0 0 0])) "precision" = None /\
  read_derived (fun _ _ => NaN) (fun _ _ => NaN)
    (fst (run [bundle (0 # 1) 0 0 0 0 0 0 0 0])) "recall" = None.
Proof. repeat split. Qed.

(** ** Order of the entries, and pooling *)

Section Order.

Lemma sum_of_perm field logs logs' :
  Permutation logs logs' -> sum_of field logs = sum_of field logs'.
Proof. intros H. apply sum_perm, Permutation_map, H. Qed.

Lemma loss_sum_perm logs logs' :
  Permutation logs logs' -> (loss_sum logs == loss_sum logs')%Q.
Proof. intros H. apply sumQ_perm, Permutation_map, H. Qed.

Lemma scalar_calls_complete logs auc :
  (auc = [] \/ auc = auc_events logs) ->
  scalar_calls (complete logs auc) = loss_event logs :: count_events logs.
Proof.
  intros Hauc. unfold scalar_calls, complete.
  change (loss_event logs :: auc ++ count_events logs ++ ratio_events logs)
    with ([loss_event logs] ++ auc ++ count_events logs ++ ratio_events logs).
  rewrite !filter_app.
  assert (Ha : filter is_scalar auc = []).
  { destruct Hauc as [-> | ->]; [reflexivity|]. unfold auc_events.
    destruct (0 <? Z.of_nat (length (concat_field y_true logs))); reflexivity. }
  assert (Hr : filter is_scalar (ratio_events logs) = []).
  { unfold ratio_events. destruct (0 <? sum_of count logs); reflexivity. }
  rewrite Ha, Hr. reflexivity.
Qed.

Lemma run_uniform logs :
  logs <> [] -> uniform logs ->
  exists auc, (auc = [] \/ auc = auc_events logs) /\
              run logs = (complete logs auc, Ok tt).
Proof.
  intros Hne [Hall | Hnone].
  - destruct logs as [|log rest]; [congruence|].
    exists (auc_events (log :: rest)). split; [auto | apply run_all, Hall].
  - destruct logs as [|log rest]; [congruence|].
    exists []. split; [auto|]. apply run_skip. inversion Hnone. assumption.
Qed.

Lemma uniform_perm logs logs' :
  Permutation logs logs' -> uniform logs -> uniform logs'.
Proof.
  intros Hp [H | H]; [left | right]; eapply Permutation_Forall; eassumption.
Qed.

Lemma same_call_refl_scalars logs :
  Forall2 same_call (count_events logs) (count_events logs).
Proof. unfold count_events. repeat constructor; reflexivity. Qed.

End Order.

(** C1 (amended): on a non-empty sequence whose entries all carry the raw
    arrays, or all lack one, the reducer completes on every permutation and
    makes the same [log_scalar] calls for the seven counts -- nsignals,
    correct, total, tp, fp, tn, fn -- with the same values, and logs the
    loss with the same weight; the value of the loss is the sum of the
    entries' losses in the order of the entries, and nothing is said of it
    across permutations.  The accuracy the reducer derives is the same for
    every permutation, and the same as the accuracy derived from the single
    bundle that holds the pooled sums. *)
Theorem reduce_metrics_order_independent
    (auroc auprc : list Q -> list Q -> pyfloat)
    (logs logs' : list logging_output) :
  logs <> [] ->
  uniform logs ->
  Permutation logs logs' ->
  snd (run logs) = Ok tt /\
  snd (run logs') = Ok tt /\
  scalar_calls (fst (run logs)) = loss_event logs :: count_events logs /\
  scalar_calls (fst (run logs')) = loss_event logs' :: count_events logs' /\
  count_events logs' = count_events logs /\
  sum_of sample_size logs' = sum_of sample_size logs /\
  read_derived auroc auprc (fst (run logs)) "accuracy"
  = read_derived auroc auprc (fst (run logs')) "accuracy" /\
  read_derived auroc auprc (fst (run logs)) "accuracy"
  = read_derived auroc auprc (fst (run [pool logs])) "accuracy".
Proof.
  intros Hne Hu Hp.
  assert (Hne' : logs' <> []).
  { intros ->. apply Permutation_sym, Permutation_nil in Hp. contradiction. }
  destruct (run_uniform Hne Hu) as (auc & Hauc & Hrun).
  destruct (run_uniform Hne' (uniform_perm Hp Hu)) as (auc' & Hauc' & Hrun').
  assert (Hpool : run [pool logs] = (complete [pool logs] [], Ok tt))
    by (apply run_skip; reflexivity).
  rewrite Hrun, Hrun', Hpool. cbn [fst snd].
  split; [reflexivity|]. split; [reflexivity|].
  split; [apply scalar_calls_complete, Hauc|].
  split; [apply scalar_calls_complete, Hauc'|].
  split.
  { unfold count_events.
    rewrite <- (sum_of_perm nsignals Hp), <- (sum_of_perm correct Hp),
            <- (sum_of_perm count Hp), <- (sum_of_perm tp Hp),
            <- (sum_of_perm fp Hp), <- (sum_of_perm tn Hp),
            <- (sum_of_perm fn Hp).
    reflexivity. }
  split; [symmetry; apply (sum_of_perm sample_size Hp)|].
  - rewrite (@read_accuracy_complete auroc auprc logs auc Hauc).
    rewrite (@read_accuracy_complete auroc auprc logs' auc' Hauc').
    rewrite (@read_accuracy_complete auroc auprc [pool logs] [] (or_introl eq_refl)).
    rewrite <- (sum_of_perm count Hp), <- (sum_of_perm correct Hp).
    split; reflexivity.
Qed.

Lemma reduce_metrics_order_independent_witness :
  count_events [plain_c; plain_b] = count_events [plain_b; plain_c] /\
  read_derived (fun _ _ => NaN) (fun _ _ => NaN) (fst (run [plain_b; plain_c])) "accuracy"
  = read_derived (fun _ _ => NaN) (fun _ _ => NaN)
      (fst (run [pool [plain_b; plain_c]])) "accuracy".
Proof.
  destruct (@reduce_metrics_order_independent (fun _ _ => NaN) (fun _ _ => NaN)
              [plain_b; plain_c] [plain_c; plain_b]
              ltac:(discriminate)
              ltac:(right; repeat constructor)
              (perm_swap _ _ _))
    as (_ & _ & _ & _ & Hs & _ & _ & Hpool).
  split; assumption.
Defined.

(** C1 as stated fails when only some entries carry the raw arrays: with
    the carrying entry first [np.concatenate] raises before any count is
    logged; with the other entry first the reducer completes. *)
Lemma reduce_metrics_order_matters :
  Permutation [raw_a; plain_b] [plain_b; raw_a] /\
  snd (run [raw_a; plain_b]) = Raise (ValueError ZeroDimensional) /\
  scalars_of "_correct" (fst (run [raw_a; plain_b])) = [] /\
  snd (run [plain_b; raw_a]) = Ok tt /\
  scalars_of "_correct" (fst (run [plain_b; raw_a])) = [(inject_Z 3 * inject_Z 1)%Q] /\
  ~ same_scalars (fst (run [raw_a; plain_b])) (fst (run [plain_b; raw_a])).
Proof.
  split; [apply perm_swap|].
  split; [reflexivity|]. split; [reflexivity|].
  split; [reflexivity|]. split; [reflexivity|].
  intros H. unfold same_scalars in H.
  assert (Hlen := Forall2_length H). discriminate Hlen.
Qed.

(** ** The preprocessing script *)

Section Cropping.

Import Preprocess.

(** A slice that lies inside the list has exactly the requested length. *)
Lemma slice_length {A} (l : list A) (a n : Z) :
  0 <= a -> 0 <= n -> a + n <= Z.of_nat (length l) ->
  length (Py.slice l a (a + n)) = Z.to_nat n.
Proof.
  intros Ha Hn Hlen. unfold Py.slice, Py.clamp_index.
  replace (a <? 0) with false by (symmetry; apply Z.ltb_ge; lia).
  replace (a + n <? 0) with false by (symmetry; apply Z.ltb_ge; lia).
  rewrite !Z.min_l by lia.
  rewrite length_firstn, length_skipn.
  replace (a + n - a) with n by lia. lia.
Qed.

Lemma ncols_zeros (rows cols : nat) : ncols (np_zeros (S rows) cols) = cols.
Proof. unfold np_zeros. cbn [repeat ncols]. apply repeat_length. Qed.

Lemma zeros_rows (rows cols : nat) : length (np_zeros rows cols) = rows.
Proof. apply repeat_length. Qed.

Variable args_sec : Z.
Variables pid basename : string.
Variable record : list Q.
Variable draw : Z.

Lemma main_file_short :
  Z.of_nat (length record) <= args_sec * 500 ->
  main_file args_sec 500 pid basename record draw
  = Raise (ValueError HighNotPositive).
Proof.
  intros H. unfold main_file, randint. cbn [Z.eqb Pos.eqb negb].
  replace (Z.of_nat (length record) - args_sec * 500 <=? 0) with true
    by (symmetry; apply Z.leb_le; lia).
  reflexivity.
Qed.

(** The record in single precision, as line 79 leaves it. *)
Lemma main_file_long :
  args_sec * 500 < Z.of_nat (length record) ->
  main_file args_sec 500 pid basename record draw
  = if Nat.eqb (length (crop args_sec (map astype_float32 record) draw)) 2500
    then Ok (Some {| file_name := pid ++ "_" ++ basename ++ ".mat";
                     patient_id := pid;
                     curr_sample_rate := 500;
                     feats := [crop args_sec (map astype_float32 record) draw]
                              ++ np_zeros 11 2500 |})
    else Raise (ValueError DimsMismatch).
Proof.
  intros H. unfold main_file, randint. cbn [Z.eqb Pos.eqb negb].
  replace (Z.of_nat (length record) - args_sec * 500 <=? 0) with false
    by (symmetry; apply Z.leb_gt; lia).
  cbn [bind_result]. unfold crop. rewrite length_map.
  unfold np_concatenate2. rewrite ncols_zeros. cbn [ncols].
  destruct (Nat.eqb _ 2500); reflexivity.
Qed.

Lemma crop_length {A} (sec : Z) (l : list A) (d : Z) :
  0 <= sec -> sec * 500 < Z.of_nat (length l) ->
  length (crop sec l d) = Z.to_nat (sec * 500).
Proof.
  intros Hsec Hlen. unfold crop.
  assert (Hs : 0 <= d mod (Z.of_nat (length l) - sec * 500)
               < Z.of_nat (length l) - sec * 500)
    by (apply Z.mod_pos_bound; lia).
  apply slice_length; lia.
Qed.

End Cropping.

(** C10 (amended): for a 500 Hz record and a non-negative [--sec], a file
    is written exactly when [sec == 5] and the record has more than 2500
    samples, and then holds 12 rows of 2500 samples; for every other
    non-negative [sec] the conversion raises instead: the shape mismatch of
    [np.concatenate] when the record has more than [sec * 500] samples, and
    the range error of [np.random.randint] when it has not. *)
Theorem main_file_saves_only_for_five
    (args_sec : Z) (pid basename : string) (record : list Q) (draw : Z) :
  0 <= args_sec ->
  let len := Z.of_nat (length record) in
  let r := Preprocess.main_file args_sec 500 pid basename record draw in
  (Preprocess.saved r = true <-> args_sec = 5 /\ 2500 < len) /\
  (args_sec = 5 -> 2500 < len ->
   exists data, r = Ok (Some data) /\ length (Preprocess.feats data) = 12%nat /\
                Preprocess.ncols (Preprocess.feats data) = 2500%nat) /\
  (args_sec <> 5 -> args_sec * 500 < len -> r = Raise (ValueError DimsMismatch)) /\
  (len <= args_sec * 500 -> r = Raise (ValueError HighNotPositive)).
Proof.
  intros Hsec len r.
  assert (Hshort : len <= args_sec * 500 -> r = Raise (ValueError HighNotPositive))
    by (apply main_file_short).
  assert (Hcrop : args_sec * 500 < len ->
                  (Nat.eqb (length (crop args_sec
                                      (map Preprocess.astype_float32 record) draw))
                           2500 = true
                   <-> args_sec = 5)).
  { intros Hlen.
    rewrite (@crop_length _ args_sec (map Preprocess.astype_float32 record)
               draw Hsec ltac:(rewrite length_map; exact Hlen)), Nat.eqb_eq.
    change 2500%nat with (Z.to_nat 2500). split.
    - intros H. apply Z2Nat.inj in H; lia.
    - intros ->. reflexivity. }
  assert (Hlong := @main_file_long args_sec pid basename record draw).
  fold len r in Hlong.
  split; [|split; [|split]].
  - split.
    + intros Hsaved. destruct (Z_le_gt_dec len (args_sec * 500)) as [Hle | Hgt].
      * rewrite (Hshort Hle) in Hsaved. discriminate Hsaved.
      * assert (Hlt : args_sec * 500 < len) by lia.
        rewrite (Hlong Hlt) in Hsaved. pose proof (Hcrop Hlt) as Hc.
        destruct (Nat.eqb (length (crop args_sec
                                     (map Preprocess.astype_float32 record) draw))
                          2500).
        -- split; [apply Hc; reflexivity | lia].
        -- discriminate Hsaved.
    + intros [-> Hlen]. rewrite Hlong by lia.
      replace (Nat.eqb (length (crop 5 (map Preprocess.astype_float32 record) draw))
                       2500) with true
        by (symmetry; apply Hcrop; lia).
      reflexivity.
  - intros -> Hlen. rewrite Hlong by lia.
    assert (E : Nat.eqb (length (crop 5 (map Preprocess.astype_float32 record) draw))
                        2500 = true)
      by (apply Hcrop; lia).
    rewrite E. eexists. split; [reflexivity|]. cbn [Preprocess.feats].
    split.
    + rewrite length_app, zeros_rows. reflexivity.
    + cbn [app Preprocess.ncols]. apply Nat.eqb_eq, E.
  - intros Hne Hlen. rewrite (Hlong Hlen). pose proof (Hcrop Hlen) as Hc.
    destruct (Nat.eqb (length (crop args_sec
                                 (map Preprocess.astype_float32 record) draw))
                      2500);
      [|reflexivity].
    exfalso. apply Hne, Hc. reflexivity.
  - exact Hshort.
Qed.

Lemma main_file_saves_only_for_five_witness :
  Preprocess.main_file 4 500 "01" "rec_1" (repeat (0 # 1) 3000) 7
  = Raise (ValueError DimsMismatch).
Proof.
  destruct (@main_file_saves_only_for_five 4 "01" "rec_1" (repeat (0 # 1) 3000) 7
              ltac:(lia)) as (_ & _ & Hmis & _).
  apply Hmis; [lia | rewrite repeat_length; lia].
Defined.

(** C10 as stated fails in both directions.  With [--sec -1] the slice
    bound is negative and counts from the end: a 3000-sample record is
    cropped to 2500 samples and a file is written.  With [--sec 30] the
    same record makes [randint] raise; no shapes are compared. *)
Lemma main_file_other_seconds :
  Preprocess.saved
    (Preprocess.main_file (-1) 500 "01" "rec_1" (repeat (0 # 1) 3000) 0) = true /\
  Preprocess.main_file 30 500 "01" "rec_1" (repeat (0 # 1) 3000) 0
  = Raise (ValueError HighNotPositive).
Proof. split; vm_compute; reflexivity. Qed.

(** * Further properties of the producer *)

Section ProducerBounds.

Lemma cnt_le (P R : bool -> Q -> bool) (ots : list (bool * Q)) :
  (forall o t, P o t = true -> R o t = true) ->
  cnt P ots <= cnt R ots.
Proof.
  intros H. induction ots as [|[o t] ots IH].
  - reflexivity.
  - rewrite !cnt_cons. specialize (H o t).
    destruct (P o t); destruct (R o t); cbn [Py.b2z];
      first [lia | discriminate (H eq_refl)].
Qed.

(** The two partitions are disjoint: together they hold at most every
    position. *)
Lemma cnt_partition_le (ots : list (bool * Q)) :
  cnt (fun _ t => Qeq_bool t (1 # 1)) ots + cnt (fun _ t => Qeq_bool t (0 # 1)) ots
  <= Z.of_nat (length ots).
Proof.
  induction ots as [|[o t] ots IH].
  - reflexivity.
  - rewrite !cnt_cons. cbn [length]. rewrite Nat2Z.inj_succ.
    destruct (Qeq_bool t (1 # 1)) eqn:E1.
    + rewrite (not_one_and_zero _ E1). cbn [Py.b2z]. lia.
    + destruct (Qeq_bool t (0 # 1)); cbn [Py.b2z]; lia.
Qed.

Lemma cnt_targets_equal (v : Q) (os : list bool) (ts : list Q) :
  length os = length ts ->
  cnt (fun _ t => Qeq_bool t v) (combine os ts) = targets_equal v ts.
Proof.
  unfold targets_equal. revert ts.
  induction os as [|o os IH]; intros [|t ts] Hlen; try discriminate.
  - reflexivity.
  - injection Hlen as Hlen. cbn [combine filter]. rewrite cnt_cons, (IH ts Hlen).
    destruct (Qeq_bool t v); cbn [Py.b2z length]; lia.
Qed.

Lemma positions_length (probs target : list Q) :
  length probs = length target ->
  length (positions probs target) = length probs.
Proof.
  intros H. unfold positions.
  rewrite length_combine, binarize_length, <- H. apply Nat.min_id.
Qed.

(** The cells of a batch of matching shapes, as counts. *)
Lemma cells_are_counts (probs target : list Q) :
  length probs = length target ->
  0 <= tp_cell probs target /\ 0 <= fp_cell probs target /\
  0 <= tn_cell probs target /\ 0 <= fn_cell probs target /\
  tp_cell probs target + fn_cell probs target = targets_equal (1 # 1) target /\
  fp_cell probs target + tn_cell probs target = targets_equal (0 # 1) target /\
  tp_cell probs target + fp_cell probs target
  + tn_cell probs target + fn_cell probs target <= Z.of_nat (length probs).
Proof.
  intros Hlen.
  assert (Hb : length (binarize probs) = length target)
    by (rewrite binarize_length; exact Hlen).
  assert (H1 := @cnt_targets_equal (1 # 1) (binarize probs) target Hb).
  assert (H0 := @cnt_targets_equal (0 # 1) (binarize probs) target Hb).
  assert (Hp := cnt_partition_le (positions probs target)).
  rewrite (@positions_length probs target Hlen) in Hp.
  assert (Htp0 := cnt_bounds (fun o t => o && Qeq_bool t (1 # 1)) (positions probs target)).
  assert (Hfp0 := cnt_bounds (fun o t => o && Qeq_bool t (0 # 1)) (positions probs target)).
  assert (Htp : tp_cell probs target
                <= cnt (fun _ t => Qeq_bool t (1 # 1)) (positions probs target)).
  { apply cnt_le. intros o t Hot. apply andb_prop in Hot. tauto. }
  assert (Hfp : fp_cell probs target
                <= cnt (fun _ t => Qeq_bool t (0 # 1)) (positions probs target)).
  { apply cnt_le. intros o t Hot. apply andb_prop in Hot. tauto. }
  unfold positions in H1, H0. fold (positions probs target) in H1, H0.
  unfold fn_cell, tn_cell. unfold tp_cell, fp_cell in *.
  repeat split; lia.
Qed.

(** What [forward] returns, when it returns. *)
Lemma forward_ok_bundle
    (self : criterion) (probs target : list Q) (loss_item : Q) (smp : sample)
    (out : Q * Z * logging_output) :
  forward self probs target loss_item smp = Ok out ->
  length probs = length target /\ probs <> [] /\
  out = (loss_item, forward_sample_size smp target,
         {| loss := Some loss_item;
            nsignals := Some (Py.numel (sample_id smp));
            sample_size := Some (forward_sample_size smp target);
            correct := Some (tp_cell probs target + tn_cell probs target);
            count := Some (Py.numel probs);
            tp := Some (tp_cell probs target);
            fp := Some (fp_cell probs target);
            tn := Some (tn_cell probs target);
            fn := Some (fn_cell probs target);
            y_true := if negb (training self) && report_auc self
                      then Some target else None;
            y_score := if negb (training self) && report_auc self
                       then Some probs else None |}).
Proof.
  intros H. destruct (@forward_ok_inv _ _ _ _ _ _ H) as [Hlen Hne].
  rewrite (@forward_nonempty self probs target loss_item smp Hlen Hne) in H.
  injection H as <-. auto.
Qed.

End ProducerBounds.

(** X1: every bundle [forward] returns has all nine statistics keys, and
    its counts are counts: the four cells are non-negative, [tp + fn] is
    the number of targets equal to 1 and [fp + tn] the number of targets
    equal to 0, the cells together never exceed [count], which is the
    number of positions, and [correct] lies between 0 and [count]. *)
Theorem forward_counts_are_counts
    (self : criterion) (probs target : list Q) (loss_item : Q) (smp : sample)
    (out : Q * Z * logging_output) :
  forward self probs target loss_item smp = Ok out ->
  exists c n a b d e : Z,
    correct (snd out) = Some c /\ count (snd out) = Some n /\
    tp (snd out) = Some a /\ fp (snd out) = Some b /\
    tn (snd out) = Some d /\ fn (snd out) = Some e /\
    loss (snd out) = Some loss_item /\
    nsignals (snd out) = Some (Z.of_nat (length (sample_id smp))) /\
    sample_size (snd out) = Some (snd (fst out)) /\
    n = Z.of_nat (length probs) /\
    0 <= a /\ 0 <= b /\ 0 <= d /\ 0 <= e /\
    a + e = targets_equal (1 # 1) target /\
    b + d = targets_equal (0 # 1) target /\
    a + b + d + e <= n /\
    0 <= c <= n.
Proof.
  intros H. destruct (@forward_ok_bundle _ _ _ _ _ _ H) as (Hlen & Hne & ->).
  cbn [fst snd correct count tp fp tn fn loss nsignals sample_size].
  do 6 eexists. repeat (split; [reflexivity|]).
  destruct (@cells_are_counts probs target Hlen) as (Ha & Hb & Hd & He & H1 & H0 & Hsum).
  unfold Py.numel. repeat split; lia.
Qed.

Lemma forward_counts_are_counts_witness :
  exists c n a b d e : Z,
    Some 4 = Some c /\ Some 4 = Some n /\
    Some 2 = Some a /\ Some 0 = Some b /\
    Some 2 = Some d /\ Some 0 = Some e /\
    Some (1 # 2) = Some (1 # 2) /\
    Some 4 = Some (Z.of_nat (length (sample_id ex_smp))) /\
    Some 2 = Some 2 /\
    n = Z.of_nat (length [9 # 10; 2 # 10; 6 # 10; 1 # 10]) /\
    0 <= a /\ 0 <= b /\ 0 <= d /\ 0 <= e /\
    a + e = targets_equal (1 # 1) [1 # 1; 0 # 1; 1 # 1; 0 # 1] /\
    b + d = targets_equal (0 # 1) [1 # 1; 0 # 1; 1 # 1; 0 # 1] /\
    a + b + d + e <= n /\
    0 <= c <= n.
Proof.
  apply (@forward_counts_are_counts ex_crit
           [9 # 10; 2 # 10; 6 # 10; 1 # 10] [1 # 1; 0 # 1; 1 # 1; 0 # 1]
           (1 # 2) ex_smp
           (1 # 2, 2, bundle (1 # 2) 4 2 4 4 2 0 2 0)).
  reflexivity.
Defined.

(** X2: a bundle carries the raw arrays exactly when the criterion is in
    evaluation mode with [report_auc] set; then ["_y_true"] is the batch's
    targets and ["_y_score"] its probabilities, of equal length, and
    neither key is ever present without the other. *)
Theorem forward_raw_arrays
    (self : criterion) (probs target : list Q) (loss_item : Q) (smp : sample)
    (out : Q * Z * logging_output) :
  forward self probs target loss_item smp = Ok out ->
  carries (snd out) = negb (training self) && report_auc self /\
  has (y_true (snd out)) = has (y_score (snd out)) /\
  (carries (snd out) = true ->
   y_true (snd out) = Some target /\ y_score (snd out) = Some probs /\
   length probs = length target) /\
  entry_pairs (snd out)
  = if negb (training self) && report_auc self then combine probs target else [].
Proof.
  intros H. destruct (@forward_ok_bundle _ _ _ _ _ _ H) as (Hlen & Hne & ->).
  unfold carries, entry_pairs, raw_scores, raw_targets. cbn [snd y_true y_score].
  destruct (negb (training self) && report_auc self); cbn [has andb];
    repeat split; auto; discriminate.
Qed.

Lemma forward_raw_arrays_witness :
  carries ex_log = negb (training eval_crit) && report_auc eval_crit /\
  has (y_true ex_log) = has (y_score ex_log) /\
  (carries ex_log = true ->
   y_true ex_log = Some (batch_target ex_batch) /\
   y_score ex_log = Some (batch_probs ex_batch) /\
   length (batch_probs ex_batch) = length (batch_target ex_batch)) /\
  entry_pairs ex_log
  = if negb (training eval_crit) && report_auc eval_crit
    then combine (batch_probs ex_batch) (batch_target ex_batch) else [].
Proof.
  apply (@forward_raw_arrays eval_crit (batch_probs ex_batch) (batch_target ex_batch)
           (batch_loss ex_batch) ex_smp (1 # 2, 2, ex_log)).
  reflexivity.
Defined.

(** * The producer's bundles in the reducer *)

Section ProducedIntervals.

Lemma sum_of_cons (field : logging_output -> option Z) log logs :
  sum_of field (log :: logs) = Py.get0 (field log) + sum_of field logs.
Proof. unfold sum_of. cbn [map]. apply sum_cons. Qed.

Lemma sum_of_nonneg (field : logging_output -> option Z) logs :
  Forall (fun log => 0 <= Py.get0 (field log)) logs -> 0 <= sum_of field logs.
Proof.
  induction 1 as [|log logs Hl _ IH]; [reflexivity|].
  rewrite sum_of_cons. lia.
Qed.

Lemma sum_of_positive (field : logging_output -> option Z) logs :
  logs <> [] ->
  Forall (fun log => 0 < Py.get0 (field log)) logs -> 0 < sum_of field logs.
Proof.
  intros Hne H. destruct H as [|log logs Hl Hrest]; [congruence|].
  rewrite sum_of_cons.
  assert (0 <= sum_of field logs).
  { apply sum_of_nonneg. eapply Forall_impl; [|exact Hrest]. cbn. intros. lia. }
  lia.
Qed.

Lemma sum_of_le (f g : logging_output -> option Z) logs :
  Forall (fun log => Py.get0 (f log) <= Py.get0 (g log)) logs ->
  sum_of f logs <= sum_of g logs.
Proof.
  induction 1 as [|log logs Hl _ IH]; [reflexivity|].
  rewrite !sum_of_cons. lia.
Qed.

Lemma sum_of_zero (field : logging_output -> option Z) logs :
  Forall (fun log => 0 <= Py.get0 (field log)) logs ->
  (sum_of field logs = 0 <-> Forall (fun log => Py.get0 (field log) = 0) logs).
Proof.
  induction 1 as [|log logs Hl Hrest IH].
  - split; [constructor | reflexivity].
  - rewrite sum_of_cons. pose proof (sum_of_nonneg field Hrest) as Hs. split.
    + intros H. constructor; [lia|]. apply IH. lia.
    + intros H. inversion H as [|? ? H0 Hr]; subst. apply IH in Hr. lia.
Qed.

Variable self : criterion.

(** The facts about one produced bundle that the reducer's sums need. *)
Lemma produces_facts (b : batch) (log : logging_output) :
  produces self b log ->
  carries log = negb (training self) && report_auc self /\
  0 < Py.get0 (count log) /\
  0 <= Py.get0 (correct log) <= Py.get0 (count log) /\
  0 <= Py.get0 (tp log) /\ 0 <= Py.get0 (fp log) /\
  0 <= Py.get0 (tn log) /\ 0 <= Py.get0 (fn log) /\
  Py.get0 (tp log) + Py.get0 (fn log) = targets_equal (1 # 1) (batch_target b) /\
  entry_pairs log
  = if negb (training self) && report_auc self
    then combine (batch_probs b) (batch_target b) else [].
Proof.
  intros (l & ss & H). unfold forward_batch in H.
  destruct (@forward_ok_bundle _ _ _ _ _ _ H) as (Hlen & Hne & Hout).
  injection Hout as _ _ ->.
  destruct (@cells_are_counts (batch_probs b) (batch_target b) Hlen)
    as (Ha & Hb & Hd & He & H1 & H0 & Hsum).
  unfold carries, entry_pairs, raw_scores, raw_targets.
  cbn [y_true y_score count correct tp fp tn fn Py.get0].
  assert (Hn : 0 < Py.numel (batch_probs b)).
  { unfold Py.numel. destruct (batch_probs b); [congruence | cbn; lia]. }
  unfold Py.numel in *.
  destruct (negb (training self) && report_auc self); cbn [has andb];
    repeat split; try lia; reflexivity.
Qed.

Lemma produced_uniform (bs : list batch) (logs : list logging_output) :
  Forall2 (produces self) bs logs -> uniform logs.
Proof.
  intros H.
  assert (Hc : Forall (fun log => carries log
                                  = negb (training self) && report_auc self) logs).
  { induction H as [|b log bs logs Hp _ IH]; constructor; [|exact IH].
    apply (produces_facts Hp). }
  unfold uniform.
  destruct (negb (training self) && report_auc self); [left | right]; exact Hc.
Qed.

Lemma produced_Forall (P : logging_output -> Prop)
    (bs : list batch) (logs : list logging_output) :
  (forall b log, produces self b log -> P log) ->
  Forall2 (produces self) bs logs -> Forall P logs.
Proof.
  intros HP H. induction H as [|b log bs logs Hp _ IH]; constructor; eauto.
Qed.

(** The targets equal to 1 of all batches are the positives the reducer
    divides by for recall. *)
Lemma produced_positives (bs : list batch) (logs : list logging_output) :
  Forall2 (produces self) bs logs ->
  sum_of tp logs + sum_of fn logs
  = Py.sum (map (fun b => targets_equal (1 # 1) (batch_target b)) bs).
Proof.
  induction 1 as [|b log bs' logs' Hp _ IH]; [reflexivity|].
  cbn [map]. rewrite !sum_of_cons, sum_cons.
  destruct (produces_facts Hp) as (_ & _ & _ & _ & _ & _ & _ & H1 & _). lia.
Qed.

End ProducedIntervals.

Section RoundingBounds.

Lemma round_half_even_bounds (y : Q) (p : Z) :
  (0 <= y)%Q -> (y <= inject_Z p)%Q ->
  0 <= round_half_even y <= p.
Proof.
  intros H0 Hp. unfold round_half_even.
  assert (Hf0 : 0 <= Qfloor y).
  { change 0 with (Qfloor (inject_Z 0)). apply Qfloor_resp_le. exact H0. }
  assert (Hfp : Qfloor y <= p).
  { rewrite <- (Qfloor_Z p). apply Qfloor_resp_le. exact Hp. }
  destruct (Z.eq_dec (Qfloor y) p) as [E | E].
  - assert (Hlt : (y - inject_Z (Qfloor y) < 1 # 2)%Q).
    { rewrite E. apply Qle_lt_trans with (y := (0 # 1)%Q); [|reflexivity].
      apply (Qplus_le_l _ _ (inject_Z p)). ring_simplify. exact Hp. }
    destruct (y - inject_Z (Qfloor y) ?= 1 # 2)%Q eqn:C.
    + apply Qeq_alt in C. rewrite C in Hlt. exfalso. exact (Qlt_irrefl _ Hlt).
    + lia.
    + apply Qgt_alt in C. exfalso.
      exact (Qlt_irrefl _ (Qlt_trans _ _ _ Hlt C)).
  - destruct (y - inject_Z (Qfloor y) ?= 1 # 2)%Q; [destruct (Z.even (Qfloor y))| |]; lia.
Qed.

(** Rounding keeps a ratio of the unit interval in the unit interval. *)
Lemma safe_round_unit (x : Q) (n : nat) :
  (0 <= x)%Q -> (x <= 1)%Q -> (0 <= safe_round x n /\ safe_round x n <= 1)%Q.
Proof.
  intros H0 H1. unfold safe_round.
  assert (Hb : 0 <= round_half_even (x * inject_Z (Z.pos (pow10 n))) <= Z.pos (pow10 n)).
  { apply round_half_even_bounds.
    - apply Qmult_le_0_compat; [exact H0 | unfold Qle; cbn; lia].
    - rewrite <- (Qmult_1_l (inject_Z (Z.pos (pow10 n)))) at 2.
      apply Qmult_le_compat_r; [exact H1 | unfold Qle; cbn; lia]. }
  unfold Qle. cbn [Qnum Qden]. split; lia.
Qed.

Lemma ratio_unit (num den : Z) :
  0 <= num <= den -> unit_ratio (ratio num den).
Proof.
  intros H. unfold ratio. destruct (0 <? den) eqn:E; [|exact I].
  apply Z.ltb_lt in E. cbn [unit_ratio]. apply safe_round_unit.
  - apply Qle_shift_div_l; [unfold Qlt; cbn; lia|].
    rewrite Qmult_0_l. unfold Qle. cbn. lia.
  - apply Qle_shift_div_r; [unfold Qlt; cbn; lia|].
    rewrite Qmult_1_l. rewrite <- Zle_Qle. lia.
Qed.

End RoundingBounds.

(** X3: bundles that one criterion produced never trip the reducer: on a
    non-empty interval of them, in any order, [reduce_metrics] completes,
    and it feeds the AUC meter exactly when the criterion is in evaluation
    mode with [report_auc] set. *)
Theorem produced_interval_completes
    (self : criterion) (bs : list batch) (logs logs' : list logging_output) :
  Forall2 (produces self) bs logs ->
  logs <> [] ->
  Permutation logs logs' ->
  snd (run logs') = Ok tt /\
  (customs_of "_auc" (fst (run logs')) <> None
   <-> negb (training self) && report_auc self = true).
Proof.
  intros Hprod Hne Hperm.
  assert (Hne' : logs' <> []).
  { intros ->. apply Permutation_sym, Permutation_nil in Hperm. contradiction. }
  assert (Hc : Forall (fun log => carries log
                                  = negb (training self) && report_auc self) logs').
  { eapply Permutation_Forall; [exact Hperm|].
    eapply produced_Forall; [|exact Hprod].
    intros b log Hp. apply (produces_facts Hp). }
  destruct (negb (training self) && report_auc self).
  - destruct logs' as [|log rest]; [congruence|].
    rewrite (run_all Hc). cbn [fst snd]. split; [reflexivity|].
    pose proof (customs_of_complete_auc (log :: rest)) as Hfed.
    unfold complete in Hfed. rewrite Hfed. split; [reflexivity | discriminate].
  - destruct logs' as [|log rest]; [congruence|].
    assert (Hl : carries log = false) by (inversion Hc; assumption).
    rewrite (@run_skip log rest Hl). cbn [fst snd]. split; [reflexivity|].
    pose proof (customs_of_complete_none (log :: rest)) as Hnone.
    unfold complete in Hnone. cbn [app] in Hnone. rewrite Hnone.
    split; [congruence | discriminate].
Qed.

Lemma produced_interval_completes_witness :
  snd (run [ex_log2; ex_log]) = Ok tt /\
  (customs_of "_auc" (fst (run [ex_log2; ex_log])) <> None
   <-> negb (training eval_crit) && report_auc eval_crit = true).
Proof.
  apply (@produced_interval_completes eval_crit [ex_batch; ex_batch2]
           [ex_log; ex_log2] [ex_log2; ex_log]).
  - constructor; [exists (1 # 2), 2; reflexivity|].
    constructor; [exists (1 # 4), 1; reflexivity | constructor].
  - discriminate.
  - apply perm_swap.
Defined.

Section ProducedRatios.

Variables auroc auprc : list Q -> list Q -> pyfloat.
Variable self : criterion.
Variable bs : list batch.
Variable logs : list logging_output.
Hypothesis Hprod : Forall2 (produces self) bs logs.
Hypothesis Hne : logs <> [].

Lemma produced_complete :
  exists auc, (auc = [] \/ auc = auc_events logs) /\
              fst (run logs) = complete logs auc.
Proof.
  destruct (run_uniform Hne (produced_uniform Hprod)) as (auc & Hauc & Hrun).
  exists auc. rewrite Hrun. auto.
Qed.

Lemma produced_sums :
  0 < sum_of count logs /\
  0 <= sum_of correct logs <= sum_of count logs /\
  0 <= sum_of tp logs /\ 0 <= sum_of fp logs /\ 0 <= sum_of fn logs.
Proof.
  assert (Hall : forall P : logging_output -> Prop,
             (forall b log, produces self b log -> P log) -> Forall P logs)
    by (intros P HP; exact (produced_Forall P HP Hprod)).
  split; [|split; [split|split; [|split]]].
  - apply sum_of_positive; [exact Hne|]. apply Hall. intros b log Hp.
    apply (produces_facts Hp).
  - apply sum_of_nonneg. apply Hall. intros b log Hp.
    apply (produces_facts Hp).
  - apply sum_of_le. apply Hall. intros b log Hp.
    apply (produces_facts Hp).
  - apply sum_of_nonneg. apply Hall. intros b log Hp.
    apply (produces_facts Hp).
  - apply sum_of_nonneg. apply Hall. intros b log Hp.
    apply (produces_facts Hp).
  - apply sum_of_nonneg. apply Hall. intros b log Hp.
    apply (produces_facts Hp).
Qed.

Lemma produced_reads :
  read_derived auroc auprc (fst (run logs)) "accuracy"
  = Some (Ok (ratio (sum_of correct logs) (sum_of count logs))) /\
  read_derived auroc auprc (fst (run logs)) "precision"
  = Some (Ok (ratio (sum_of tp logs) (sum_of tp logs + sum_of fp logs))) /\
  read_derived auroc auprc (fst (run logs)) "recall"
  = Some (Ok (ratio (sum_of tp logs) (sum_of tp logs + sum_of fn logs))).
Proof.
  destruct produced_complete as (auc & Hauc & Hev). rewrite Hev.
  rewrite (@read_accuracy_complete auroc auprc logs auc Hauc),
          (@read_precision_complete auroc auprc logs auc Hauc),
          (@read_recall_complete auroc auprc logs auc Hauc).
  destruct produced_sums as (Ht & _).
  replace (0 <? sum_of count logs) with true by (symmetry; apply Z.ltb_lt; exact Ht).
  auto.
Qed.

End ProducedRatios.

(** X4: on a non-empty interval of produced bundles the summed total is
    positive, so the three ratios are always registered, are never an
    exception, and each is NaN or lies between 0 and 1; accuracy is never
    NaN. *)
Theorem produced_ratios_in_unit_interval
    (auroc auprc : list Q -> list Q -> pyfloat) (self : criterion)
    (bs : list batch) (logs : list logging_output) :
  Forall2 (produces self) bs logs ->
  logs <> [] ->
  0 < sum_of count logs /\
  (exists x, read_derived auroc auprc (fst (run logs)) "accuracy" = Some (Ok (Num x))
             /\ (0 <= x /\ x <= 1)%Q) /\
  (exists v, read_derived auroc auprc (fst (run logs)) "precision" = Some (Ok v)
             /\ unit_ratio v) /\
  (exists v, read_derived auroc auprc (fst (run logs)) "recall" = Some (Ok v)
             /\ unit_ratio v).
Proof.
  intros Hprod Hne.
  destruct (produced_sums Hprod Hne) as (Ht & Hc & Htp & Hfp & Hfn).
  destruct (produced_reads auroc auprc Hprod Hne) as (Ha & Hp & Hr).
  split; [exact Ht|]. split; [|split].
  - pose proof (@ratio_unit (sum_of correct logs) (sum_of count logs) Hc) as Hu.
    unfold ratio in Ha, Hu.
    replace (0 <? sum_of count logs) with true in Ha, Hu
      by (symmetry; apply Z.ltb_lt; exact Ht).
    eexists. split; [exact Ha | exact Hu].
  - eexists. split; [exact Hp|]. apply ratio_unit. lia.
  - eexists. split; [exact Hr|]. apply ratio_unit. lia.
Qed.

Lemma produced_ratios_in_unit_interval_witness :
  0 < sum_of count [ex_log; ex_log2] /\
  (exists x, read_derived (fun _ _ => NaN) (fun _ _ => NaN)
               (fst (run [ex_log; ex_log2])) "accuracy" = Some (Ok (Num x))
             /\ (0 <= x /\ x <= 1)%Q) /\
  (exists v, read_derived (fun _ _ => NaN) (fun _ _ => NaN)
               (fst (run [ex_log; ex_log2])) "precision" = Some (Ok v)
             /\ unit_ratio v) /\
  (exists v, read_derived (fun _ _ => NaN) (fun _ _ => NaN)
               (fst (run [ex_log; ex_log2])) "recall" = Some (Ok v)
             /\ unit_ratio v).
Proof.
  apply (@produced_ratios_in_unit_interval (fun _ _ => NaN) (fun _ _ => NaN)
           eval_crit [ex_batch; ex_batch2] [ex_log; ex_log2]).
  - constructor; [exists (1 # 2), 2; reflexivity|].
    constructor; [exists (1 # 4), 1; reflexivity | constructor].
  - discriminate.
Defined.

(** X5: on a non-empty interval of produced bundles, recall is NaN exactly
    when no batch holds a target equal to 1, and precision is NaN exactly
    when every bundle has [tp = 0] and [fp = 0], that is when no position
    with a 0/1 target was predicted positive. *)
Theorem produced_nan_ratios
    (auroc auprc : list Q -> list Q -> pyfloat) (self : criterion)
    (bs : list batch) (logs : list logging_output) :
  Forall2 (produces self) bs logs ->
  logs <> [] ->
  (read_derived auroc auprc (fst (run logs)) "recall" = Some (Ok NaN)
   <-> Forall (fun b => targets_equal (1 # 1) (batch_target b) = 0) bs) /\
  (read_derived auroc auprc (fst (run logs)) "precision" = Some (Ok NaN)
   <-> Forall (fun log => Py.get0 (tp log) = 0 /\ Py.get0 (fp log) = 0) logs).
Proof.
  intros Hprod Hne.
  destruct (produced_sums Hprod Hne) as (Ht & Hc & Htp & Hfp & Hfn).
  destruct (produced_reads auroc auprc Hprod Hne) as (_ & Hp & Hr).
  rewrite Hp, Hr. unfold ratio. split.
  - rewrite (produced_positives Hprod).
    assert (Hsum : forall l : list batch,
               0 <= Py.sum (map (fun b => targets_equal (1 # 1) (batch_target b)) l) /\
               (Py.sum (map (fun b => targets_equal (1 # 1) (batch_target b)) l) = 0
                <-> Forall (fun b => targets_equal (1 # 1) (batch_target b) = 0) l)).
    { induction l as [|b l [IH0 IH]].
      - split; [reflexivity|]. split; [constructor | reflexivity].
      - cbn [map]. rewrite sum_cons.
        assert (0 <= targets_equal (1 # 1) (batch_target b))
          by (unfold targets_equal; lia).
        split; [lia|]. split.
        + intros H0. constructor; [lia | apply IH; lia].
        + intros H0. inversion H0 as [|? ? Hb Hl]; subst. apply IH in Hl. lia. }
    destruct (Hsum bs) as [H0 Hiff]. rewrite <- Hiff.
    destruct (0 <? Py.sum (map (fun b => targets_equal (1 # 1) (batch_target b)) bs))
      eqn:E.
    + apply Z.ltb_lt in E. split; [discriminate | lia].
    + apply Z.ltb_ge in E. split; [lia | reflexivity].
  - assert (Htp0 : Forall (fun log => 0 <= Py.get0 (tp log)) logs).
    { eapply produced_Forall; [|exact Hprod]. intros b log H.
      apply (produces_facts H). }
    assert (Hfp0 : Forall (fun log => 0 <= Py.get0 (fp log)) logs).
    { eapply produced_Forall; [|exact Hprod]. intros b log H.
      apply (produces_facts H). }
    pose proof (sum_of_zero tp Htp0) as Ztp.
    pose proof (sum_of_zero fp Hfp0) as Zfp.
    destruct (0 <? sum_of tp logs + sum_of fp logs) eqn:E.
    + apply Z.ltb_lt in E. split; [discriminate|].
      intros Hall. exfalso.
      assert (sum_of tp logs = 0).
      { apply Ztp. eapply Forall_impl; [|exact Hall]. cbn. tauto. }
      assert (sum_of fp logs = 0).
      { apply Zfp. eapply Forall_impl; [|exact Hall]. cbn. tauto. }
      lia.
    + apply Z.ltb_ge in E. split; [|reflexivity]. intros _.
      assert (H1 : sum_of tp logs = 0) by lia.
      assert (H2 : sum_of fp logs = 0) by lia.
      apply Ztp in H1. apply Zfp in H2.
      rewrite Forall_forall in *. intros log Hin. split; auto.
Qed.

Lemma produced_nan_ratios_witness :
  (read_derived (fun _ _ => NaN) (fun _ _ => NaN)
     (fst (run [ex_log; ex_log2])) "recall" = Some (Ok NaN)
   <-> Forall (fun b => targets_equal (1 # 1) (batch_target b) = 0)
              [ex_batch; ex_batch2]) /\
  (read_derived (fun _ _ => NaN) (fun _ _ => NaN)
     (fst (run [ex_log; ex_log2])) "precision" = Some (Ok NaN)
   <-> Forall (fun log => Py.get0 (tp log) = 0 /\ Py.get0 (fp log) = 0)
              [ex_log; ex_log2]).
Proof.
  apply (@produced_nan_ratios (fun _ _ => NaN) (fun _ _ => NaN)
           eval_crit [ex_batch; ex_batch2] [ex_log; ex_log2]).
  - constructor; [exists (1 # 2), 2; reflexivity|].
    constructor; [exists (1 # 4), 1; reflexivity | constructor].
  - discriminate.
Defined.

(** * Pooling, pairing and accumulation in the reducer *)

(** X6: summing the bundles first changes no scalar and no ratio: on a
    non-empty sequence whose entries all carry the raw arrays, or all lack
    one, the reducer makes the same eight [log_scalar] calls for the
    sequence as for the single bundle holding the pooled sums, and reports
    the same precision and the same recall. *)
Theorem pooling_preserves_scalars_and_ratios
    (auroc auprc : list Q -> list Q -> pyfloat) (logs : list logging_output) :
  logs <> [] ->
  uniform logs ->
  snd (run [pool logs]) = Ok tt /\
  same_scalars (fst (run logs)) (fst (run [pool logs])) /\
  read_derived auroc auprc (fst (run logs)) "precision"
  = read_derived auroc auprc (fst (run [pool logs])) "precision" /\
  read_derived auroc auprc (fst (run logs)) "recall"
  = read_derived auroc auprc (fst (run [pool logs])) "recall".
Proof.
  intros Hne Hu.
  destruct (run_uniform Hne Hu) as (auc & Hauc & Hrun).
  assert (Hpool : run [pool logs] = (complete [pool logs] [], Ok tt))
    by (apply run_skip; reflexivity).
  rewrite Hrun, Hpool. cbn [fst snd]. split; [reflexivity|]. split; [|split].
  - unfold same_scalars.
    rewrite (scalar_calls_complete Hauc),
            (@scalar_calls_complete [pool logs] [] (or_introl eq_refl)).
    change (count_events [pool logs]) with (count_events logs).
    constructor; [|apply same_call_refl_scalars].
    unfold loss_event.
    change (sum_of sample_size [pool logs]) with (sum_of sample_size logs).
    constructor.
    assert (Hl : (loss_sum [pool logs] == loss_sum logs)%Q).
    { unfold loss_sum at 1. cbn [map pool bundle loss Py.get0Q].
      rewrite sumQ_cons. unfold Py.sumQ at 1. cbn [fold_left]. ring. }
    rewrite Hl. reflexivity.
  - rewrite (@read_precision_complete auroc auprc logs auc Hauc).
    rewrite (@read_precision_complete auroc auprc [pool logs] [] (or_introl eq_refl)).
    reflexivity.
  - rewrite (@read_recall_complete auroc auprc logs auc Hauc).
    rewrite (@read_recall_complete auroc auprc [pool logs] [] (or_introl eq_refl)).
    reflexivity.
Qed.

Lemma pooling_preserves_scalars_and_ratios_witness :
  snd (run [pool [plain_b; plain_c]]) = Ok tt /\
  same_scalars (fst (run [plain_b; plain_c])) (fst (run [pool [plain_b; plain_c]])) /\
  read_derived (fun _ _ => NaN) (fun _ _ => NaN) (fst (run [plain_b; plain_c])) "precision"
  = read_derived (fun _ _ => NaN) (fun _ _ => NaN)
      (fst (run [pool [plain_b; plain_c]])) "precision" /\
  read_derived (fun _ _ => NaN) (fun _ _ => NaN) (fst (run [plain_b; plain_c])) "recall"
  = read_derived (fun _ _ => NaN) (fun _ _ => NaN)
      (fst (run [pool [plain_b; plain_c]])) "recall".
Proof.
  apply (@pooling_preserves_scalars_and_ratios (fun _ _ => NaN) (fun _ _ => NaN)
           [plain_b; plain_c]).
  - discriminate.
  - right. repeat constructor.
Defined.

Section Pairing.

Lemma combine_append {A B} (a a' : list A) (b b' : list B) :
  length a = length b ->
  combine (a ++ a') (b ++ b') = combine a b ++ combine a' b'.
Proof.
  revert b. induction a as [|x a IH]; intros [|y b] H; try discriminate.
  - reflexivity.
  - injection H as H. cbn [app combine]. f_equal. apply IH, H.
Qed.

(** The pairs of the concatenated arrays are the entries' pairs, entry by
    entry, when each entry's two arrays have the same length. *)
Lemma combine_concat_fields (logs : list logging_output) :
  Forall (fun log => length (raw_scores log) = length (raw_targets log)) logs ->
  combine (concat_field y_score logs) (concat_field y_true logs)
  = flat_map entry_pairs logs.
Proof.
  induction 1 as [|log logs Hl _ IH]; [reflexivity|].
  unfold concat_field in *. cbn [map concat flat_map].
  fold (raw_scores log). fold (raw_targets log).
  rewrite (@combine_append _ _ _ _ _ _ Hl), IH. reflexivity.
Qed.

Lemma fed_pairs_all (logs : list logging_output) :
  logs <> [] ->
  Forall (fun log => carries log = true) logs ->
  Forall (fun log => length (raw_scores log) = length (raw_targets log)) logs ->
  fed_pairs (fst (run logs)) = flat_map entry_pairs logs.
Proof.
  intros Hne Hall Hlen. destruct logs as [|log rest]; [congruence|].
  rewrite (run_all Hall). cbn [fst]. unfold fed_pairs.
  pose proof (customs_of_complete_auc (log :: rest)) as Hfed.
  unfold complete in Hfed. rewrite Hfed. apply combine_concat_fields, Hlen.
Qed.

End Pairing.

(** X7: the AUC meter is fed with exactly the (probability, target) pairs
    of all positions of all batches, in batch order and each probability
    beside its own target, when the criterion is in evaluation mode with
    [report_auc] set; otherwise it is fed nothing. *)
Theorem produced_auc_pairs
    (self : criterion) (bs : list batch) (logs : list logging_output) :
  Forall2 (produces self) bs logs ->
  logs <> [] ->
  fed_pairs (fst (run logs))
  = if negb (training self) && report_auc self
    then flat_map (fun b => combine (batch_probs b) (batch_target b)) bs
    else [].
Proof.
  intros Hprod Hne.
  assert (Hpairs : flat_map entry_pairs logs
                   = if negb (training self) && report_auc self
                     then flat_map (fun b => combine (batch_probs b) (batch_target b)) bs
                     else []).
  { clear Hne. induction Hprod as [|b log bs' logs' Hp _ IH].
    - destruct (negb (training self) && report_auc self); reflexivity.
    - cbn [flat_map]. rewrite IH.
      destruct (produces_facts Hp) as (_ & _ & _ & _ & _ & _ & _ & _ & ->).
      destruct (negb (training self) && report_auc self); reflexivity. }
  assert (Hc : Forall (fun log => carries log
                                  = negb (training self) && report_auc self) logs).
  { eapply produced_Forall; [|exact Hprod].
    intros b log Hp. apply (produces_facts Hp). }
  destruct (negb (training self) && report_auc self) eqn:Hauc.
  - rewrite <- Hpairs. apply fed_pairs_all; [exact Hne | exact Hc |].
    eapply produced_Forall; [|exact Hprod].
    intros b log (l & ss & H). unfold forward_batch in H.
    destruct (@forward_ok_bundle _ _ _ _ _ _ H) as (Hlen & _ & Hout).
    injection Hout as _ _ ->. unfold raw_scores, raw_targets.
    cbn [y_score y_true]. rewrite Hauc. exact Hlen.
  - destruct logs as [|log rest]; [congruence|].
    assert (Hl : carries log = false) by (inversion Hc; assumption).
    rewrite (@run_skip log rest Hl). cbn [fst]. unfold fed_pairs.
    pose proof (customs_of_complete_none (log :: rest)) as Hnone.
    unfold complete in Hnone. cbn [app] in Hnone. rewrite Hnone. reflexivity.
Qed.

Lemma produced_auc_pairs_witness :
  fed_pairs (fst (run [ex_log; ex_log2]))
  = [(9 # 10, 1 # 1); (2 # 10, 0 # 1); (6 # 10, 1 # 1); (1 # 10, 0 # 1);
     (7 # 10, 0 # 1); (3 # 10, 1 # 1)].
Proof.
  rewrite (@produced_auc_pairs eval_crit [ex_batch; ex_batch2] [ex_log; ex_log2]).
  - reflexivity.
  - constructor; [exists (1 # 2), 2; reflexivity|].
    constructor; [exists (1 # 4), 1; reflexivity | constructor].
  - discriminate.
Defined.

(** X8: the order of the entries only reorders what the AUC meter is fed:
    when every entry carries both arrays, of equal length, the pairs fed
    for a permutation of the sequence are a permutation of the pairs fed
    for the sequence. *)
Theorem auc_pairs_permuted (logs logs' : list logging_output) :
  logs <> [] ->
  Forall (fun log => carries log = true) logs ->
  Forall (fun log => length (raw_scores log) = length (raw_targets log)) logs ->
  Permutation logs logs' ->
  Permutation (fed_pairs (fst (run logs))) (fed_pairs (fst (run logs'))).
Proof.
  intros Hne Hall Hlen Hperm.
  assert (Hne' : logs' <> []).
  { intros ->. apply Permutation_sym, Permutation_nil in Hperm. contradiction. }
  rewrite (@fed_pairs_all logs Hne Hall Hlen).
  rewrite (@fed_pairs_all logs' Hne' (Permutation_Forall Hperm Hall)
             (Permutation_Forall Hperm Hlen)).
  apply Permutation_flat_map, Hperm.
Qed.

Lemma auc_pairs_permuted_witness :
  Permutation (fed_pairs (fst (run [raw_a; raw_b])))
              (fed_pairs (fst (run [raw_b; raw_a]))).
Proof.
  apply (@auc_pairs_permuted [raw_a; raw_b] [raw_b; raw_a]).
  - discriminate.
  - repeat constructor.
  - repeat constructor.
  - apply perm_swap.
Defined.

Section Accumulation.

(** The reducer on a sink that already holds events. *)
Lemma reduce_metrics_on_sink (logs : list logging_output) (s : list event) :
  reduce_metrics logs s = (s ++ fst (run logs), snd (run logs)).
Proof.
  unfold run. rewrite (reduce_metrics_steps logs s), (reduce_metrics_steps logs []).
  destruct logs as [|log rest].
  - rewrite !reduce_auc_empty. reflexivity.
  - destruct (carries log) eqn:Hc.
    + destruct (Forall_dec (fun l => carries l = true)
                  (fun l => bool_dec (carries l) true) (log :: rest)) as [Hall | Hn].
      * rewrite !(reduce_auc_all _ Hall). cbn [fst snd app].
        rewrite <- !app_assoc. reflexivity.
      * rewrite !(@reduce_auc_mixed log rest _ Hc Hn). reflexivity.
    + rewrite !(@reduce_auc_skip log rest _ Hc). cbn [fst snd app].
      rewrite <- !app_assoc. reflexivity.
Qed.

Lemma sum_of_app (field : logging_output -> option Z) (l1 l2 : list logging_output) :
  sum_of field (l1 ++ l2) = sum_of field l1 + sum_of field l2.
Proof.
  induction l1 as [|log l1 IH]; [reflexivity|].
  cbn [app]. rewrite !sum_of_cons, IH. lia.
Qed.

Lemma scalars_of_complete_key key logs auc z :
  (auc = [] \/ auc = auc_events logs) ->
  sum_of_key key logs = Some z ->
  scalars_of key (complete logs auc) = [(inject_Z z * inject_Z 1)%Q].
Proof.
  intros Hauc Hk. rewrite (@scalars_of_complete key logs auc Hauc).
  unfold sum_of_key in Hk. unfold loss_event, count_events. cbn [scalars_of app].
  destruct (String.eqb key "_correct") eqn:E1;
    [apply String.eqb_eq in E1; subst key; injection Hk as <-; reflexivity|].
  destruct (String.eqb key "_total") eqn:E2;
    [apply String.eqb_eq in E2; subst key; injection Hk as <-; reflexivity|].
  destruct (String.eqb key "_tp") eqn:E3;
    [apply String.eqb_eq in E3; subst key; injection Hk as <-; reflexivity|].
  destruct (String.eqb key "_fp") eqn:E4;
    [apply String.eqb_eq in E4; subst key; injection Hk as <-; reflexivity|].
  destruct (String.eqb key "_tn") eqn:E5;
    [apply String.eqb_eq in E5; subst key; injection Hk as <-; reflexivity|].
  destruct (String.eqb key "_fn") eqn:E6;
    [apply String.eqb_eq in E6; subst key; injection Hk as <-; reflexivity|].
  destruct (String.eqb key "nsignals") eqn:E7;
    [apply String.eqb_eq in E7; subst key; injection Hk as <-; reflexivity|].
  discriminate.
Qed.

Variables auroc auprc : list Q -> list Q -> pyfloat.
Variables l1 l2 : list logging_output.
Variables a1 a2 : list event.
Hypothesis Ha1 : a1 = [] \/ a1 = auc_events l1.
Hypothesis Ha2 : a2 = [] \/ a2 = auc_events l2.

(** Two complete intervals in one sink: each count meter holds the sum of
    both. *)
Lemma meter_sum_two key z1 z2 :
  sum_of_key key l1 = Some z1 ->
  sum_of_key key l2 = Some z2 ->
  exists x,
    meter_sum (meters_of auroc auprc (complete l1 a1 ++ complete l2 a2)) key = Ok x /\
    (x == inject_Z (z1 + z2))%Q.
Proof.
  intros H1 H2. cbn [meter_sum meters_of]. unfold scalar_sum.
  rewrite scalars_of_app.
  rewrite (scalars_of_complete_key key Ha1 H1), (scalars_of_complete_key key Ha2 H2).
  cbn [app]. eexists. split; [reflexivity|].
  unfold Py.sumQ. cbn [fold_left]. rewrite inject_Z_plus. ring.
Qed.

Lemma accumulated_accuracy :
  accuracy_fn (meters_of auroc auprc (complete l1 a1 ++ complete l2 a2))
  = Ok (ratio (sum_of correct l1 + sum_of correct l2)
              (sum_of count l1 + sum_of count l2)).
Proof.
  destruct (@meter_sum_two "_total" _ _ eq_refl eq_refl) as (t & Ht & Hteq).
  destruct (@meter_sum_two "_correct" _ _ eq_refl eq_refl) as (c & Hc & Hceq).
  unfold accuracy_fn. rewrite Ht, Hc. cbn [bind_result].
  apply guarded_ratio; assumption.
Qed.

Lemma accumulated_precision :
  precision_fn (meters_of auroc auprc (complete l1 a1 ++ complete l2 a2))
  = Ok (ratio (sum_of tp l1 + sum_of tp l2)
              (sum_of tp l1 + sum_of tp l2 + (sum_of fp l1 + sum_of fp l2))).
Proof.
  destruct (@meter_sum_two "_tp" _ _ eq_refl eq_refl) as (t & Ht & Hteq).
  destruct (@meter_sum_two "_fp" _ _ eq_refl eq_refl) as (f & Hf & Hfeq).
  unfold precision_fn. rewrite Ht, Hf. cbn [bind_result].
  apply guarded_ratio; [assumption|].
  rewrite Hteq, Hfeq, <- inject_Z_plus. reflexivity.
Qed.

Lemma accumulated_recall :
  recall_fn (meters_of auroc auprc (complete l1 a1 ++ complete l2 a2))
  = Ok (ratio (sum_of tp l1 + sum_of tp l2)
              (sum_of tp l1 + sum_of tp l2 + (sum_of fn l1 + sum_of fn l2))).
Proof.
  destruct (@meter_sum_two "_tp" _ _ eq_refl eq_refl) as (t & Ht & Hteq).
  destruct (@meter_sum_two "_fn" _ _ eq_refl eq_refl) as (f & Hf & Hfeq).
  unfold recall_fn. rewrite Ht, Hf. cbn [bind_result].
  apply guarded_ratio; [assumption|].
  rewrite Hteq, Hfeq, <- inject_Z_plus. reflexivity.
Qed.

(** The second interval registers the ratios again when its total is
    positive. *)
Lemma derived_of_two key fn :
  0 < sum_of count l2 ->
  (key = "accuracy" /\ fn = accuracy_fn) \/
  (key = "precision" /\ fn = precision_fn) \/
  (key = "recall" /\ fn = recall_fn) ->
  derived_of key (complete l1 a1 ++ complete l2 a2) = Some fn.
Proof.
  intros Ht Hk. rewrite derived_of_app, (@derived_of_complete l2 a2 key).
  unfold ratio_events.
  replace (0 <? sum_of count l2) with true by (symmetry; apply Z.ltb_lt; exact Ht).
  destruct Hk as [[-> ->] | [[-> ->] | [-> ->]]]; reflexivity.
Qed.

End Accumulation.

(** X10: the ratios are ratios of running sums.  After two non-empty
    intervals of produced bundles are reduced into the same sink, accuracy,
    precision and recall read from the sink are those of the two intervals
    reduced as one sequence -- not a mean of the two intervals' ratios. *)
Theorem two_intervals_ratio_of_sums
    (auroc auprc : list Q -> list Q -> pyfloat) (self : criterion)
    (bs1 bs2 : list batch) (l1 l2 : list logging_output) (key : string) :
  Forall2 (produces self) bs1 l1 ->
  Forall2 (produces self) bs2 l2 ->
  l1 <> [] -> l2 <> [] ->
  key = "accuracy" \/ key = "precision" \/ key = "recall" ->
  snd (reduce_metrics l2 (fst (run l1))) = Ok tt /\
  read_derived auroc auprc (fst (reduce_metrics l2 (fst (run l1)))) key
  = read_derived auroc auprc (fst (run (l1 ++ l2))) key.
Proof.
  intros H1 H2 Hne1 Hne2 Hkey.
  rewrite (reduce_metrics_on_sink l2 (fst (run l1))). cbn [fst snd].
  destruct (run_uniform Hne2 (produced_uniform H2)) as (a2 & Ha2 & Hrun2).
  destruct (run_uniform Hne1 (produced_uniform H1)) as (a1 & Ha1 & Hrun1).
  rewrite Hrun1, Hrun2. cbn [fst snd]. split; [reflexivity|].
  assert (H12 : Forall2 (produces self) (bs1 ++ bs2) (l1 ++ l2))
    by (apply Forall2_app; assumption).
  assert (Hne12 : l1 ++ l2 <> []).
  { destruct l1; [congruence | discriminate]. }
  destruct (produced_reads auroc auprc H12 Hne12) as (Ra & Rp & Rr).
  destruct (produced_sums H2 Hne2) as (Ht2 & _).
  rewrite !sum_of_app in Ra, Rp, Rr.
  unfold read_derived at 1.
  destruct Hkey as [-> | [-> | ->]].
  - rewrite (@derived_of_two l1 l2 a1 a2 "accuracy" accuracy_fn Ht2) by auto.
    rewrite (accumulated_accuracy auroc auprc Ha1 Ha2), Ra. reflexivity.
  - rewrite (@derived_of_two l1 l2 a1 a2 "precision" precision_fn Ht2) by auto.
    rewrite (accumulated_precision auroc auprc Ha1 Ha2), Rp. reflexivity.
  - rewrite (@derived_of_two l1 l2 a1 a2 "recall" recall_fn Ht2) by auto.
    rewrite (accumulated_recall auroc auprc Ha1 Ha2), Rr. reflexivity.
Qed.

Lemma two_intervals_ratio_of_sums_witness :
  read_derived (fun _ _ => NaN) (fun _ _ => NaN)
    (fst (reduce_metrics [ex_log2] (fst (run [ex_log])))) "accuracy"
  = Some (Ok (Num (66667 # 100000))).
Proof.
  destruct (@two_intervals_ratio_of_sums (fun _ _ => NaN) (fun _ _ => NaN)
              eval_crit [ex_batch] [ex_batch2] [ex_log] [ex_log2] "accuracy")
    as [_ Hread].
  - constructor; [exists (1 # 2), 2; reflexivity | constructor].
  - constructor; [exists (1 # 4), 1; reflexivity | constructor].
  - discriminate.
  - discriminate.
  - auto.
  - rewrite Hread. vm_compute. reflexivity.
Defined.

Section MissingKeys.

Lemma sum_of_insert_empty (field : logging_output -> option Z)
    (l1 l2 : list logging_output) :
  field empty_log = None ->
  sum_of field (l1 ++ empty_log :: l2) = sum_of field (l1 ++ l2).
Proof.
  intros He. rewrite !sum_of_app, sum_of_cons, He. reflexivity.
Qed.

Lemma loss_sum_insert_empty (l1 l2 : list logging_output) :
  (loss_sum (l1 ++ empty_log :: l2) == loss_sum (l1 ++ l2))%Q.
Proof.
  rewrite (loss_sum_perm (Permutation_sym (Permutation_middle l1 l2 empty_log))).
  unfold loss_sum. cbn [map]. rewrite sumQ_cons. cbn [loss empty_log Py.get0Q]. ring.
Qed.

Lemma run_none_carry (logs : list logging_output) :
  logs <> [] ->
  Forall (fun log => carries log = false) logs ->
  run logs = (complete logs [], Ok tt).
Proof.
  intros Hne H. destruct logs as [|log rest]; [congruence|].
  apply run_skip. inversion H. assumption.
Qed.

End MissingKeys.

(** X11: an entry without any key counts as zeros.  In a sequence none of
    whose entries carries both raw arrays, inserting the empty dict at any
    place leaves the reducer's eight [log_scalar] calls and the three
    ratios unchanged. *)
Theorem empty_entry_is_neutral
    (auroc auprc : list Q -> list Q -> pyfloat)
    (l1 l2 : list logging_output) (key : string) :
  l1 ++ l2 <> [] ->
  Forall (fun log => carries log = false) (l1 ++ l2) ->
  snd (run (l1 ++ empty_log :: l2)) = Ok tt /\
  same_scalars (fst (run (l1 ++ empty_log :: l2))) (fst (run (l1 ++ l2))) /\
  (key = "accuracy" \/ key = "precision" \/ key = "recall" ->
   read_derived auroc auprc (fst (run (l1 ++ empty_log :: l2))) key
   = read_derived auroc auprc (fst (run (l1 ++ l2))) key).
Proof.
  intros Hne Hnone.
  assert (Hnone' : Forall (fun log => carries log = false) (l1 ++ empty_log :: l2)).
  { apply Forall_app in Hnone. destruct Hnone as [H1 H2].
    apply Forall_app. split; [exact H1|]. constructor; [reflexivity | exact H2]. }
  assert (Hne' : l1 ++ empty_log :: l2 <> []) by (destruct l1; discriminate).
  rewrite (run_none_carry Hne' Hnone'), (run_none_carry Hne Hnone). cbn [fst snd].
  split; [reflexivity|]. split.
  - unfold same_scalars.
    rewrite !(@scalar_calls_complete _ [] (or_introl eq_refl)).
    unfold count_events, loss_event.
    rewrite !sum_of_insert_empty by reflexivity.
    constructor; [|apply same_call_refl_scalars].
    constructor. rewrite loss_sum_insert_empty. reflexivity.
  - intros [-> | [-> | ->]].
    + rewrite !(@read_accuracy_complete auroc auprc _ [] (or_introl eq_refl)).
      rewrite !sum_of_insert_empty by reflexivity. reflexivity.
    + rewrite !(@read_precision_complete auroc auprc _ [] (or_introl eq_refl)).
      rewrite !sum_of_insert_empty by reflexivity. reflexivity.
    + rewrite !(@read_recall_complete auroc auprc _ [] (or_introl eq_refl)).
      rewrite !sum_of_insert_empty by reflexivity. reflexivity.
Qed.

Lemma empty_entry_is_neutral_witness :
  same_scalars (fst (run ([plain_b] ++ empty_log :: [plain_c])))
               (fst (run ([plain_b] ++ [plain_c]))).
Proof.
  destruct (@empty_entry_is_neutral (fun _ _ => NaN) (fun _ _ => NaN)
              [plain_b] [plain_c] "accuracy") as (_ & Hs & _).
  - discriminate.
  - repeat constructor.
  - exact Hs.
Defined.

(** * The preprocessing script: paths, crops and the loop *)

Section Windows.

(** Every slice is a contiguous part of the list. *)
Lemma slice_window {A} (l : list A) (a b : Z) :
  exists pre post, l = pre ++ Py.slice l a b ++ post.
Proof.
  unfold Py.slice.
  set (s := Z.to_nat (Py.clamp_index (Z.of_nat (length l)) a)).
  set (n := Z.to_nat (Py.clamp_index (Z.of_nat (length l)) b
                      - Py.clamp_index (Z.of_nat (length l)) a)).
  exists (firstn s l), (skipn n (skipn s l)).
  rewrite (firstn_skipn n (skipn s l)), (firstn_skipn s l). reflexivity.
Qed.

Lemma clamp_index_range (len i : Z) :
  0 <= len -> 0 <= Py.clamp_index len i <= len.
Proof.
  intros H. unfold Py.clamp_index. destruct (i <? 0) eqn:E.
  - lia.
  - apply Z.ltb_ge in E. lia.
Qed.

(** The length of a slice, whatever its bounds. *)
Lemma slice_length_any {A} (l : list A) (a b : Z) :
  length (Py.slice l a b)
  = Z.to_nat (Py.clamp_index (Z.of_nat (length l)) b
              - Py.clamp_index (Z.of_nat (length l)) a).
Proof.
  unfold Py.slice. rewrite length_firstn, length_skipn.
  pose proof (@clamp_index_range (Z.of_nat (length l)) a ltac:(lia)).
  pose proof (@clamp_index_range (Z.of_nat (length l)) b ltac:(lia)).
  lia.
Qed.

(** Casting element by element commutes with slicing. *)
Lemma slice_map {A B} (f : A -> B) (l : list A) (a b : Z) :
  Py.slice (map f l) a b = map f (Py.slice l a b).
Proof.
  unfold Py.slice. rewrite length_map, skipn_map, firstn_map. reflexivity.
Qed.

Lemma crop_map {A B} (f : A -> B) (args_sec : Z) (l : list A) (draw : Z) :
  crop args_sec (map f l) draw = map f (crop args_sec l draw).
Proof. unfold crop. rewrite slice_map, length_map. reflexivity. Qed.

(** What [main_file] does on a 500 Hz record, whatever [--sec] is. *)
Lemma main_file_500 (args_sec : Z) (pid basename : string)
    (record : list Q) (draw : Z) :
  Preprocess.main_file args_sec 500 pid basename record draw
  = if Z.of_nat (length record) - args_sec * 500 <=? 0
    then Raise (ValueError HighNotPositive)
    else if Nat.eqb (length (crop args_sec record draw)) 2500
    then Ok (Some {| Preprocess.file_name := pid ++ "_" ++ basename ++ ".mat";
                     Preprocess.patient_id := pid;
                     Preprocess.curr_sample_rate := 500;
                     Preprocess.feats :=
                       map Preprocess.astype_float32 (crop args_sec record draw)
                       :: Preprocess.np_zeros 11 2500 |})
    else Raise (ValueError DimsMismatch).
Proof.
  destruct (Z.of_nat (length record) - args_sec * 500 <=? 0) eqn:E.
  - apply main_file_short. apply Z.leb_le in E. lia.
  - rewrite main_file_long by (apply Z.leb_gt in E; lia).
    rewrite crop_map, length_map. reflexivity.
Qed.

(** Single precision on a few samples: an integer above [2 ** 24], a
    decimal fraction, a number below the subnormal range and one above
    the largest single-precision number. *)
Lemma astype_float32_samples :
  Preprocess.astype_float32 (16777217 # 1) = Preprocess.Finite (16777216 # 1) /\
  Preprocess.astype_float32 (1 # 10) = Preprocess.Finite (13421773 # 134217728) /\
  Preprocess.astype_float32 (1 # 10 ^ 46) = Preprocess.Finite (0 # 1) /\
  Preprocess.astype_float32 (- inject_Z (10 ^ 39)) = Preprocess.Inf true.
Proof. repeat split; vm_compute; reflexivity. Qed.

End Windows.

(** X12: whatever [--sec] is, a file that is written holds a contiguous
    window of 2500 samples of the 500 Hz record, each rounded to single
    precision, as its first row, followed by 11 rows of 2500 zeros, under
    the name [pid_basename.mat] and with the patient id and the sample
    rate 500 beside it. *)
Theorem main_file_writes_a_window
    (args_sec sample_rate : Z) (pid basename : string) (record : list Q)
    (draw : Z) (data : Preprocess.mat) :
  Preprocess.main_file args_sec sample_rate pid basename record draw
  = Ok (Some data) ->
  sample_rate = 500 /\
  Preprocess.file_name data = (pid ++ "_" ++ basename ++ ".mat")%string /\
  Preprocess.patient_id data = pid /\
  Preprocess.curr_sample_rate data = 500 /\
  exists pre w post,
    record = pre ++ w ++ post /\
    length w = 2500%nat /\
    Preprocess.feats data
    = map Preprocess.astype_float32 w
      :: repeat (repeat (Preprocess.Finite (0 # 1)) 2500%nat) 11.
Proof.
  intros H.
  assert (Hrate : sample_rate = 500).
  { unfold Preprocess.main_file in H.
    destruct (sample_rate =? 500) eqn:E; [apply Z.eqb_eq, E | discriminate H]. }
  subst sample_rate. split; [reflexivity|].
  rewrite main_file_500 in H.
  destruct (Z.of_nat (length record) - args_sec * 500 <=? 0); [discriminate H|].
  destruct (Nat.eqb (length (crop args_sec record draw)) 2500) eqn:E;
    [|discriminate H].
  injection H as <-. cbn [Preprocess.file_name Preprocess.patient_id
                          Preprocess.curr_sample_rate Preprocess.feats].
  repeat split.
  destruct (slice_window record
              (draw mod (Z.of_nat (length record) - args_sec * 500))
              (draw mod (Z.of_nat (length record) - args_sec * 500) + args_sec * 500))
    as (pre & post & Hw).
  exists pre, (crop args_sec record draw), post.
  split; [exact Hw|]. split; [apply Nat.eqb_eq, E | reflexivity].
Qed.

Lemma main_file_writes_a_window_witness :
  exists pre w post,
    repeat (16777217 # 1) 3000 = pre ++ w ++ post /\ length w = 2500%nat /\
    repeat (Preprocess.Finite (16777216 # 1)) 2500
    :: Preprocess.np_zeros 11 2500
    = map Preprocess.astype_float32 w
      :: repeat (repeat (Preprocess.Finite (0 # 1)) 2500%nat) 11.
Proof.
  destruct (@main_file_writes_a_window 5 500 "01" "rec_1"
              (repeat (16777217 # 1) 3000) 7
              {| Preprocess.file_name := "01_rec_1.mat";
                 Preprocess.patient_id := "01";
                 Preprocess.curr_sample_rate := 500;
                 Preprocess.feats :=
                   repeat (Preprocess.Finite (16777216 # 1)) 2500
                   :: Preprocess.np_zeros 11 2500 |})
    as (_ & _ & _ & _ & pre & w & post & Hw & Hlen & Hfeats).
  - vm_compute. reflexivity.
  - exists pre, w, post. repeat split; assumption.
Defined.

(** X13: with a negative [--sec] the stop of the slice is negative and
    counts from the end of the record.  [randint] then never raises, and a
    file is written exactly when the record has [2500 + |sec| * 500]
    samples and the start drawn lies below [|sec| * 500]; in every other
    case [np.concatenate] raises on the shapes. *)
Theorem main_file_negative_seconds
    (args_sec : Z) (pid basename : string) (record : list Q) (draw : Z) :
  args_sec < 0 ->
  let k := - args_sec * 500 in
  let len := Z.of_nat (length record) in
  let r := Preprocess.main_file args_sec 500 pid basename record draw in
  (Preprocess.saved r = true <-> len = 2500 + k /\ draw mod (len + k) < k) /\
  (Preprocess.saved r = false -> r = Raise (ValueError DimsMismatch)).
Proof.
  intros Hsec k len r. subst r. rewrite main_file_500. fold len.
  replace (len - args_sec * 500 <=? 0) with false
    by (symmetry; apply Z.leb_gt; unfold len; lia).
  assert (Hcrop : Nat.eqb (length (crop args_sec record draw)) 2500 = true
                  <-> len = 2500 + k /\ draw mod (len + k) < k).
  { rewrite Nat.eqb_eq. unfold crop. rewrite slice_length_any. fold len.
    replace (len - args_sec * 500) with (len + k) by (unfold k; lia).
    assert (Hs : 0 <= draw mod (len + k) < len + k)
      by (apply Z.mod_pos_bound; unfold k, len; lia).
    set (start := draw mod (len + k)) in *.
    replace (start + args_sec * 500) with (start - k) by (unfold k; lia).
    change 2500%nat with (Z.to_nat 2500).
    assert (Hlen : 0 <= len) by (unfold len; lia).
    assert (Hk : 0 < k) by (unfold k; lia).
    unfold Py.clamp_index.
    replace (start <? 0) with false by (symmetry; apply Z.ltb_ge; lia).
    destruct (start - k <? 0) eqn:E.
    - apply Z.ltb_lt in E. split.
      + intros H. apply Z2Nat.inj_iff in H; lia.
      + intros [H1 H2]. f_equal. lia.
    - apply Z.ltb_ge in E. split.
      + intros H. assert (Z.min (start - k) len - Z.min start len <= 0) by lia.
        rewrite Z2Nat.inj_iff in H; lia.
      + intros [H1 H2]. lia. }
  destruct (Nat.eqb (length (crop args_sec record draw)) 2500).
  - cbn [Preprocess.saved]. split; [|discriminate].
    split; intros _; [apply Hcrop|]; reflexivity.
  - cbn [Preprocess.saved]. split; [|reflexivity].
    split; [discriminate|]. intros H. apply Hcrop in H. discriminate H.
Qed.

Lemma main_file_negative_seconds_witness :
  Preprocess.saved
    (Preprocess.main_file (-1) 500 "01" "rec_1" (repeat (0 # 1) 3000) 499) = true.
Proof.
  destruct (@main_file_negative_seconds (-1) "01" "rec_1" (repeat (0 # 1) 3000) 499
              ltac:(lia)) as [Hiff _].
  apply Hiff. rewrite repeat_length. split; reflexivity.
Defined.

Section PathFacts.

Import Path.

Lemma append_assoc (a b c : string) : ((a ++ b) ++ c = a ++ (b ++ c))%string.
Proof. induction a as [|x a IH]; cbn; [reflexivity | rewrite IH; reflexivity]. Qed.

Lemma has_char_append (c : Ascii.ascii) (a b : string) :
  has_char c (a ++ b)%string = has_char c a || has_char c b.
Proof.
  induction a as [|x a IH]; cbn; [reflexivity|].
  rewrite IH. apply orb_assoc.
Qed.

Lemma split_nonempty (sep : Ascii.ascii) (s : string) : split sep s <> [].
Proof.
  destruct s as [|c r]; cbn; [discriminate|].
  destruct (Ascii.eqb c sep); [discriminate|].
  destruct (split sep r); discriminate.
Qed.

(** A string without separator is one piece. *)
Lemma split_one (sep : Ascii.ascii) (s : string) :
  has_char sep s = false -> split sep s = [s].
Proof.
  induction s as [|c r IH]; cbn; [reflexivity|].
  intros H. apply orb_false_elim in H. destruct H as [Hc Hr].
  rewrite Hc, (IH Hr). reflexivity.
Qed.

(** Splitting distributes over a separator. *)
Lemma split_at_separator (sep : Ascii.ascii) (a b : string) :
  split sep (a ++ String sep b)%string = split sep a ++ split sep b.
Proof.
  induction a as [|c a IH]; cbn.
  - rewrite Ascii.eqb_refl. reflexivity.
  - destruct (Ascii.eqb c sep).
    + rewrite IH. reflexivity.
    + rewrite IH. destruct (split sep a) as [|h t] eqn:E.
      * exfalso. exact (split_nonempty _ _ E).
      * reflexivity.
Qed.

Lemma getitem_penultimate {A} (l : list A) (x y : A) :
  getitem (l ++ [x; y]) (-2) = Ok x.
Proof.
  unfold getitem. rewrite length_app. cbn [length Z.ltb Z.compare].
  replace (-2 + Z.of_nat (length l + 2)) with (Z.of_nat (length l)) by lia.
  replace (Z.of_nat (length l) <? 0) with false by (symmetry; apply Z.ltb_ge; lia).
  replace (Z.of_nat (length l + 2) <=? Z.of_nat (length l)) with false
    by (symmetry; apply Z.leb_gt; lia).
  cbn [orb]. rewrite Nat2Z.id, nth_error_app2 by lia.
  rewrite Nat.sub_diag. reflexivity.
Qed.

(** [l[-2]] raises exactly on a list with fewer than two elements. *)
Lemma getitem_penultimate_error {A} (l : list A) :
  (exists e, getitem l (-2) = Raise e) <-> (length l < 2)%nat.
Proof.
  unfold getitem. cbn [Z.ltb Z.compare].
  destruct (-2 + Z.of_nat (length l) <? 0) eqn:E; cbn [orb].
  - apply Z.ltb_lt in E. split; [lia | eauto].
  - apply Z.ltb_ge in E.
    replace (Z.of_nat (length l) <=? -2 + Z.of_nat (length l)) with false
      by (symmetry; apply Z.leb_gt; lia).
    destruct (nth_error l (Z.to_nat (-2 + Z.of_nat (length l)))) eqn:N.
    + split; [intros [e He]; discriminate He | lia].
    + apply nth_error_None in N. lia.
Qed.

Lemma rpartition_name (n : string) :
  has_char slash n = false -> rpartition n = (EmptyString, n).
Proof.
  induction n as [|c r IH]; cbn; [reflexivity|].
  intros H. apply orb_false_elim in H. destruct H as [Hc Hr].
  rewrite (IH Hr), Hc. reflexivity.
Qed.

Lemma rpartition_at_last_slash (a n : string) :
  has_char slash n = false ->
  rpartition (a ++ String slash n)%string = ((a ++ String slash EmptyString)%string, n).
Proof.
  intros Hn. induction a as [|c a IH]; cbn [String.append rpartition].
  - rewrite (rpartition_name _ Hn), Ascii.eqb_refl. reflexivity.
  - rewrite IH. destruct (Ascii.eqb c slash); [reflexivity|].
    destruct a; reflexivity.
Qed.

Lemma cut_last_dot_none (s : string) :
  has_char dot s = false -> cut_last_dot s = None.
Proof.
  induction s as [|c r IH]; cbn; [reflexivity|].
  intros H. apply orb_false_elim in H. destruct H as [Hc Hr].
  rewrite (IH Hr), Hc. reflexivity.
Qed.

Lemma cut_last_dot_at (s e : string) :
  has_char dot e = false ->
  cut_last_dot (s ++ String dot e)%string = Some s.
Proof.
  intros He. induction s as [|c s IH]; cbn [String.append cut_last_dot].
  - rewrite (cut_last_dot_none _ He), Ascii.eqb_refl. reflexivity.
  - rewrite IH. reflexivity.
Qed.

(** The last two characters: a suffix of at most two characters. *)
Lemma last_two_suffix (s : string) :
  exists pre, s = (pre ++ last_two s)%string /\
              String.length (last_two s) = Nat.min 2 (String.length s).
Proof.
  unfold last_two. set (l := list_ascii_of_string s).
  assert (Hs : s = string_of_list_ascii l)
    by (unfold l; symmetry; apply string_of_list_ascii_of_string).
  assert (Hlen : forall l', String.length (string_of_list_ascii l') = length l').
  { induction l' as [|c l' IH]; cbn; [reflexivity | rewrite IH; reflexivity]. }
  assert (Happ : forall l1 l2, string_of_list_ascii (l1 ++ l2)
                               = (string_of_list_ascii l1 ++ string_of_list_ascii l2)%string).
  { induction l1 as [|c l1 IH]; intros l2; cbn; [reflexivity | rewrite IH; reflexivity]. }
  unfold Py.slice, Py.clamp_index. cbn [Z.ltb Z.compare].
  replace (Z.of_nat (length l) <? 0) with false by (symmetry; apply Z.ltb_ge; lia).
  rewrite Z.min_id.
  set (k := Z.to_nat (Z.max (-2 + Z.of_nat (length l)) 0)).
  assert (Hk : (k <= length l)%nat) by (unfold k; lia).
  replace (Z.to_nat (Z.of_nat (length l) - Z.max (-2 + Z.of_nat (length l)) 0))
    with (length l - k)%nat by (unfold k; lia).
  assert (Hfirst : firstn (length l - k) (skipn k l) = skipn k l).
  { apply firstn_all2. rewrite length_skipn. lia. }
  rewrite Hfirst. exists (string_of_list_ascii (firstn k l)). split.
  - rewrite <- Happ, firstn_skipn. exact Hs.
  - rewrite Hlen, length_skipn, Hs, Hlen. unfold k. lia.
Qed.

End PathFacts.

(** X14: for a record stored as [dir/parent/stem.ext] -- [parent], [stem]
    and [ext] without slash, [ext] without dot, [stem] not starting with a
    dot -- line 56 strips exactly [.ext], the patient id is the last two
    characters of [parent] (all of it when it is shorter) and the base name
    is [stem]: the file is written as [<last two of parent>_<stem>.mat],
    so two records whose directories end alike and whose stems agree share
    one output name. *)
Theorem record_path_names
    (dir parent ext : string) (c : Ascii.ascii) (s : string) :
  Path.has_char Path.slash parent = false ->
  Path.has_char Path.slash (String c s) = false ->
  Ascii.eqb c Path.dot = false ->
  Path.has_char Path.slash ext = false ->
  Path.has_char Path.dot ext = false ->
  let f := {| fname := (dir ++ "/" ++ parent ++ "/" ++ String c s ++ "." ++ ext)%string;
              p_signal := []; fs := 500 |} in
  Path.splitext_root (fname f) = (dir ++ "/" ++ parent ++ "/" ++ String c s)%string /\
  Path.pid_of (Path.splitext_root (fname f)) = Ok (Path.last_two parent) /\
  Path.basename (Path.splitext_root (fname f)) = String c s /\
  written_name f = out_name parent (String c s) /\
  (exists pre, parent = (pre ++ Path.last_two parent)%string) /\
  String.length (Path.last_two parent) = Nat.min 2 (String.length parent).
Proof.
  intros Hparent Hstem Hc Hext_slash Hext_dot f.
  assert (Hroot : Path.splitext_root (fname f)
                  = (dir ++ "/" ++ parent ++ "/" ++ String c s)%string).
  { unfold f. cbn [fname]. unfold Path.splitext_root.
    change (dir ++ "/" ++ parent ++ "/" ++ String c s ++ "." ++ ext)%string
      with (dir ++ String Path.slash
                     (parent ++ String Path.slash
                                (String c s ++ String Path.dot ext)))%string.
    replace (dir ++ String Path.slash
                      (parent ++ String Path.slash
                                 (String c s ++ String Path.dot ext)))%string
      with ((dir ++ String Path.slash parent)
            ++ String Path.slash (String c s ++ String Path.dot ext))%string
      by (rewrite append_assoc; reflexivity).
    rewrite rpartition_at_last_slash.
    - cbn [Path.span_dots String.append]. rewrite Hc.
      change (String c (s ++ String Path.dot ext))%string
        with (String c s ++ String Path.dot ext)%string.
      rewrite (@cut_last_dot_at (String c s) ext Hext_dot).
      rewrite !append_assoc. reflexivity.
    - rewrite has_char_append, Hstem. cbn [Path.has_char orb].
      rewrite Hext_slash. reflexivity. }
  assert (Hsplit : Path.split Path.slash (dir ++ "/" ++ parent ++ "/" ++ String c s)%string
                   = Path.split Path.slash dir ++ [parent; String c s]).
  { change (dir ++ "/" ++ parent ++ "/" ++ String c s)%string
      with (dir ++ String Path.slash (parent ++ String Path.slash (String c s)))%string.
    rewrite !split_at_separator, (@split_one Path.slash parent Hparent),
      (@split_one Path.slash (String c s) Hstem).
    reflexivity. }
  assert (Hpid : Path.pid_of (Path.splitext_root (fname f)) = Ok (Path.last_two parent)).
  { rewrite Hroot. unfold Path.pid_of. rewrite Hsplit, getitem_penultimate.
    reflexivity. }
  assert (Hbase : Path.basename (Path.splitext_root (fname f)) = String c s).
  { rewrite Hroot. unfold Path.basename. rewrite Hsplit.
    change [parent; String c s] with ([parent] ++ [String c s]).
    rewrite app_assoc. apply last_last. }
  split; [exact Hroot|]. split; [exact Hpid|]. split; [exact Hbase|].
  split; [unfold written_name; rewrite Hpid, Hbase; reflexivity|].
  destruct (last_two_suffix parent) as (pre & Hpre & Hlen).
  split; [exists pre; exact Hpre | exact Hlen].
Qed.

Lemma record_path_names_witness :
  written_name {| fname := "/data/ecgiddb/Person_01/rec_1.dat"; p_signal := []; fs := 500 |}
  = out_name "Person_01" "rec_1".
Proof.
  destruct (@record_path_names "/data/ecgiddb" "Person_01" "dat"
              (Ascii.ascii_of_nat 114) "ec_1"
              eq_refl eq_refl eq_refl eq_refl eq_refl)
    as (_ & _ & _ & Hname & _).
  exact Hname.
Defined.

Section MainFacts.

Variable rng : Type.
Variable np_random_seed : Z -> rng.
Variable np_random_randint : rng -> Z -> Z * rng.

Lemma main_loop_other_rate (args_sec : Z) (g : rng) (f : ecg_file)
    (rest : list ecg_file) :
  is_500hz f = false ->
  main_loop np_random_randint args_sec g (f :: rest) = main_loop np_random_randint args_sec g rest.
Proof.
  unfold is_500hz. intros H. cbn [main_loop]. rewrite H. reflexivity.
Qed.

(** One turn of the loop on a 500 Hz file. *)
Lemma main_loop_500 (args_sec : Z) (g : rng) (f : ecg_file)
    (rest : list ecg_file) :
  is_500hz f = true ->
  main_loop np_random_randint args_sec g (f :: rest)
  = match Path.pid_of (Path.splitext_root (fname f)) with
    | Raise e => ([], Raise e)
    | Ok pid =>
        let (draw, g') :=
          np_random_randint g (Z.of_nat (length (p_signal f)) - args_sec * 500) in
        match Preprocess.main_file args_sec 500 pid
                (Path.basename (Path.splitext_root (fname f))) (p_signal f) draw with
        | Ok (Some data) =>
            let (written, r) := main_loop np_random_randint args_sec g' rest in (data :: written, r)
        | Ok None => main_loop np_random_randint args_sec g rest
        | Raise e => ([], Raise e)
        end
    end.
Proof.
  unfold is_500hz. intros H. cbn [main_loop]. rewrite H. cbn [negb].
  apply Z.eqb_eq in H. rewrite H. reflexivity.
Qed.

Lemma main_loop_ignores_other_rates (args_sec : Z) (files : list ecg_file) :
  forall g, main_loop np_random_randint args_sec g files = main_loop np_random_randint args_sec g (filter is_500hz files).
Proof.
  induction files as [|f rest IH]; intros g; [reflexivity|].
  cbn [filter]. destruct (is_500hz f) eqn:E.
  - rewrite !(fun r => @main_loop_500 args_sec g f r E).
    destruct (Path.pid_of (Path.splitext_root (fname f))) as [pid|e]; [|reflexivity].
    destruct (np_random_randint g _) as [draw g'].
    destruct (Preprocess.main_file _ _ _ _ _ _) as [[data|]|e]; try reflexivity.
    + rewrite (IH g'). reflexivity.
    + apply IH.
  - rewrite (fun r => @main_loop_other_rate args_sec g f r E). apply IH.
Qed.

(** A non-negative [--sec] other than 5 makes every 500 Hz file raise. *)
Lemma main_file_raises (args_sec : Z) (pid basename : string)
    (record : list Q) (draw : Z) :
  0 <= args_sec -> args_sec <> 5 ->
  exists e, Preprocess.main_file args_sec 500 pid basename record draw = Raise e.
Proof.
  intros H0 H5. rewrite main_file_500.
  destruct (Z.of_nat (length record) - args_sec * 500 <=? 0) eqn:E; [eauto|].
  apply Z.leb_gt in E.
  rewrite (@crop_length Q args_sec record draw H0 ltac:(lia)).
  replace (Nat.eqb (Z.to_nat (args_sec * 500)) 2500) with false; [eauto|].
  symmetry. apply Nat.eqb_neq. change 2500%nat with (Z.to_nat 2500).
  intros H. apply Z2Nat.inj in H; lia.
Qed.

Lemma main_loop_never_writes (args_sec : Z) (files : list ecg_file) :
  0 <= args_sec -> args_sec <> 5 ->
  forall g,
    fst (main_loop np_random_randint args_sec g files) = [] /\
    (snd (main_loop np_random_randint args_sec g files) = Ok tt
     <-> Forall (fun f => is_500hz f = false) files).
Proof.
  intros H0 H5. induction files as [|f rest IH]; intros g.
  - split; [reflexivity|]. split; [constructor | reflexivity].
  - destruct (is_500hz f) eqn:E.
    + rewrite (fun r => @main_loop_500 args_sec g f r E).
      assert (Hno : ~ Forall (fun f => is_500hz f = false) (f :: rest)).
      { intros H. inversion H. congruence. }
      destruct (Path.pid_of (Path.splitext_root (fname f))) as [pid|e].
      * destruct (np_random_randint g _) as [draw g'].
        destruct (@main_file_raises args_sec pid
                    (Path.basename (Path.splitext_root (fname f)))
                    (p_signal f) draw H0 H5) as [e He].
        rewrite He. cbn [fst snd]. split; [reflexivity|].
        split; [discriminate | contradiction].
      * cbn [fst snd]. split; [reflexivity|].
        split; [discriminate | contradiction].
    + rewrite (fun r => @main_loop_other_rate args_sec g f r E).
      destruct (IH g) as [Hw Hr]. split; [exact Hw|]. rewrite Hr. split.
      * intros H. constructor; assumption.
      * intros H. inversion H. assumption.
Qed.

(** With [--sec 5] a 500 Hz record is written exactly when it has more
    than 2500 samples. *)
Lemma main_file_five (pid basename : string) (record : list Q) (draw : Z) :
  Preprocess.main_file 5 500 pid basename record draw
  = if 2500 <? Z.of_nat (length record)
    then Ok (Some {| Preprocess.file_name := pid ++ "_" ++ basename ++ ".mat";
                     Preprocess.patient_id := pid;
                     Preprocess.curr_sample_rate := 500;
                     Preprocess.feats :=
                       map Preprocess.astype_float32 (crop 5 record draw)
                       :: Preprocess.np_zeros 11 2500 |})
    else Raise (ValueError HighNotPositive).
Proof.
  rewrite main_file_500.
  destruct (2500 <? Z.of_nat (length record)) eqn:E.
  - apply Z.ltb_lt in E.
    replace (Z.of_nat (length record) - 5 * 500 <=? 0) with false
      by (symmetry; apply Z.leb_gt; lia).
    rewrite (@crop_length Q 5 record draw ltac:(lia) ltac:(lia)). reflexivity.
  - apply Z.ltb_ge in E.
    replace (Z.of_nat (length record) - 5 * 500 <=? 0) with true
      by (symmetry; apply Z.leb_le; lia).
    reflexivity.
Qed.

Lemma main_loop_five (files : list ecg_file) :
  Forall (fun f => is_500hz f = true -> has_parent f) files ->
  forall g,
    (snd (main_loop np_random_randint 5 g files) = Ok tt
     <-> Forall (fun f => is_500hz f = true -> long_enough f) files) /\
    (snd (main_loop np_random_randint 5 g files) = Ok tt ->
     Forall2 written_for (filter is_500hz files) (fst (main_loop np_random_randint 5 g files))).
Proof.
  induction 1 as [|f rest Hf _ IH]; intros g.
  - split; [split; [constructor | reflexivity] | constructor].
  - cbn [filter]. destruct (is_500hz f) eqn:E.
    + rewrite (fun r => @main_loop_500 5 g f r E).
      destruct (Hf eq_refl) as [pid Hpid]. rewrite Hpid.
      destruct (np_random_randint g _) as [draw g'] eqn:Hdraw.
      pose proof (@main_file_five pid (Path.basename (Path.splitext_root (fname f)))
                    (p_signal f) draw) as Hfile.
      destruct (2500 <? Z.of_nat (length (p_signal f))) eqn:Hlong.
      * rewrite Hfile. destruct (IH g') as [Hiff Hw].
        destruct (main_loop np_random_randint 5 g' rest) as [written r]. cbn [fst snd] in *.
        apply Z.ltb_lt in Hlong. split.
        -- rewrite Hiff. split.
           ++ intros H. constructor; [intros _; exact Hlong | exact H].
           ++ intros H. inversion H. assumption.
        -- intros Hr. constructor; [|apply Hw, Hr].
           unfold written_for, written_name. rewrite Hpid.
           cbn [Preprocess.file_name Preprocess.curr_sample_rate Preprocess.feats].
           split; [reflexivity|]. split; [reflexivity|].
           destruct (slice_window (p_signal f)
                       (draw mod (Z.of_nat (length (p_signal f)) - 5 * 500))
                       (draw mod (Z.of_nat (length (p_signal f)) - 5 * 500) + 5 * 500))
             as (pre & post & Hwin).
           exists pre, (crop 5 (p_signal f) draw), post.
           split; [exact Hwin|]. split; [|reflexivity].
           rewrite (@crop_length Q 5 (p_signal f) draw ltac:(lia) ltac:(lia)).
           reflexivity.
      * rewrite Hfile. cbn [fst snd]. apply Z.ltb_ge in Hlong. split.
        -- split; [discriminate|]. intros H. inversion H as [|? ? Hl _]; subst.
           specialize (Hl E). unfold long_enough in Hl. lia.
        -- discriminate.
    + rewrite (fun r => @main_loop_other_rate 5 g f r E).
      destruct (IH g) as [Hiff Hw]. split; [|exact Hw].
      rewrite Hiff. split.
      * intros H. constructor; [congruence | exact H].
      * intros H. inversion H. assumption.
Qed.

(** An exception ends the loop: later files are not looked at, and what
    was written stays. *)
Lemma main_loop_stops (args_sec : Z) (files more : list ecg_file) :
  forall g,
    (forall e, snd (main_loop np_random_randint args_sec g files) = Raise e ->
               main_loop np_random_randint args_sec g (files ++ more) = main_loop np_random_randint args_sec g files) /\
    (exists extra, fst (main_loop np_random_randint args_sec g (files ++ more))
                   = fst (main_loop np_random_randint args_sec g files) ++ extra).
Proof.
  induction files as [|f rest IH]; intros g.
  - cbn [app main_loop fst snd]. split; [discriminate | eauto].
  - cbn [app]. destruct (is_500hz f) eqn:E.
    + rewrite !(fun r => @main_loop_500 args_sec g f r E).
      destruct (Path.pid_of (Path.splitext_root (fname f))) as [pid|e0];
        [|split; [reflexivity | exists []; reflexivity]].
      destruct (np_random_randint g _) as [draw g'].
      destruct (Preprocess.main_file _ _ _ _ _ _) as [[data|]|e0].
      * destruct (IH g') as [Hstop [extra Hextra]].
        destruct (main_loop np_random_randint args_sec g' rest) as [w r] eqn:Hrest.
        destruct (main_loop np_random_randint args_sec g' (rest ++ more)) as [w' r'] eqn:Hmore.
        cbn [fst snd] in *. split.
        -- intros e He. injection (Hstop e He) as -> ->. reflexivity.
        -- exists extra. rewrite Hextra. reflexivity.
      * apply IH.
      * split; [reflexivity | exists []; reflexivity].
    + rewrite !(fun r => @main_loop_other_rate args_sec g f r E). apply IH.
Qed.

End MainFacts.

(** ** The whole run *)

Section MainRun.

Variable rng : Type.
Variable np_random_seed : Z -> rng.
Variable np_random_randint : rng -> Z -> Z * rng.

(** How [main] ends, read off the loop. *)
Lemma seed_in_range_iff (s : Z) :
  seed_in_range s = true <-> 0 <= s <= 2 ^ 32 - 1.
Proof.
  unfold seed_in_range. rewrite andb_true_iff, Z.leb_le, Z.leb_le. reflexivity.
Qed.

Lemma main_ok_iff (a : args) (files : list ecg_file) :
  snd (main np_random_seed np_random_randint a files) = MainOk
  <-> dest a <> None /\ 0 <= seed a <= 2 ^ 32 - 1 /\
      snd (main_loop np_random_randint (sec a) (np_random_seed (seed a)) files)
      = Ok tt.
Proof.
  rewrite <- seed_in_range_iff.
  unfold main. destruct (dest a) as [d|].
  - destruct (seed_in_range (seed a)); cbn [negb snd].
    + destruct (main_loop _ _ _ _) as [w [[]|e]]; cbn [snd]; split.
      * intros _. split; [discriminate | split; reflexivity].
      * reflexivity.
      * discriminate.
      * intros (_ & _ & H). discriminate H.
    + split; [discriminate | intros (_ & H & _); discriminate H].
  - cbn [snd]. split; [discriminate | intros [H _]; contradiction].
Qed.

Lemma main_written (a : args) (files : list ecg_file) :
  fst (main np_random_seed np_random_randint a files)
  = match dest a with
    | None => []
    | Some _ =>
        if seed_in_range (seed a)
        then fst (main_loop np_random_randint (sec a)
                    (np_random_seed (seed a)) files)
        else []
    end.
Proof.
  unfold main. destruct (dest a) as [d|]; [|reflexivity].
  destruct (seed_in_range (seed a)); [|reflexivity]. cbn [negb].
  destruct (main_loop _ _ _ _) as [w [[]|e]]; reflexivity.
Qed.

End MainRun.

(** X15: files whose sampling rate is not 500 Hz do not influence a run at
    all: they are skipped before a file name is taken apart or a random
    start is drawn, so the run on all files is the run on the 500 Hz files
    alone, whatever the generator. *)
Theorem main_ignores_other_rates
    (rng : Type) (np_random_seed : Z -> rng)
    (np_random_randint : rng -> Z -> Z * rng)
    (a : args) (files : list ecg_file) :
  main np_random_seed np_random_randint a files
  = main np_random_seed np_random_randint a (filter is_500hz files).
Proof.
  unfold main. destruct (dest a) as [d|]; [|reflexivity].
  destruct (seed_in_range (seed a)); [|reflexivity].
  rewrite (@main_loop_ignores_other_rates rng np_random_randint (sec a) files
             (np_random_seed (seed a))).
  reflexivity.
Qed.

(** X16: with a non-negative [--sec] other than 5 a run writes no file at
    all, and it ends normally exactly when a destination is given, the
    seed is one [np.random.seed] accepts and no file found is sampled at
    500 Hz. *)
Theorem main_other_seconds_writes_nothing
    (rng : Type) (np_random_seed : Z -> rng)
    (np_random_randint : rng -> Z -> Z * rng)
    (a : args) (files : list ecg_file) :
  0 <= sec a -> sec a <> 5 ->
  fst (main np_random_seed np_random_randint a files) = [] /\
  (snd (main np_random_seed np_random_randint a files) = MainOk
   <-> dest a <> None /\ 0 <= seed a <= 2 ^ 32 - 1 /\
       Forall (fun f => is_500hz f = false) files).
Proof.
  intros H0 H5.
  destruct (@main_loop_never_writes rng np_random_randint (sec a) files H0 H5
              (np_random_seed (seed a))) as [Hw Hr].
  split.
  - rewrite main_written.
    destruct (dest a); [|reflexivity].
    destruct (seed_in_range (seed a)); [exact Hw | reflexivity].
  - rewrite main_ok_iff, Hr. reflexivity.
Qed.

Lemma main_other_seconds_writes_nothing_witness :
  fst (main (fun _ : Z => tt) const_rng
         {| root := "/data"; dest := Some "/out"; ext := "dat";
            sec := 3; seed := 42; workers := 1 |}
         [ex_file 6 250; ex_file 6 360]) = [] /\
  (snd (main (fun _ : Z => tt) const_rng
          {| root := "/data"; dest := Some "/out"; ext := "dat";
             sec := 3; seed := 42; workers := 1 |}
          [ex_file 6 250; ex_file 6 360]) = MainOk
   <-> Some "/out" <> None /\ 0 <= 42 <= 2 ^ 32 - 1 /\
       Forall (fun f => is_500hz f = false) [ex_file 6 250; ex_file 6 360]).
Proof.
  apply (@main_other_seconds_writes_nothing unit (fun _ : Z => tt) const_rng
           {| root := "/data"; dest := Some "/out"; ext := "dat";
              sec := 3; seed := 42; workers := 1 |}
           [ex_file 6 250; ex_file 6 360]).
  - cbn. lia.
  - cbn. lia.
Defined.

(** X17: with [--sec 5], when every 500 Hz file has a parent directory in
    its path, a run ends normally exactly when a destination is given, the
    seed is one [np.random.seed] accepts and every 500 Hz record has more
    than 2500 samples; it has then written
    one file per 500 Hz file, in the order of the files, each named after
    its record and holding a 2500-sample window of it, rounded to single
    precision, above 11 rows of zeros. *)
Theorem main_five_seconds_run
    (rng : Type) (np_random_seed : Z -> rng)
    (np_random_randint : rng -> Z -> Z * rng)
    (a : args) (files : list ecg_file) :
  sec a = 5 ->
  Forall (fun f => is_500hz f = true -> has_parent f) files ->
  (snd (main np_random_seed np_random_randint a files) = MainOk
   <-> dest a <> None /\ 0 <= seed a <= 2 ^ 32 - 1 /\
       Forall (fun f => is_500hz f = true -> long_enough f) files) /\
  (snd (main np_random_seed np_random_randint a files) = MainOk ->
   Forall2 written_for (filter is_500hz files)
     (fst (main np_random_seed np_random_randint a files))).
Proof.
  intros H5 Hp.
  destruct (@main_loop_five rng np_random_randint files Hp
              (np_random_seed (seed a))) as [Hiff Hw].
  rewrite main_ok_iff, main_written, H5. split.
  - rewrite Hiff. reflexivity.
  - intros (Hd & Hs & Hr). destruct (dest a); [|contradiction].
    apply seed_in_range_iff in Hs. rewrite Hs. apply Hw, Hr.
Qed.

Lemma main_five_seconds_run_witness :
  (snd (main (fun _ : Z => tt) const_rng
          {| root := "/data"; dest := Some "/out"; ext := "dat";
             sec := 5; seed := 42; workers := 1 |}
          [ex_file 6 250; ex_file 6 500]) = MainOk
   <-> Some "/out" <> None /\ 0 <= 42 <= 2 ^ 32 - 1 /\
       Forall (fun f => is_500hz f = true -> long_enough f)
         [ex_file 6 250; ex_file 6 500]) /\
  (snd (main (fun _ : Z => tt) const_rng
          {| root := "/data"; dest := Some "/out"; ext := "dat";
             sec := 5; seed := 42; workers := 1 |}
          [ex_file 6 250; ex_file 6 500]) = MainOk ->
   Forall2 written_for (filter is_500hz [ex_file 6 250; ex_file 6 500])
     (fst (main (fun _ : Z => tt) const_rng
             {| root := "/data"; dest := Some "/out"; ext := "dat";
                sec := 5; seed := 42; workers := 1 |}
             [ex_file 6 250; ex_file 6 500]))).
Proof.
  apply (@main_five_seconds_run unit (fun _ : Z => tt) const_rng
           {| root := "/data"; dest := Some "/out"; ext := "dat";
              sec := 5; seed := 42; workers := 1 |}
           [ex_file 6 250; ex_file 6 500]).
  - reflexivity.
  - repeat constructor; intros _; exists "01"; vm_compute; reflexivity.
Defined.

(** X18: a run that ends with an exception, of [np.random.seed] or of the
    loop, has stopped there: whatever files would have followed the
    failing one, the files written and the exception are the same. *)
Theorem main_stops_at_first_error
    (rng : Type) (np_random_seed : Z -> rng)
    (np_random_randint : rng -> Z -> Z * rng)
    (a : args) (files more : list ecg_file) (e : exn) :
  snd (main np_random_seed np_random_randint a files) = MainRaise e ->
  main np_random_seed np_random_randint a (files ++ more)
  = main np_random_seed np_random_randint a files.
Proof.
  intros H.
  destruct (@main_loop_stops rng np_random_randint (sec a) files more
              (np_random_seed (seed a))) as [Hstop _].
  unfold main in *. destruct (dest a); [|reflexivity].
  destruct (seed_in_range (seed a)); [|reflexivity]. cbn [negb] in *.
  destruct (main_loop np_random_randint (sec a) (np_random_seed (seed a)) files)
    as [w [[]|e']] eqn:Hrun; cbn [snd] in H; [discriminate H|].
  rewrite (Hstop e' eq_refl). reflexivity.
Qed.

Lemma main_stops_at_first_error_witness :
  snd (main (fun _ : Z => tt) const_rng
         {| root := "/data"; dest := Some "/out"; ext := "dat";
            sec := 5; seed := 42; workers := 1 |}
         [ex_file 6 500; ex_file 1 500])
  = MainRaise (ValueError HighNotPositive) /\
  main (fun _ : Z => tt) const_rng
    {| root := "/data"; dest := Some "/out"; ext := "dat";
       sec := 5; seed := 42; workers := 1 |}
    ([ex_file 6 500; ex_file 1 500] ++ [ex_file 6 500])
  = main (fun _ : Z => tt) const_rng
      {| root := "/data"; dest := Some "/out"; ext := "dat";
         sec := 5; seed := 42; workers := 1 |}
      [ex_file 6 500; ex_file 1 500].
Proof.
  assert (H : snd (main (fun _ : Z => tt) const_rng
                     {| root := "/data"; dest := Some "/out"; ext := "dat";
                        sec := 5; seed := 42; workers := 1 |}
                     [ex_file 6 500; ex_file 1 500])
              = MainRaise (ValueError HighNotPositive))
    by (vm_compute; reflexivity).
  split; [exact H|].
  exact (@main_stops_at_first_error unit (fun _ : Z => tt) const_rng
           {| root := "/data"; dest := Some "/out"; ext := "dat";
              sec := 5; seed := 42; workers := 1 |}
           [ex_file 6 500; ex_file 1 500] [ex_file 6 500]
           (ValueError HighNotPositive) H).
Defined.

(** X19: files are written in the order the files are found and never
    taken back: the files written by a run on a list of files are a prefix
    of those written by a run on any longer list that starts with it. *)
Theorem main_written_is_a_prefix
    (rng : Type) (np_random_seed : Z -> rng)
    (np_random_randint : rng -> Z -> Z * rng)
    (a : args) (files more : list ecg_file) :
  exists extra,
    fst (main np_random_seed np_random_randint a (files ++ more))
    = fst (main np_random_seed np_random_randint a files) ++ extra.
Proof.
  rewrite !main_written. destruct (dest a); [|exists []; reflexivity].
  destruct (seed_in_range (seed a)); [|exists []; reflexivity].
  apply (@main_loop_stops rng np_random_randint (sec a) files more
           (np_random_seed (seed a))).
Qed.
